(** * carbon-layout: install-as-us-variant.py

    A shallow embedding of the installer script and the properties of its
    two patchers: the line scanner that strips the Carbon blocks from the
    flat [symbols/us] file, and the tree patcher that registers the Carbon
    variants under the [us] layout of the XKB rules documents. *)

From Stdlib Require Import NArith Ascii String List Bool Lia.
From stdpp Require Import base option list strings gmap.

Local Open Scope string_scope.
Local Open Scope list_scope.

(** ** Text

    Python [str] values read from a text-mode file are sequences of
    Unicode code points.  A file's text is a list of code points; program
    constants are written as ASCII string literals and converted. *)

Module Text.

Definition char : Type := N.
Definition str : Type := list char.

Definition of_string (s : string) : str :=
  List.map N_of_ascii (list_ascii_of_string s).

Definition LF : char := 10%N.
Definition CR : char := 13%N.
Definition DQUOTE : char := 34%N.

(** [str.isspace] on one code point: the characters [str.strip()] removes. *)
Definition isspace (c : char) : bool :=
  ((9 <=? c) && (c <=? 13)
   || (28 <=? c) && (c <=? 32)
   || (c =? 133) || (c =? 160) || (c =? 5760)
   || (8192 <=? c) && (c <=? 8202)
   || (c =? 8232) || (c =? 8233) || (c =? 8239) || (c =? 8287)
   || (c =? 12288))%N.

Fixpoint lstrip (s : str) : str :=
  match s with
  | [] => []
  | c :: s' => if isspace c then lstrip s' else s
  end.

Definition rstrip (s : str) : str := rev (lstrip (rev s)).

(** [s.strip()] *)
Definition strip (s : str) : str := rstrip (lstrip s).

(** [s.startswith(p)] *)
Fixpoint startswith (s p : str) : bool :=
  match p, s with
  | [], _ => true
  | _ :: _, [] => false
  | a :: p', b :: s' => (a =? b)%N && startswith s' p'
  end.

(** Text-mode reading with the default [newline=None]: the line endings
    CR LF and CR are translated to LF before the program sees the text. *)
Fixpoint universal_newlines (s : str) : str :=
  match s with
  | [] => []
  | c :: s' =>
      if (c =? CR)%N then
        match s' with
        | d :: s'' => if (d =? LF)%N then LF :: universal_newlines s''
                      else LF :: universal_newlines s'
        | [] => [LF]
        end
      else c :: universal_newlines s'
  end.

(** Splitting translated text at LF, each line keeping its terminator;
    [cur] is the line being read, last character first. *)
Fixpoint split_lines (cur : str) (s : str) : list str :=
  match s with
  | [] => match cur with [] => [] | _ :: _ => [rev cur] end
  | c :: s' =>
      if (c =? LF)%N then rev (c :: cur) :: split_lines [] s'
      else split_lines (c :: cur) s'
  end.

(** [f.readlines()] on a file opened with [open(path, "r")]. *)
Definition readlines (content : str) : list str :=
  split_lines [] (universal_newlines content).

(** [f.read()] on a file opened with [open(path, "r")]. *)
Definition read (content : str) : str := universal_newlines content.

(** [f.writelines(lines)] into a freshly truncated file; on the tool's
    platform the output translation of LF is the identity. *)
Definition writelines (lines : list str) : str := concat lines.

End Text.

Import Text.

(** ** ElementTree

    A rules document is its element tree as [ET.parse] returns it, taken
    up to ignorable whitespace: [text] and [tail] are [None] where the
    parsed string is absent or consists of whitespace only; these are
    the strings that [ET.indent] rewrites.  Element strings are kept as
    UTF-8 [string]s; the script only compares them for equality. *)

Module ET.

#[warnings="-register-all"]
Inductive element : Type :=
  Element {
    tag : string;
    attrib : list (string * string);
    text : option string;
    tail : option string;
    children : list element
  }.

(** [ET.Element(tag)] *)
Definition new (t : string) : element := Element t [] None None [].

Definition has_tag (t : string) (e : element) : bool := String.eqb (tag e) t.

(** [e.findall(t)] for a plain tag [t]: the direct children with that
    tag, in document order. *)
Definition findall (t : string) (e : element) : list element :=
  List.filter (has_tag t) (children e).

(** [e.find(t)] for a plain tag [t]. *)
Definition find (t : string) (e : element) : option element :=
  head (findall t e).

(** [e.find('./a/b')]: the first [b] child of an [a] child of [e], in
    document order. *)
Definition find2 (a b : string) (e : element) : option element :=
  head (flat_map (findall b) (findall a e)).

(** A node of a tree is referred to by the child indices leading to it;
    this stands for the object reference the script holds. *)
Definition path : Type := list nat.

Fixpoint get (p : path) (e : element) : option element :=
  match p with
  | [] => Some e
  | i :: p' => match children e !! i with
               | Some c => get p' c
               | None => None
               end
  end.

Definition set_children (cs : list element) (e : element) : element :=
  Element (tag e) (attrib e) (text e) (tail e) cs.

(** In-place mutation of the node at [p]. *)
Fixpoint update (p : path) (f : element → element) (e : element) : element :=
  match p with
  | [] => f e
  | i :: p' =>
      match children e !! i with
      | Some c => set_children (<[i := update p' f c]> (children e)) e
      | None => e
      end
  end.

(** The proper descendants of [e] in document order, each with its path
    from [e]. *)
Definition under (i : nat) (pd : path * element) : path * element :=
  (i :: fst pd, snd pd).

Definition descendants_from (d : element → list (path * element))
  : nat → list element → list (path * element) :=
  fix go (i : nat) (cs : list element) :=
    match cs with
    | [] => []
    | c :: cs' => ([i], c) :: List.map (under i) (d c) ++ go (S i) cs'
    end.

Fixpoint descendants (e : element) : list (path * element) :=
  match e with
  | Element _ _ _ _ cs => descendants_from descendants 0 cs
  end.

(** [root.findall('.//t')] *)
Definition findall_desc (t : string) (root : element) : list (path * element) :=
  List.filter (λ pd, has_tag t (snd pd)) (descendants root).

(** [ET.SubElement(parent, t)]: the parent with a new last child. *)
Definition SubElement (parent : element) (t : string) : element :=
  set_children (children parent ++ [new t]) parent.

(** [parent.append(child)] *)
Definition append (parent child : element) : element :=
  set_children (children parent ++ [child]) parent.

(** *** Writing a tree and reading it back

    Tags and attribute names are held as the parser gives them: the local
    name, preceded by the namespace in braces when the name has one.
    Line 51, [ET.register_namespace('', XKB_NAMESPACE)], makes
    [tree.write] use the empty prefix for that namespace: in a tree in
    which some tag or attribute name lies in it, the names in the
    namespace are written bare and the root declares it as the default
    namespace of the file.  Read back, every element written with a bare
    tag is in the namespace, every attribute written bare is in none, and
    an element on which two attributes have come to bear one name stops
    the parser.  Character data are written as they are, and the parser
    reads the line ends CR LF and CR as LF; attribute values are written
    with their line ends as character references and come back as they
    were. *)

Definition XKB_NAMESPACE : string :=
  "http://www.freedesktop.org/xkeyboard-config".

Definition clark (uri : string) : string := "{" +:+ uri +:+ "}".

(** [name[:1] == "{"] *)
Definition qualified (name : string) : bool := String.prefix "{" name.

Definition in_namespace (uri name : string) : bool :=
  String.prefix (clark uri) name.

Definition local_part (uri name : string) : string :=
  String.substring (String.length (clark uri)) (String.length name) name.

Fixpoint every_node (P : element → bool) (e : element) : bool :=
  match e with
  | Element _ _ _ _ cs => P e && forallb (every_node P) cs
  end.

(** A tag or an attribute name of [e] lies in the registered namespace. *)
Definition names_default (e : element) : bool :=
  in_namespace XKB_NAMESPACE (tag e)
  || existsb (λ kv, in_namespace XKB_NAMESPACE (fst kv)) (attrib e).

(** The file written from [root] declares the default namespace. *)
Definition uses_default (root : element) : bool :=
  negb (every_node (λ e, negb (names_default e)) root).

Definition reread_tag (t : string) : string :=
  if qualified t then t else clark XKB_NAMESPACE +:+ t.

Definition reread_key (k : string) : string :=
  if in_namespace XKB_NAMESPACE k then local_part XKB_NAMESPACE k else k.

(** The names of a tree written under the default namespace, as the
    parser reads them. *)
Fixpoint requalified (e : element) : element :=
  match e with
  | Element t a x tl cs =>
      Element (reread_tag t)
              (List.map (λ kv, (reread_key (fst kv), snd kv)) a)
              x tl (List.map requalified cs)
  end.

Definition distinct_keys (e : element) : bool :=
  bool_decide (NoDup (List.map fst (attrib e))).

(** Line ends of character data as the parser reads them. *)
Fixpoint newlines (s : string) : string :=
  match s with
  | EmptyString => EmptyString
  | String c s' =>
      if Ascii.eqb c "013" then
        String "010"
          match s' with
          | String d s'' =>
              if Ascii.eqb d "010" then newlines s'' else newlines s'
          | EmptyString => EmptyString
          end
      else String c (newlines s')
  end.

Fixpoint normalised (e : element) : element :=
  match e with
  | Element t a x tl cs =>
      Element t a (newlines <$> x) (newlines <$> tl)
              (List.map normalised cs)
  end.

End ET.

Import ET.

(** ** The machine the script runs on

    A host on which the file operations of the script go through: the
    symbols directory exists, the files the script opens hold text that
    decodes, and no copy, read or write raises.  On such a host the
    handlers of lines 123-125 and 158-160 ([IOError], [OSError]) are not
    entered. *)

(** What [ET.parse] makes of a rules file: a [ParseError] with its
    message, or the root of the tree. *)
Inductive rules_document : Type :=
  | Malformed (err : string)
  | WellFormed (root : element).

(** What the next [ET.parse] makes of the file that [ET.indent] and
    [tree.write] (lines 96-97) produce from the tree [root]; [err] is the
    message of the parser when the file does not read back. *)
Definition reread (err : string) (root : element) : rules_document :=
  if uses_default root then
    if every_node distinct_keys (requalified root)
    then WellFormed (normalised (requalified root))
    else Malformed err
  else WellFormed (normalised root).
Arguments reread : simpl never.

Inductive content : Type :=
  | TextContent (s : str)
  | XmlContent (x : rules_document).

(** Observable steps of a run, in the order they happen: a line printed,
    and the file operations [shutil.copy2], writing through a file opened
    with mode ["a"], and rewriting a file ([open(path, "w")],
    [tree.write]). *)
Inductive event : Type :=
  | Print (line : string)
  | Copy (src dst : string)
  | Append (path : string)
  | Write (path : string).

Record world : Type := World {
  euid : nat;                       (* os.geteuid() *)
  script_dir : string;              (* os.path.dirname(__file__) *)
  source : option str;              (* the bundled carbon-as-variant *)
  symbols : option str;             (* /usr/share/X11/xkb/symbols/us *)
  rules : gmap string rules_document;     (* the rules documents, by path *)
  backups : gmap string content;    (* the .bak_ copies, by path *)
  clock : nat → string;             (* successive readings of now() *)
  ticks : nat;                      (* readings taken so far *)
  parse_error : element → string;   (* the parser's message for the file
                                       written from a tree, when it does
                                       not read back *)
  trace : list event
}.

Definition set_trace (t : list event) (w : world) : world :=
  World (euid w) (script_dir w) (source w) (symbols w) (rules w) (backups w)
        (clock w) (ticks w) (parse_error w) t.

Definition set_ticks (n : nat) (w : world) : world :=
  World (euid w) (script_dir w) (source w) (symbols w) (rules w) (backups w)
        (clock w) n (parse_error w) (trace w).

Definition set_backups (b : gmap string content) (w : world) : world :=
  World (euid w) (script_dir w) (source w) (symbols w) (rules w) b
        (clock w) (ticks w) (parse_error w) (trace w).

Definition set_rules (r : gmap string rules_document) (w : world) : world :=
  World (euid w) (script_dir w) (source w) (symbols w) r (backups w)
        (clock w) (ticks w) (parse_error w) (trace w).

Definition set_symbols (s : option str) (w : world) : world :=
  World (euid w) (script_dir w) (source w) s (rules w) (backups w)
        (clock w) (ticks w) (parse_error w) (trace w).

(** The world after the events [evs] have been observed. *)
Definition log (evs : list event) (w : world) : world :=
  set_trace (trace w ++ evs) w.

Inductive outcome (A : Type) : Type :=
  | Returned (a : A)
  | Exited (code : nat).
Arguments Returned {A} a.
Arguments Exited {A} code.

(** A computation reads and changes the world and either returns or
    leaves through [sys.exit]. *)
Definition M (A : Type) : Type := world → outcome A * world.

Definition ret {A} (a : A) : M A := λ w, (Returned a, w).

Definition bind {A B} (m : M A) (k : A → M B) : M B := λ w,
  match m w with
  | (Returned a, w') => k a w'
  | (Exited c, w') => (Exited c, w')
  end.

Declare Scope run_scope.
Delimit Scope run_scope with run.
Notation "x <- m ;; k" := (bind m (λ x, k))
  (at level 100, m at next level, right associativity) : run_scope.
Notation "m ;; k" := (bind m (λ _, k))
  (at level 100, right associativity) : run_scope.
Local Open Scope run_scope.

Definition sys_exit {A} (code : nat) : M A := λ w, (Exited code, w).

Definition emit (e : event) : M unit := λ w, (Returned tt, log [e] w).

Definition print (line : string) : M unit := emit (Print line).

(** [for x in l: body(x)] *)
Fixpoint for_each {A} (body : A → M unit) (l : list A) : M unit :=
  match l with
  | [] => ret tt
  | x :: l' => body x ;; for_each body l'
  end.

(** A loop that carries a local value from one iteration to the next. *)
Fixpoint fold_each {A S} (body : S → A → M S) (l : list A) (s : S) : M S :=
  match l with
  | [] => ret s
  | x :: l' => s' <- body s x ;; fold_each body l' s'
  end.

(** Exit status of the process that runs [m]. *)
Definition exit_status {A} (m : M A) (w : world) : nat :=
  match fst (m w) with
  | Returned _ => 0
  | Exited c => c
  end.

Definition after {A} (m : M A) (w : world) : world := snd (m w).

(** *** Constants of the script *)

Definition VARIANTS_TO_INSTALL : list (string * string) :=
  [ ("carbon", "English (Carbon)");
    ("carbon-angle", "English (Carbon, Angle Mod)") ].

Definition SYMBOL_FILE_NAME : string := "carbon-as-variant".
Definition TARGET_SYMBOL_FILE_NAME : string := "us".
Definition BASE_LAYOUT : string := "us".
Definition XKB_SYMBOLS_DIR : string := "/usr/share/X11/xkb/symbols".
Definition XKB_RULES_FILES : list string :=
  [ "/usr/share/X11/xkb/rules/evdev.xml";
    "/usr/share/X11/xkb/rules/base.xml" ].

Definition NL : string := String (ascii_of_nat 10) EmptyString.

(** *** Paths and files *)

Definition ends_with_slash (s : string) : bool :=
  match rev (list_ascii_of_string s) with
  | c :: _ => Ascii.eqb c "/"
  | [] => false
  end.

(** [os.path.join(a, b)] on POSIX. *)
Definition os_path_join (a b : string) : string :=
  if String.prefix "/" b then b
  else if String.eqb a "" || ends_with_slash a then a +:+ b
  else a +:+ "/" +:+ b.

Definition source_path (w : world) : string :=
  os_path_join (script_dir w) SYMBOL_FILE_NAME.

Definition symbols_path : string :=
  os_path_join XKB_SYMBOLS_DIR TARGET_SYMBOL_FILE_NAME.

(** The file found at a path: the symbols file, the bundled blob, or a
    rules document.  Backup copies are at none of these paths. *)
Definition lookup_file (w : world) (p : string) : option content :=
  if String.eqb p symbols_path then TextContent <$> symbols w
  else if String.eqb p (source_path w) then TextContent <$> source w
  else XmlContent <$> rules w !! p.

(** [os.path.exists(p)] *)
Definition path_exists (p : string) : M bool := λ w,
  (Returned (bool_decide (is_Some (lookup_file w p))), w).

(** [datetime.now().strftime("%Y%m%d_%H%M%S")] *)
Definition now_strftime : M string := λ w,
  (Returned (clock w (ticks w)), set_ticks (S (ticks w)) w).

(** [shutil.copy2(src, dst)] of an existing file [src]. *)
Definition copy2 (src dst : string) : M unit := λ w,
  match lookup_file w src with
  | Some c =>
      (Returned tt, log [Copy src dst] (set_backups (<[dst := c]> (backups w)) w))
  | None => (Returned tt, w)
  end.

Definition backup_file (file_path : string) : M unit :=
  ex <- path_exists file_path ;;
  if ex : bool then
    timestamp <- now_strftime ;;
    let backup_path := file_path +:+ ".bak_" +:+ timestamp in
    copy2 file_path backup_path ;;
    print ("  -> Created backup: " +:+ backup_path)
  else ret tt.

(** ** The rules patcher: [modify_xkb_rules] *)

Inductive action : Type := ActInstall | ActRemove.

(** The test the script applies to [layout] and [variant] elements:
    [e.find('./configItem/name')] exists and its text is [name]. *)
Definition named (name : string) (e : element) : bool :=
  match find2 "configItem" "name" e with
  | Some name_el => bool_decide (text name_el = Some name)
  | None => false
  end.

(** The first [layout] descendant named [BASE_LAYOUT] (lines 55-60). *)
Definition locate_base_layout (root : element) : option (path * element) :=
  head (List.filter (λ pd, named BASE_LAYOUT (snd pd))
                    (findall_desc "layout" root)).

(** Position of the child that [layout_node.find('variantList')] returns. *)
Fixpoint find_pos (t : string) (cs : list element) : option nat :=
  match cs with
  | [] => None
  | c :: cs' => if has_tag t c then Some 0 else S <$> find_pos t cs'
  end.

(** The variants collected in [existing_variants] (lines 71-76). *)
Definition existing_variants (name : string) (variant_list : option element)
  : list element :=
  match variant_list with
  | Some vl => List.filter (named name) (findall "variant" vl)
  | None => []
  end.

(** [variant_list.remove(variant)] for every collected variant.  Children
    are removed by identity and the collected variants are exactly the
    [variant] children named [name], so those children go and all others
    stay in place. *)
Definition remove_existing (name : string) (variant_list : element) : element :=
  set_children
    (List.filter (λ c, negb (has_tag "variant" c && named name c))
                 (children variant_list))
    variant_list.

(** The same loop with the identity of the child objects spelled out:
    every child is an object known by the position it had when the
    variants were collected, and [Element.remove] takes out the first
    child that is the given object.  [remove_collected] is proved equal
    to [remove_existing]. *)
Fixpoint number (i : nat) (cs : list element) : list (nat * element) :=
  match cs with
  | [] => []
  | c :: cs' => (i, c) :: number (S i) cs'
  end.

Fixpoint remove_object (id : nat) (objs : list (nat * element))
  : list (nat * element) :=
  match objs with
  | [] => []
  | o :: objs' => if Nat.eqb (fst o) id then objs'
                  else o :: remove_object id objs'
  end.

Definition collected (name : string) (objs : list (nat * element))
  : list (nat * element) :=
  List.filter (λ o, has_tag "variant" (snd o) && named name (snd o)) objs.

Definition remove_collected (name : string) (variant_list : element) : element :=
  let objs := number 0 (children variant_list) in
  set_children
    (List.map snd
       (fold_left (λ left o, remove_object (fst o) left)
                  (collected name objs) objs))
    variant_list.

(** Lines 87-92. *)
Definition new_variant (name description : string) : element :=
  Element "variant" [] None None
    [ Element "configItem" [] None None
        [ Element "name" [] (Some name) None [];
          Element "description" [] (Some description) None [] ] ].

Definition unexpected_error {A} (e : string) : M A :=
  print ("An unexpected error occurred: " +:+ e) ;; sys_exit 1.

(** One iteration of the loop over [VARIANTS_TO_INSTALL] (lines 70-94),
    carrying the variant list it edits. *)
Definition reconcile (act : action) (variant_list : option element)
    (descriptor : string * string) : M (option element) :=
  let name := fst descriptor in
  let description := snd descriptor in
  let existing := existing_variants name variant_list in
  match act with
  | ActRemove =>
      for_each (λ _, print ("  - Removed variant '" +:+ name +:+ "'."))
               existing ;;
      ret (remove_existing name <$> variant_list)
  | ActInstall =>
      match variant_list with
      | Some vl =>
          print ("  + Added variant '" +:+ name +:+ "'.") ;;
          ret (Some (append (remove_existing name vl)
                            (new_variant name description)))
      | None =>
          unexpected_error "'NoneType' object has no attribute 'append'"
      end
  end.

(** Lines 66-94 on the located layout node: find or create the variant
    list, reconcile every descriptor, and leave the edited list in its
    place among the layout's children. *)
Definition patch_layout (act : action) (layout_node : element) : M element :=
  let found := find_pos "variantList" (children layout_node) in
  let '(layout_node, pos) :=
    match found, act with
    | None, ActInstall =>
        (SubElement layout_node "variantList",
         Some (length (children layout_node)))
    | _, _ => (layout_node, found)
    end in
  let variant_list := pos ≫= λ i, children layout_node !! i in
  variant_list' <- fold_each (reconcile act) VARIANTS_TO_INSTALL variant_list ;;
  match pos, variant_list' with
  | Some i, Some vl =>
      ret (set_children (<[i := vl]> (children layout_node)) layout_node)
  | _, _ => ret layout_node
  end.

(** [ET.parse(xml_file)] *)
Definition ET_parse (xml_file : string) : M (option rules_document) := λ w,
  (Returned (rules w !! xml_file), w).

(** [ET.indent(tree)] and [tree.write(xml_file, ...)]: the file holds
    what the next [ET.parse] will read from it. *)
Definition tree_write (xml_file : string) (root : element) : M unit := λ w,
  (Returned tt,
   log [Write xml_file]
       (set_rules (<[xml_file := reread (parse_error w root) root]> (rules w))
                  w)).

(** The body of the loop over [XKB_RULES_FILES] (lines 43-104). *)
Definition modify_rules_file (act : action) (xml_file : string) : M unit :=
  ex <- path_exists xml_file ;;
  if negb ex then
    print ("Warning: Rules file not found, skipping: " +:+ xml_file)
  else
    print (NL +:+ "Processing: " +:+ xml_file) ;;
    backup_file xml_file ;;
    parsed <- ET_parse xml_file ;;
    match parsed with
    | None => unexpected_error "[Errno 2] No such file or directory"
    | Some (Malformed e) =>
        print ("Error parsing XML file " +:+ xml_file +:+ ": " +:+ e) ;;
        sys_exit 1
    | Some (WellFormed root) =>
        match locate_base_layout root with
        | None =>
            print ("Error: Base layout '" +:+ BASE_LAYOUT
                   +:+ "' not found in " +:+ xml_file +:+ ".")
        | Some (p, layout_node) =>
            layout_node' <- patch_layout act layout_node ;;
            tree_write xml_file (update p (λ _, layout_node') root)
        end
    end.

Definition modify_xkb_rules (act : action) : M unit :=
  for_each (modify_rules_file act) XKB_RULES_FILES.

(** ** The symbols patcher and the two operations *)

(** The literal [xkb_symbols "<id>"]. *)
Definition header_text (id : string) : str :=
  of_string "xkb_symbols " ++ [DQUOTE] ++ of_string id ++ [DQUOTE].

(** Lines 148-149. *)
Definition is_header (line : str) : bool :=
  startswith (strip line) (header_text "carbon")
  || startswith (strip line) (header_text "carbon-angle").

(** Line 151: [line.strip().startswith('};')]. *)
Definition is_closer (line : str) : bool :=
  startswith (strip line) (of_string "};").

(** The loop of lines 145-155; the result is [new_lines], [skip] is the
    flag at the start of the iteration. *)
Fixpoint scan (skip : bool) (lines : list str) : list str :=
  match lines with
  | [] => []
  | line :: rest =>
      let skip := if is_header line then true else skip in
      if skip && is_closer line then scan false rest
      else if negb skip then line :: scan skip rest
      else scan skip rest
  end.

(** The flag when the loop has consumed [lines]. *)
Fixpoint scan_flag (skip : bool) (lines : list str) : bool :=
  match lines with
  | [] => skip
  | line :: rest =>
      let skip := if is_header line then true else skip in
      if skip && is_closer line then scan_flag false rest
      else scan_flag skip rest
  end.

(** [open(p, "r")] of a text file. *)
Definition open_read (p : string) : M (option str) := λ w,
  (Returned match lookup_file w p with
            | Some (TextContent s) => Some s
            | _ => None
            end, w).

(** Writing [data] through [open(symbols_path, "a")]: the file is
    created when absent and what it holds is never read. *)
Definition append_symbols (data : str) : M unit := λ w,
  (Returned tt,
   log [Append symbols_path]
       (set_symbols (Some (default [] (symbols w) ++ data)) w)).

(** [f.writelines(new_lines)] through [open(symbols_path, "w")]. *)
Definition rewrite_symbols (new_lines : list str) : M unit := λ w,
  (Returned tt,
   log [Write symbols_path] (set_symbols (Some (writelines new_lines)) w)).

Definition install : M unit :=
  print "--- Starting Carbon Layout Installation ---" ;;
  source_file <- (λ w, (Returned (source_path w), w)) ;;
  ex <- path_exists source_file ;;
  if negb ex then
    print ("Error: Symbol file '" +:+ source_file +:+ "' not found.") ;;
    sys_exit 1
  else
    let destination_file := symbols_path in
    backup_file destination_file ;;
    print (NL +:+ "Appending '" +:+ source_file +:+ "' into '"
           +:+ destination_file +:+ "'...") ;;
    src <- open_read source_file ;;
    match src with
    | Some blob =>
        append_symbols ([LF; LF] ++ read blob) ;;
        print "Symbol variants appended successfully." ;;
        modify_xkb_rules ActInstall ;;
        print (NL +:+ "--- Installation Complete ---") ;;
        print "To apply changes, please log out and log back in."
    | None =>
        print "Error: Could not append to symbols file. [Errno 2] No such file or directory" ;;
        sys_exit 1
    end.

Definition remove : M unit :=
  print "--- Starting Carbon Layout Uninstallation ---" ;;
  let target_file := symbols_path in
  ex <- path_exists target_file ;;
  (if ex : bool then
     backup_file target_file ;;
     print (NL +:+ "Cleaning Carbon variants from: " +:+ target_file +:+ "...") ;;
     f <- open_read target_file ;;
     match f with
     | Some content =>
         let lines := readlines content in
         let new_lines := scan false lines in
         rewrite_symbols new_lines ;;
         print "Removed Carbon variants from symbols file."
     | None =>
         print "Error: Could not clean symbols file. [Errno 2] No such file or directory" ;;
         sys_exit 1
     end
   else ret tt) ;;
  modify_xkb_rules ActRemove ;;
  print (NL +:+ "--- Uninstallation Complete ---") ;;
  print "To apply changes, please log out and log back in.".

Definition check_root_privileges : M unit := λ w,
  if Nat.eqb (euid w) 0 then (Returned tt, w)
  else (print "Error: This script must be run with root privileges." ;;
        sys_exit 1) w.

(** What [parser.parse_args()] (lines 174-182) makes of the command
    line: one of the two flags of the required, mutually exclusive
    group; or the help text, which the parser writes to standard output
    before it leaves with status 0; or a usage error, which it reports on
    standard error before it leaves with status 2.  The trace records
    standard output only. *)
Inductive command_line : Type :=
  | Chosen (chosen : action)
  | Help (usage : string)
  | UsageError.

Definition parse_args (argv : command_line) : M action :=
  match argv with
  | Chosen chosen => ret chosen
  | Help usage => print usage ;; sys_exit 0
  | UsageError => sys_exit 2
  end.

Definition main (argv : command_line) : M unit :=
  check_root_privileges ;;
  args <- parse_args argv ;;
  match args with
  | ActInstall => install
  | ActRemove => remove
  end.

(** [n] runs of [install], one after the other, whatever each run's exit
    status. *)
Fixpoint install_times (n : nat) (w : world) : world :=
  match n with
  | 0 => w
  | S n' => install_times n' (after install w)
  end.

(** ** The behaviour the design document describes *)

(** The block scanner as a two-state machine over the lines of the file.
    [closer] is the test that ends a managed block. *)
Inductive scanner_state : Type := Outside | InsideManagedBlock.

Fixpoint remove_blocks (closer : str → bool) (st : scanner_state)
    (lines : list str) : list str :=
  match lines with
  | [] => []
  | line :: rest =>
      match st with
      | Outside =>
          if is_header line then remove_blocks closer InsideManagedBlock rest
          else line :: remove_blocks closer Outside rest
      | InsideManagedBlock =>
          if closer line then remove_blocks closer Outside rest
          else remove_blocks closer InsideManagedBlock rest
      end
  end.

(** The closing test in the document's words: the trimmed line equals
    the closing marker. *)
Definition closes_exactly (line : str) : bool :=
  bool_decide (strip line = of_string "};").

Definition state_of (skip : bool) : scanner_state :=
  if skip then InsideManagedBlock else Outside.

(** The header lines of managed blocks that a symbols file holds. *)
Definition managed_headers (content : str) : list str :=
  List.filter is_header (readlines content).

(** ** What the procedures do to the world

    The state changes of the monadic procedures, written out; each is
    proved equal to the procedure it describes. *)

Definition backup_path_at (file_path : string) (w : world) : string :=
  file_path +:+ ".bak_" +:+ clock w (ticks w).

(** The world after [backup_file file_path] has copied the content [c]. *)
Definition backed_up (file_path : string) (c : content) (w : world) : world :=
  log [Copy file_path (backup_path_at file_path w);
       Print ("  -> Created backup: " +:+ backup_path_at file_path w)]
      (set_backups (<[backup_path_at file_path w := c]> (backups w))
                   (set_ticks (S (ticks w)) w)).

Definition backup_effect (file_path : string) (w : world) : world :=
  match lookup_file w file_path with
  | Some c => backed_up file_path c w
  | None => w
  end.

(** One descriptor's reconciliation of an existing variant list. *)
Definition reconciled (act : action) (vl : element) (d : string * string)
  : element :=
  match act with
  | ActRemove => remove_existing (fst d) vl
  | ActInstall =>
      append (remove_existing (fst d) vl) (new_variant (fst d) (snd d))
  end.

Definition reconcile_messages (act : action) (vl : element)
    (d : string * string) : list string :=
  match act with
  | ActRemove =>
      List.map (λ _, "  - Removed variant '" +:+ fst d +:+ "'.")
               (existing_variants (fst d) (Some vl))
  | ActInstall => ["  + Added variant '" +:+ fst d +:+ "'."]
  end.

Fixpoint reconcile_all_messages (act : action) (ds : list (string * string))
    (vl : element) : list string :=
  match ds with
  | [] => []
  | d :: ds' =>
      reconcile_messages act vl d
        ++ reconcile_all_messages act ds' (reconciled act vl d)
  end.

Definition reconciled_all (act : action) (vl : element) : element :=
  fold_left (reconciled act) VARIANTS_TO_INSTALL vl.

(** The layout node that [patch_layout] returns. *)
Definition patched_layout (act : action) (layout_node : element) : element :=
  match find_pos "variantList" (children layout_node) with
  | Some i =>
      match children layout_node !! i with
      | Some vl =>
          set_children (<[i := reconciled_all act vl]> (children layout_node))
                       layout_node
      | None => layout_node
      end
  | None =>
      match act with
      | ActInstall =>
          set_children
            (children layout_node ++ [reconciled_all act (new "variantList")])
            layout_node
      | ActRemove => layout_node
      end
  end.

(** The lines that [patch_layout] prints. *)
Definition patch_messages (act : action) (layout_node : element) : list string :=
  match find "variantList" layout_node with
  | Some vl => reconcile_all_messages act VARIANTS_TO_INSTALL vl
  | None =>
      match act with
      | ActInstall =>
          reconcile_all_messages act VARIANTS_TO_INSTALL (new "variantList")
      | ActRemove => []
      end
  end.

Definition processing_line (xml_file : string) : string :=
  NL +:+ "Processing: " +:+ xml_file.

Definition parse_error_line (xml_file e : string) : string :=
  "Error parsing XML file " +:+ xml_file +:+ ": " +:+ e.

Definition no_base_layout_line (xml_file : string) : string :=
  "Error: Base layout '" +:+ BASE_LAYOUT +:+ "' not found in "
  +:+ xml_file +:+ ".".

(** The tree that a patched rules document is rewritten with. *)
Definition patched_root (act : action) (root : element) (p : path)
    (layout_node : element) : element :=
  update p (λ _, patched_layout act layout_node) root.

(** What [modify_rules_file act xml_file] does, case by case. *)
Definition rules_file_effect (act : action) (xml_file : string) (w : world)
  : outcome unit * world :=
  match rules w !! xml_file with
  | None =>
      (Returned tt,
       log [Print ("Warning: Rules file not found, skipping: " +:+ xml_file)] w)
  | Some d =>
      let w1 := backed_up xml_file (XmlContent d)
                          (log [Print (processing_line xml_file)] w) in
      match d with
      | Malformed e =>
          (Exited 1, log [Print (parse_error_line xml_file e)] w1)
      | WellFormed root =>
          match locate_base_layout root with
          | None =>
              (Returned tt, log [Print (no_base_layout_line xml_file)] w1)
          | Some (p, layout_node) =>
              (Returned tt,
               log [Write xml_file]
                 (set_rules
                    (<[xml_file :=
                         reread
                           (parse_error w
                              (patched_root act root p layout_node))
                           (patched_root act root p layout_node)]>
                       (rules w))
                    (log (List.map Print (patch_messages act layout_node)) w1)))
          end
      end
  end.

Definition evdev_xml : string := "/usr/share/X11/xkb/rules/evdev.xml".
Definition base_xml : string := "/usr/share/X11/xkb/rules/base.xml".

(** The events of [modify_rules_file act xml_file] when the file holds
    [d] and its backup goes to [backup_path]. *)
Definition file_events (act : action) (xml_file : string)
    (d : option rules_document) (backup_path : string) : list event :=
  match d with
  | None =>
      [Print ("Warning: Rules file not found, skipping: " +:+ xml_file)]
  | Some d =>
      [Print (processing_line xml_file);
       Copy xml_file backup_path;
       Print ("  -> Created backup: " +:+ backup_path)]
      ++ match d with
         | Malformed e => [Print (parse_error_line xml_file e)]
         | WellFormed root =>
             match locate_base_layout root with
             | None => [Print (no_base_layout_line xml_file)]
             | Some (_, layout_node) =>
                 List.map Print (patch_messages act layout_node)
                 ++ [Write xml_file]
             end
         end
  end.

(** The document at [xml_file] after [modify_rules_file act xml_file],
    on a host whose parser reports [err]. *)
Definition file_after (act : action) (err : element → string)
    (d : option rules_document) : option rules_document :=
  match d with
  | Some (WellFormed root) =>
      match locate_base_layout root with
      | Some (p, layout_node) =>
          Some (reread (err (patched_root act root p layout_node))
                       (patched_root act root p layout_node))
      | None => d
      end
  | _ => d
  end.

Definition is_malformed (d : option rules_document) : bool :=
  match d with
  | Some (Malformed _) => true
  | _ => false
  end.

(** The events of the whole rules pass: the first file's, and the second
    file's unless the first one ended the run. *)
Definition pass_events (act : action) (w : world) : list event :=
  let ticks1 := match rules w !! evdev_xml with
                | Some _ => S (ticks w)
                | None => ticks w
                end in
  file_events act evdev_xml (rules w !! evdev_xml) (backup_path_at evdev_xml w)
  ++ (if is_malformed (rules w !! evdev_xml) then []
      else file_events act base_xml (rules w !! base_xml)
             (base_xml +:+ ".bak_" +:+ clock w ticks1)).

(** Whether the rules pass ends the run. *)
Definition pass_exits (w : world) : bool :=
  is_malformed (rules w !! evdev_xml) || is_malformed (rules w !! base_xml).

(** The file operations among the events: [touches p ev] when [ev]
    copies [p] to a backup or writes to [p]; [mutates p ev] when it writes. *)
Definition touches (p : string) (ev : event) : bool :=
  match ev with
  | Print _ => false
  | Copy src _ => String.eqb src p
  | Append q | Write q => String.eqb q p
  end.


(** The rules pass over [XKB_RULES_FILES], by its effects. *)
Definition rules_pass (act : action) : M unit :=
  for_each (rules_file_effect act) XKB_RULES_FILES.

(** The world in which [install] starts the rules pass: the symbols file
    backed up if it was there, and grown by the blob. *)
Definition install_symbols_effect (blob : str) (w : world) : world :=
  let w1 := backup_effect symbols_path
              (log [Print "--- Starting Carbon Layout Installation ---"] w) in
  log [Print "Symbol variants appended successfully."]
    (log [Append symbols_path]
       (set_symbols (Some (default [] (symbols w) ++ [LF; LF] ++ read blob))
          (log [Print (NL +:+ "Appending '" +:+ source_path w +:+ "' into '"
                       +:+ symbols_path +:+ "'...")] w1))).

(** The world in which [remove] starts the rules pass. *)
Definition remove_symbols_effect (w : world) : world :=
  let w0 := log [Print "--- Starting Carbon Layout Uninstallation ---"] w in
  match symbols w with
  | Some content =>
      log [Print "Removed Carbon variants from symbols file."]
        (log [Write symbols_path]
           (set_symbols
              (Some (writelines (scan false (readlines content))))
              (log [Print (NL +:+ "Cleaning Carbon variants from: "
                           +:+ symbols_path +:+ "...")]
                   (backed_up symbols_path (TextContent content) w0))))
  | None => w0
  end.

(** The closing lines of an operation, printed when the rules pass
    returns. *)
Definition finish (lines : list string) (r : outcome unit * world)
  : outcome unit * world :=
  match r with
  | (Returned _, w) => (Returned tt, log (List.map Print lines) w)
  | (Exited c, w) => (Exited c, w)
  end.

Definition install_closing : list string :=
  [NL +:+ "--- Installation Complete ---";
   "To apply changes, please log out and log back in."].

Definition remove_closing : list string :=
  [NL +:+ "--- Uninstallation Complete ---";
   "To apply changes, please log out and log back in."].

Definition created_backup_line (backup_path : string) : string :=
  "  -> Created backup: " +:+ backup_path.

(** The events of [install] up to the rules pass. *)
Definition install_symbols_events (w : world) : list event :=
  Print "--- Starting Carbon Layout Installation ---"
  :: match symbols w with
     | Some _ =>
         [Copy symbols_path (backup_path_at symbols_path w);
          Print (created_backup_line (backup_path_at symbols_path w))]
     | None => []
     end
  ++ [Print (NL +:+ "Appending '" +:+ source_path w +:+ "' into '"
             +:+ symbols_path +:+ "'...");
      Append symbols_path;
      Print "Symbol variants appended successfully."].

(** The events of [remove] up to the rules pass. *)
Definition remove_symbols_events (w : world) : list event :=
  Print "--- Starting Carbon Layout Uninstallation ---"
  :: match symbols w with
     | Some _ =>
         [Copy symbols_path (backup_path_at symbols_path w);
          Print (created_backup_line (backup_path_at symbols_path w));
          Print (NL +:+ "Cleaning Carbon variants from: "
                 +:+ symbols_path +:+ "...");
          Write symbols_path;
          Print "Removed Carbon variants from symbols file."]
     | None => []
     end.

Definition closing_events (lines : list string) (w : world) : list event :=
  if pass_exits w then [] else List.map Print lines.

Definition install_events (w : world) : list event :=
  match source w with
  | Some blob =>
      install_symbols_events w
      ++ pass_events ActInstall (install_symbols_effect blob w)
      ++ closing_events install_closing w
  | None =>
      [Print "--- Starting Carbon Layout Installation ---";
       Print ("Error: Symbol file '" +:+ source_path w +:+ "' not found.")]
  end.

Definition remove_events (w : world) : list event :=
  remove_symbols_events w
  ++ pass_events ActRemove (remove_symbols_effect w)
  ++ closing_events remove_closing w.

(** The events a computation adds to the trace. *)
Definition events_of {A} (m : M A) (w : world) : list event :=
  drop (length (trace w)) (trace (after m w)).

(** The operation an action stands for. *)
Definition operation (act : action) : M unit :=
  match act with
  | ActInstall => install
  | ActRemove => remove
  end.

(** The last character of a path. *)
Fixpoint final_char (s : string) : option ascii :=
  match s with
  | EmptyString => None
  | String c s' => match final_char s' with
                   | None => Some c
                   | Some d => Some d
                   end
  end.

(** A path at which [lookup_file] sees the rules documents. *)
Definition is_rules_path (w : world) (p : string) : Prop :=
  p ≠ symbols_path ∧ p ≠ source_path w.

(** ** What the patcher observes of a tree *)

(** The texts of the [name] children of [e], and of the [name] children
    of its [configItem] children: all that [named] looks at. *)
Definition name_texts (e : element) : list (option string) :=
  List.map text (findall "name" e).

Definition config_names (e : element) : list (option string) :=
  flat_map name_texts (findall "configItem" e).

(** Two elements that the searches of the script cannot tell apart. *)
Definition similar (e e' : element) : Prop :=
  tag e' = tag e ∧ text e' = text e
  ∧ name_texts e' = name_texts e ∧ config_names e' = config_names e.

(** The test of the search for the base layout. *)
Definition is_base_layout (e : element) : bool :=
  has_tag "layout" e && named BASE_LAYOUT e.

(** The first descendant that satisfies [Q], in document order. *)
Definition first_descendant (Q : element → bool) (e : element)
  : option (path * element) :=
  head (List.filter (λ pd, Q (snd pd)) (descendants e)).

(** A [variant] child registered under the name [name]. *)
Definition is_variant_named (name : string) (c : element) : bool :=
  has_tag "variant" c && named name c.

(** A [variant] child registered under one of the descriptor ids. *)
Definition is_managed_variant (c : element) : bool :=
  existsb (λ d, is_variant_named (fst d) c) VARIANTS_TO_INSTALL.

(** Two positions of which neither lies on the way to the other. *)
Definition diverge (p q : path) : Prop :=
  ∃ common i j p' q',
    p = common ++ i :: p' ∧ q = common ++ j :: q' ∧ i ≠ j.

(** ** Declarations of managed blocks

    The header of a block in the symbols file, as the XKB grammar and the
    design document have it: the keyword, white space if any, and the
    name of the block in double quotes. *)

Definition keyword : str := of_string "xkb_symbols".

Definition quoted (id : string) : str := [DQUOTE] ++ of_string id ++ [DQUOTE].

Definition managed_id (id : string) : Prop :=
  In id (List.map fst VARIANTS_TO_INSTALL).

Definition blank (s : str) : Prop := Forall (λ c, isspace c = true) s.

(** The text [s] declares a block named [id]. *)
Definition declares (id : string) (s : str) : Prop :=
  ∃ pre gap post,
    s = pre ++ keyword ++ gap ++ quoted id ++ post ∧ blank gap.

(** A line on which a declaration of a managed block begins or may
    begin: the keyword is followed, after white space only, by a managed
    id in quotes or by the end of the line. *)
Definition announces (line : str) : Prop :=
  ∃ pre gap post,
    line = pre ++ keyword ++ gap ++ post ∧ blank gap
    ∧ (post = [] ∨ ∃ id rest, managed_id id ∧ post = quoted id ++ rest).

(** The header of a managed block written where the tool looks for it:
    at the start of its line, after white space if any, with one space
    between the keyword and the quoted id. *)
Definition canonical (line : str) : Prop :=
  ∃ indent id rest,
    managed_id id ∧ blank indent
    ∧ line = indent ++ keyword ++ of_string " " ++ quoted id ++ rest.

(** A text in which managed blocks are declared in that form only. *)
Definition tidy (content : str) : Prop :=
  ∀ line, In line (readlines content) → announces line → canonical line.

(** A test that every announcing line passes: somewhere in [s] the
    keyword is followed, after its white space, by nothing or by a
    managed id in quotes. *)
Fixpoint may_announce (s : str) : bool :=
  startswith s keyword
  && (let r := lstrip (drop (List.length keyword) s) in
      bool_decide (r = [])
      || existsb (λ d, startswith r (quoted (fst d))) VARIANTS_TO_INSTALL)
  || match s with
     | [] => false
     | _ :: s' => may_announce s'
     end.

(** ** Documents that are written as they are read *)

Definition has_cr (s : string) : bool :=
  existsb (Ascii.eqb "013") (list_ascii_of_string s).

Definition carriage_free (e : element) : bool :=
  negb (has_cr (default "" (text e))) && negb (has_cr (default "" (tail e))).

(** A document in which no tag and no attribute name lies in the
    xkeyboard-config namespace, and no character data holds a carriage
    return. *)
Definition plain (root : element) : bool :=
  negb (uses_default root) && every_node carriage_free root.

(** A host none of whose rules documents uses a name in the
    xkeyboard-config namespace. *)
Definition outside_namespace (w : world) : Prop :=
  ∀ g r, In g XKB_RULES_FILES →
         rules w !! g = Some (WellFormed r) → uses_default r = false.

(** A string without a line end. *)
Definition one_line (s : string) : bool :=
  forallb (λ c, negb (Ascii.eqb c "013") && negb (Ascii.eqb c "010"))
          (list_ascii_of_string s).

(** ** Sample files

    Concrete files on which the statements below are run. *)

Module Sample.

Definition leaf (t x : string) : element := Element t [] (Some x) None [].
Definition node (t : string) (cs : list element) : element :=
  Element t [] None None cs.

Definition layout (name : string) (more : list element) : element :=
  node "layout" (node "configItem" [leaf "name" name] :: more).

Definition variant (name description : string) : element :=
  node "variant"
    [node "configItem" [leaf "name" name; leaf "description" description]].

Definition line (s : string) : str := of_string s ++ [LF].

Definition block (id : string) (key : string) : list str :=
  [ header_text id ++ line " {"; line ("    key " +:+ key); line "};" ].

(** The bundled blob: the two Carbon blocks. *)
Definition blob : str :=
  concat (block "carbon" "<AD01> { [ q, Q ] };"
          ++ [[LF]]
          ++ block "carbon-angle" "<AB01> { [ x, X ] };").

(** A symbols file with one unrelated block. *)
Definition fr_block : list str := block "fr" "<AD01> { [ a, A ] };".
Definition symbols_fr : str := concat fr_block.

(** A symbols file in which a managed header is followed by the [fr]
    block before any closing line. *)
Definition symbols_unclosed : str :=
  concat ([header_text "carbon" ++ line " {"] ++ fr_block).

(** Rules documents: one whose [us] layout has no variant list, one with
    no [us] layout, one whose [us] layout already lists an unrelated
    variant and the [carbon] variant twice. *)
Definition us_plain : element := layout "us" [].
Definition doc_us : element :=
  node "xkbConfigRegistry" [node "layoutList" [layout "fr" []; us_plain]].

Definition doc_no_us : element :=
  node "xkbConfigRegistry" [node "layoutList" [layout "fr" []]].

Definition doc_us_variants : element :=
  node "xkbConfigRegistry"
    [node "layoutList"
       [layout "us"
          [node "variantList"
             [variant "carbon" "stale";
              variant "intl" "English (US, intl.)";
              variant "carbon" "stale again"]]]].

Definition digit (n : nat) : string :=
  String (ascii_of_nat (48 + n mod 10)) EmptyString.

Definition clock (n : nat) : string := "20240101_12000" +:+ digit n.

Definition expat (_ : element) : string :=
  "duplicate attribute: line 3, column 12".

Definition world_of (src sym : option str)
    (docs : list (string * rules_document)) : world :=
  World 0 "/opt/carbon-layout" src sym (list_to_map docs) ∅ clock 0 expat [].

(** Both rules documents present: [evdev.xml] with a plain [us] layout,
    [base.xml] without any. *)
Definition typical_host : world :=
  world_of (Some blob) (Some symbols_fr)
    [(evdev_xml, WellFormed doc_us); (base_xml, WellFormed doc_no_us)].

(** No symbols file; [evdev.xml] carries stale entries. *)
Definition bare_host : world :=
  world_of (Some blob) None [(evdev_xml, WellFormed doc_us_variants)].

(** [evdev.xml] is not XML. *)
Definition broken_host : world :=
  world_of (Some blob) (Some symbols_fr)
    [(evdev_xml, Malformed "syntax error: line 1, column 0");
     (base_xml, WellFormed doc_us)].

Definition unclosed_host : world :=
  world_of (Some blob) (Some symbols_unclosed) [(evdev_xml, WellFormed doc_us)].

(** The typical host reached without root privileges, and without the
    bundled blob. *)
Definition unprivileged_host : world :=
  World 1000 "/opt/carbon-layout" (Some blob) (Some symbols_fr)
        (list_to_map [(evdev_xml, WellFormed doc_us)]) ∅ clock 0 expat [].

Definition blobless_host : world :=
  world_of None (Some symbols_fr) [(evdev_xml, WellFormed doc_us)].

(** [evdev.xml] with an element in the xkeyboard-config namespace, here
    written with a prefix, beside the [us] layout; and with a carriage
    return in a description. *)
Definition doc_us_prefixed : element :=
  node "xkbConfigRegistry"
    [node "layoutList" [us_plain];
     node (clark XKB_NAMESPACE +:+ "extension") []].

Definition prefixed_host : world :=
  world_of (Some blob) (Some symbols_fr)
    [(evdev_xml, WellFormed doc_us_prefixed)].

Definition cr : string := String "013" EmptyString.

(** A blob whose [carbon] block is declared after its flags, on one
    line. *)
Definition inline_blob : str :=
  concat [ of_string "partial alphanumeric_keys " ++ header_text "carbon"
             ++ line " {";
           line "    key <AD01> { [ q, Q ] };";
           line "};" ].

Definition inline_host : world :=
  world_of (Some inline_blob) (Some symbols_fr)
    [(evdev_xml, WellFormed doc_us)].

Definition doc_us_cr : element :=
  node "xkbConfigRegistry"
    [node "layoutList"
       [us_plain; layout "fr" [leaf "description" ("French" +:+ cr +:+ "(AZERTY)")]]].

Definition cr_host : world :=
  world_of (Some blob) (Some symbols_fr) [(evdev_xml, WellFormed doc_us_cr)].

(** [evdev.xml] with a [us] layout that lists one unrelated variant. *)
Definition doc_us_intl : element :=
  node "xkbConfigRegistry"
    [node "layoutList"
       [layout "fr" [];
        layout "us" [node "variantList" [variant "intl" "English (US, intl.)"]]]].

Definition intl_host : world :=
  world_of (Some blob) (Some symbols_fr) [(evdev_xml, WellFormed doc_us_intl)].

End Sample.

(** ** Lines as a file holds them *)

(** A list of lines that is the split of some text: every line ends with
    its only LF, except that the last line may have none. *)
Inductive well_split : list str → Prop :=
  | well_split_nil : well_split []
  | well_split_last l :
      l ≠ [] → Forall (λ c, c ≠ LF) l → well_split [l]
  | well_split_cons body ls :
      Forall (λ c, c ≠ LF) body → well_split ls →
      well_split ((body ++ [LF]) :: ls).

Definition no_cr (s : str) : Prop := Forall (λ c, c ≠ CR) s.

(** ** What a patch may change in a layout *)

(** The children of a variant list that the tool does not manage. *)
Definition unmanaged_children (vl : element) : list element :=
  List.filter (λ c, negb (is_managed_variant c)) (children vl).

(** Same element, children apart. *)
Definition same_node (e e' : element) : Prop :=
  tag e' = tag e ∧ attrib e' = attrib e ∧ text e' = text e ∧ tail e' = tail e.

(** [layout'] is [layout_node] with nothing changed but its variant
    list: the list is edited in its place, or a new list is added as the
    last child, or nothing happens; the children of the list that the
    tool does not manage are kept, in their order. *)
Inductive edits_variant_list (layout_node layout' : element) : Prop :=
  | edits_in_place i vl vl' :
      children layout_node !! i = Some vl →
      layout' = set_children (<[i := vl']> (children layout_node)) layout_node →
      same_node vl vl' →
      unmanaged_children vl' = unmanaged_children vl →
      edits_variant_list layout_node layout'
  | edits_by_adding vl' :
      layout' = set_children (children layout_node ++ [vl']) layout_node →
      unmanaged_children vl' = [] →
      edits_variant_list layout_node layout'
  | edits_nothing :
      layout' = layout_node →
      edits_variant_list layout_node layout'.

(** ** The backup discipline

    A run's file operations are audited in order against a ledger: the
    files copied to a backup so far, the files written so far, and the
    file whose backup is the latest file operation. *)

Record ledger : Type := Ledger {
  copied : list string;
  written : list string;
  pending : option string
}.

Definition empty_ledger : ledger := Ledger [] [] None.

Definition listed (p : string) (l : list string) : bool :=
  existsb (String.eqb p) l.

(** [s] begins with [p]. *)
Fixpoint begins_with (p s : string) : bool :=
  match p, s with
  | EmptyString, _ => true
  | String a p', String b s' => Ascii.eqb a b && begins_with p' s'
  | String _ _, EmptyString => false
  end.

(** One event against the ledger.  A copy must be the only backup of a
    file that existed when the run began and that has not been written,
    and must go to [<original>.bak_<timestamp>].  A write to a file that
    existed when the run began must be preceded by its backup with only
    printing in between, unless the file has been written before. *)
Definition ledger_step (existing : list string) (s : ledger) (ev : event)
  : option ledger :=
  match ev with
  | Print _ => Some s
  | Copy src dst =>
      if listed src existing && negb (listed src (copied s))
         && negb (listed src (written s))
         && begins_with (src +:+ ".bak_") dst
      then Some (Ledger (src :: copied s) (written s) (Some src))
      else None
  | Append p | Write p =>
      if negb (listed p existing) || listed p (written s)
         || bool_decide (pending s = Some p)
      then Some (Ledger (copied s) (p :: written s) None)
      else None
  end.

Fixpoint audit (existing : list string) (s : ledger) (evs : list event)
  : option ledger :=
  match evs with
  | [] => Some s
  | ev :: evs' =>
      match ledger_step existing s ev with
      | Some s' => audit existing s' evs'
      | None => None
      end
  end.





(** [m] leaves [field] of the world as it was. *)
Definition keeps {A B} (field : world → B) (m : M A) : Prop :=
  ∀ w, field (snd (m w)) = field w.

(** * Properties *)

(** ** Checks on concrete inputs *)

Example strip_example :
  strip (of_string "  " ++ [9%N] ++ of_string "};  " ++ [CR; LF])
  = of_string "};"
  ∧ strip ([160%N; 8195%N] ++ of_string "x y" ++ [12288%N]) = of_string "x y".
Proof. split; reflexivity. Qed.

Example readlines_example :
  readlines (of_string "a" ++ [CR; LF] ++ of_string "b" ++ [CR]
             ++ of_string "c" ++ [LF; LF] ++ of_string "d")
  = [of_string "a" ++ [LF]; of_string "b" ++ [LF]; of_string "c" ++ [LF];
     [LF]; of_string "d"].
Proof. reflexivity. Qed.

Example is_header_example :
  is_header (of_string "  " ++ header_text "carbon-angle" ++ Sample.line " {")
  = true
  ∧ is_header (header_text "carbon" ++ Sample.line "{") = true
  ∧ is_header (header_text "carbonate" ++ Sample.line " {") = false
  ∧ is_header (of_string "partial " ++ header_text "carbon" ++ Sample.line " {")
    = false
  ∧ is_closer (Sample.line "  }; // end") = true
  ∧ is_closer (Sample.line "    key <AD01> { [ q, Q ] };") = false.
Proof. repeat split; reflexivity. Qed.

Example os_path_join_example :
  os_path_join "/opt/carbon" "carbon-as-variant" = "/opt/carbon/carbon-as-variant"
  ∧ os_path_join "/opt/carbon/" "us" = "/opt/carbon/us"
  ∧ os_path_join "" "us" = "us"
  ∧ os_path_join "/opt" "/usr/us" = "/usr/us"
  ∧ symbols_path = "/usr/share/X11/xkb/symbols/us".
Proof. repeat split; reflexivity. Qed.

Example scan_example :
  scan false (readlines (Sample.symbols_fr ++ [LF; LF] ++ Sample.blob))
  = Sample.fr_block ++ [[LF]; [LF]; [LF]].
Proof. vm_compute. reflexivity. Qed.

Example locate_example :
  locate_base_layout Sample.doc_us = Some ([0; 1], Sample.us_plain)
  ∧ locate_base_layout Sample.doc_no_us = None
  ∧ (fst <$> locate_base_layout Sample.doc_us_variants) = Some [0; 0].
Proof. repeat split; reflexivity. Qed.

Example reconcile_example :
  let stale :=
    Sample.node "variantList"
      [Sample.variant "carbon" "stale";
       Sample.variant "intl" "English (US, intl.)";
       Sample.variant "carbon" "stale again"] in
  children (reconciled_all ActInstall stale)
  = [Sample.variant "intl" "English (US, intl.)";
     new_variant "carbon" "English (Carbon)";
     new_variant "carbon-angle" "English (Carbon, Angle Mod)"]
  ∧ children (reconciled_all ActRemove stale)
    = [Sample.variant "intl" "English (US, intl.)"]
  ∧ reconcile_all_messages ActRemove VARIANTS_TO_INSTALL stale
    = ["  - Removed variant 'carbon'."; "  - Removed variant 'carbon'."].
Proof. repeat split; reflexivity. Qed.

Example install_then_remove_example :
  symbols (after install Sample.typical_host)
  = Some (Sample.symbols_fr ++ [LF; LF] ++ Sample.blob)
  ∧ symbols (after remove (after install Sample.typical_host))
    = Some (Sample.symbols_fr ++ [LF; LF; LF])
  ∧ exit_status install Sample.typical_host = 0
  ∧ exit_status install Sample.broken_host = 1.
Proof. repeat split; vm_compute; reflexivity. Qed.

(** ** Running computations *)

Section Keeps.
Context {B : Type} (field : world → B).

Lemma keeps_ret {A} (a : A) : keeps field (ret a).
Proof. intros w. reflexivity. Qed.

Lemma keeps_sys_exit {A} c : keeps field (@sys_exit A c).
Proof. intros w. reflexivity. Qed.

Lemma keeps_bind {A C} (m : M A) (k : A → M C) :
  keeps field m → (∀ a, keeps field (k a)) → keeps field (bind m k).
Proof.
  intros Hm Hk w. unfold bind. specialize (Hm w).
  destruct (m w) as [[a|c] w']; simpl in *; [|exact Hm].
  rewrite Hk. exact Hm.
Qed.

Lemma keeps_for_each {A} (body : A → M unit) l :
  (∀ x, keeps field (body x)) → keeps field (for_each body l).
Proof.
  intros Hb. induction l as [|x l IH]; simpl.
  - apply keeps_ret.
  - apply keeps_bind; auto.
Qed.

Lemma keeps_fold_each {A S} (body : S → A → M S) l s :
  (∀ s x, keeps field (body s x)) → keeps field (fold_each body l s).
Proof.
  intros Hb. revert s. induction l as [|x l IH]; intros s; simpl.
  - apply keeps_ret.
  - apply keeps_bind; auto.
Qed.
End Keeps.

Ltac keeps_prim :=
  let w := fresh "w" in
  intros w;
  cbv [path_exists now_strftime copy2 print emit ET_parse tree_write
       open_read append_symbols rewrite_symbols];
  repeat case_match; reflexivity.

Ltac keeps_step :=
  lazymatch goal with
  | |- keeps _ (bind _ _) => apply keeps_bind; [|intros ?]
  | |- keeps _ (ret _) => apply keeps_ret
  | |- keeps _ (sys_exit _) => apply keeps_sys_exit
  | |- keeps _ (for_each _ _) => apply keeps_for_each; intros ?
  | |- keeps _ (fold_each _ _ _) => apply keeps_fold_each; intros ? ?
  | |- keeps _ (if ?b then _ else _) => destruct b
  | |- keeps _ (match ?x with _ => _ end) => destruct x
  | |- keeps _ _ => keeps_prim
  end.

Ltac keeps_auto :=
  unfold modify_xkb_rules, modify_rules_file, backup_file, patch_layout,
    reconcile, unexpected_error;
  repeat keeps_step.

Lemma modify_xkb_rules_keeps_symbols act : keeps symbols (modify_xkb_rules act).
Proof. keeps_auto. Qed.

Lemma modify_xkb_rules_keeps_source act : keeps source (modify_xkb_rules act).
Proof. keeps_auto. Qed.

Lemma modify_xkb_rules_keeps_script_dir act :
  keeps script_dir (modify_xkb_rules act).
Proof. keeps_auto. Qed.

Lemma install_keeps_source : keeps source install.
Proof. unfold install. keeps_auto. Qed.

Lemma install_keeps_script_dir : keeps script_dir install.
Proof. unfold install. keeps_auto. Qed.

Lemma log_nil w : log [] w = w.
Proof. destruct w. unfold log, set_trace. simpl. by rewrite app_nil_r. Qed.

Lemma log_log a b w : log a (log b w) = log (b ++ a) w.
Proof. unfold log, set_trace. simpl. by rewrite app_assoc. Qed.

Lemma bind_returned {A B} (m : M A) (k : A → M B) w a w' :
  m w = (Returned a, w') → bind m k w = k a w'.
Proof. intros H. unfold bind. by rewrite H. Qed.

Lemma bind_exited {A B} (m : M A) (k : A → M B) w c w' :
  m w = (Exited c, w') → bind m k w = (Exited c, w').
Proof. intros H. unfold bind. by rewrite H. Qed.

Lemma for_each_print {A} (msg : string) (l : list A) w :
  for_each (λ _, print msg) l w
  = (Returned tt, log (List.map (λ _, Print msg) l) w).
Proof.
  revert w. induction l as [|x l IH]; intros w; simpl.
  - by rewrite log_nil.
  - unfold bind. simpl. rewrite IH, log_log. reflexivity.
Qed.

Lemma backup_file_run f w : backup_file f w = (Returned tt, backup_effect f w).
Proof.
  unfold backup_file, backup_effect, bind, path_exists.
  destruct (lookup_file w f) as [c|] eqn:Hf; simpl; [|reflexivity].
  unfold copy2. simpl.
  change (lookup_file (set_ticks (S (ticks w)) w) f) with (lookup_file w f).
  rewrite Hf. unfold print, emit, backed_up, backup_path_at.
  by rewrite log_log.
Qed.

Lemma reconcile_run act vl d w :
  reconcile act (Some vl) d w
  = (Returned (Some (reconciled act vl d)),
     log (List.map Print (reconcile_messages act vl d)) w).
Proof.
  destruct act; unfold reconcile, reconciled, reconcile_messages; simpl.
  - reflexivity.
  - unfold bind. rewrite for_each_print. simpl.
    by rewrite List.map_map.
Qed.

Lemma fold_each_reconcile act ds vl w :
  fold_each (reconcile act) ds (Some vl) w
  = (Returned (Some (fold_left (reconciled act) ds vl)),
     log (List.map Print (reconcile_all_messages act ds vl)) w).
Proof.
  revert vl w. induction ds as [|d ds IH]; intros vl w; simpl.
  - by rewrite log_nil.
  - erewrite bind_returned by apply reconcile_run.
    rewrite IH, log_log, List.map_app. reflexivity.
Qed.

Lemma fold_each_reconcile_none ds w :
  fold_each (reconcile ActRemove) ds None w = (Returned None, w).
Proof.
  induction ds as [|d ds IH]; simpl; [reflexivity|].
  unfold bind. simpl. exact IH.
Qed.

Lemma find_find_pos t e :
  find t e = find_pos t (children e) ≫= λ i, children e !! i.
Proof.
  unfold find, findall. induction (children e) as [|c cs IH]; simpl; [done|].
  destruct (has_tag t c); simpl; [done|].
  rewrite IH. by destruct (find_pos t cs).
Qed.

Lemma find_pos_nth t cs i :
  find_pos t cs = Some i → ∃ c, cs !! i = Some c ∧ has_tag t c = true.
Proof.
  revert i. induction cs as [|c cs IH]; intros i; simpl; [done|].
  destruct (has_tag t c) eqn:Ht.
  - intros [= <-]. eauto.
  - destruct (find_pos t cs) as [j|]; simpl; [|done].
    intros [= <-]. simpl. eauto.
Qed.

Lemma patch_layout_run act layout_node w :
  patch_layout act layout_node w
  = (Returned (patched_layout act layout_node),
     log (List.map Print (patch_messages act layout_node)) w).
Proof.
  unfold patch_layout, patched_layout, patch_messages, reconciled_all.
  rewrite find_find_pos.
  generalize VARIANTS_TO_INSTALL as ds. intros ds.
  destruct (find_pos "variantList" (children layout_node)) as [i|] eqn:Hpos.
  - destruct (find_pos_nth _ _ _ Hpos) as (vl & Hvl & _).
    destruct act; simpl; rewrite Hvl;
      (erewrite bind_returned by apply fold_each_reconcile); reflexivity.
  - destruct act; simpl.
    + rewrite lookup_app_r by lia. rewrite Nat.sub_diag. simpl.
      erewrite bind_returned by apply fold_each_reconcile.
      unfold ret. f_equal. f_equal. unfold SubElement, set_children. simpl.
      f_equal. rewrite insert_app_r_alt by lia. rewrite Nat.sub_diag.
      reflexivity.
    + erewrite bind_returned by apply fold_each_reconcile_none.
      by rewrite log_nil.
Qed.

(** ** Paths *)

Lemma final_char_app pre b x :
  final_char b = Some x → final_char (pre +:+ b) = Some x.
Proof. intros Hb. induction pre as [|c pre IH]; simpl; [done|]. by rewrite IH. Qed.

Lemma final_char_join a b x :
  final_char b = Some x → final_char (os_path_join a b) = Some x.
Proof.
  intros Hb. unfold os_path_join.
  destruct (String.prefix "/" b); [done|].
  destruct (String.eqb a "" || ends_with_slash a).
  - by apply final_char_app.
  - apply final_char_app. by apply (final_char_app "/").
Qed.

Lemma source_path_final w : final_char (source_path w) = Some "t"%char.
Proof. unfold source_path. by apply final_char_join. Qed.

Lemma source_path_not_symbols w : source_path w ≠ symbols_path.
Proof.
  intros H. pose proof (source_path_final w) as Hf. rewrite H in Hf.
  vm_compute in Hf. discriminate.
Qed.

Lemma rules_files_are_rules_paths w f :
  In f XKB_RULES_FILES → is_rules_path w f.
Proof.
  intros Hin. split.
  - intros ->. vm_compute in Hin. intuition discriminate.
  - intros ->. pose proof (source_path_final w) as Hf.
    destruct Hin as [H|[H|[]]]; rewrite <- H in Hf; vm_compute in Hf;
      discriminate.
Qed.

Lemma lookup_file_symbols w :
  lookup_file w symbols_path = TextContent <$> symbols w.
Proof. unfold lookup_file. by rewrite String.eqb_refl. Qed.

Lemma lookup_file_source w :
  lookup_file w (source_path w) = TextContent <$> source w.
Proof.
  unfold lookup_file.
  destruct (String.eqb_spec (source_path w) symbols_path) as [H|_].
  - by apply source_path_not_symbols in H.
  - by rewrite String.eqb_refl.
Qed.

Lemma lookup_file_rules w f :
  is_rules_path w f → lookup_file w f = XmlContent <$> rules w !! f.
Proof.
  intros [H1 H2]. unfold lookup_file.
  destruct (String.eqb_spec f symbols_path); [done|].
  destruct (String.eqb_spec f (source_path w)); done.
Qed.

(** ** The rules pass, file by file *)

Lemma modify_rules_file_run act f w :
  is_rules_path w f →
  modify_rules_file act f w = rules_file_effect act f w.
Proof.
  intros Hf. pose proof (lookup_file_rules w f Hf) as Hl.
  unfold modify_rules_file, rules_file_effect.
  unfold bind at 1. unfold path_exists. rewrite Hl.
  destruct (rules w !! f) as [d|] eqn:Hd; simpl; [|reflexivity].
  unfold bind at 1. unfold print at 1, emit.
  unfold bind at 1. rewrite backup_file_run.
  unfold backup_effect.
  change (lookup_file (log [Print (NL +:+ "Processing: " +:+ f)] w) f)
    with (lookup_file w f).
  rewrite Hl. cbn [fmap option_fmap option_map].
  unfold bind at 1. unfold ET_parse.
  change (rules (backed_up f (XmlContent d)
                   (log [Print (NL +:+ "Processing: " +:+ f)] w)))
    with (rules w).
  rewrite Hd. cbv iota beta.
  destruct d as [e|root]; [reflexivity|].
  destruct (locate_base_layout root) as [[p layout_node]|]; [|reflexivity].
  erewrite bind_returned by apply patch_layout_run.
  reflexivity.
Qed.

Lemma modify_xkb_rules_run act w : modify_xkb_rules act w = rules_pass act w.
Proof.
  unfold modify_xkb_rules, rules_pass.
  assert (H : Forall (λ f, In f XKB_RULES_FILES) XKB_RULES_FILES)
    by (apply List.Forall_forall; intros; assumption).
  revert w H. generalize XKB_RULES_FILES at 2 3 4 as fs.
  induction fs as [|f fs IH]; intros w H; simpl; [reflexivity|].
  inversion H as [|? ? Hf Hfs]; subst.
  unfold bind. rewrite modify_rules_file_run
    by (by apply rules_files_are_rules_paths).
  destruct (rules_file_effect act f w) as [[[]|c] w']; [|reflexivity].
  by apply IH.
Qed.

(** ** The two operations, by their effects *)

Ltac run_step := erewrite bind_returned by reflexivity; cbv beta.

Lemma backup_effect_symbols f w : symbols (backup_effect f w) = symbols w.
Proof. unfold backup_effect. by destruct (lookup_file w f). Qed.

Lemma backup_effect_source f w : source (backup_effect f w) = source w.
Proof. unfold backup_effect. by destruct (lookup_file w f). Qed.

Lemma backup_effect_rules f w : rules (backup_effect f w) = rules w.
Proof. unfold backup_effect. by destruct (lookup_file w f). Qed.

Lemma lookup_file_backup_effect f w p :
  lookup_file (backup_effect f w) p = lookup_file w p.
Proof. unfold backup_effect. by destruct (lookup_file w f). Qed.

Lemma install_run w :
  install w =
  match source w with
  | Some blob =>
      finish install_closing
             (rules_pass ActInstall (install_symbols_effect blob w))
  | None =>
      (Exited 1,
       log [Print "--- Starting Carbon Layout Installation ---";
            Print ("Error: Symbol file '" +:+ source_path w +:+ "' not found.")]
           w)
  end.
Proof.
  unfold install. do 3 run_step.
  set (w0 := log _ w).
  change (source_path w0) with (source_path w).
  replace (lookup_file w0 (source_path w)) with (TextContent <$> source w)
    by (symmetry; apply (lookup_file_source w)).
  destruct (source w) as [blob|] eqn:Hs;
    [rewrite bool_decide_eq_true_2 by (by eexists)
    |rewrite bool_decide_eq_false_2 by (by intros [? ?])];
    cbn [negb].
  - erewrite bind_returned by apply backup_file_run.
    run_step.
    set (w1 := log _ (backup_effect _ w0)).
    assert (Hsrc : open_read (source_path w) w1 = (Returned (Some blob), w1)).
    { unfold open_read.
      change (lookup_file w1 (source_path w))
        with (lookup_file (backup_effect symbols_path w0) (source_path w)).
      rewrite lookup_file_backup_effect.
      change (lookup_file w0 (source_path w))
        with (lookup_file w (source_path w)).
      by rewrite lookup_file_source, Hs. }
    erewrite bind_returned by apply Hsrc.
    cbv beta iota. do 2 run_step. unfold bind at 1. rewrite modify_xkb_rules_run.
    unfold install_symbols_effect. fold w0. fold w1.
    replace (symbols w1) with (symbols w)
      by (unfold w1; simpl; by rewrite backup_effect_symbols).
    destruct (rules_pass ActInstall _) as [[[]|c] w2]; [|reflexivity].
    unfold finish, install_closing. do 1 run_step.
    unfold print, emit. simpl. by rewrite log_log.
  - run_step. unfold sys_exit, w0. by rewrite log_log.
Qed.

Lemma remove_run w :
  remove w = finish remove_closing
                    (rules_pass ActRemove (remove_symbols_effect w)).
Proof.
  unfold remove. do 2 run_step.
  unfold remove_symbols_effect. set (w0 := log _ w).
  rewrite lookup_file_symbols. change (symbols w0) with (symbols w).
  destruct (symbols w) as [content|] eqn:Hs;
    [rewrite bool_decide_eq_true_2 by (by eexists)
    |rewrite bool_decide_eq_false_2 by (by intros [? ?])].
  - erewrite bind_returned; cycle 1.
    { erewrite bind_returned by apply backup_file_run.
      unfold backup_effect. rewrite lookup_file_symbols.
      change (symbols w0) with (symbols w). rewrite Hs.
      cbn [fmap option_fmap option_map].
      run_step.
      set (w1 := log _ (backed_up _ _ w0)).
      assert (Hrd : open_read symbols_path w1 = (Returned (Some content), w1)).
      { unfold open_read. rewrite lookup_file_symbols.
        change (symbols w1) with (symbols w). by rewrite Hs. }
      erewrite bind_returned by apply Hrd.
      cbv beta iota. run_step. reflexivity. }
    cbv beta. unfold bind at 1. rewrite modify_xkb_rules_run.
    destruct (rules_pass ActRemove _) as [[[]|c] w2]; [|reflexivity].
    unfold finish, remove_closing. run_step.
    unfold print, emit. simpl. by rewrite log_log.
  - run_step. unfold bind at 1. rewrite modify_xkb_rules_run.
    destruct (rules_pass ActRemove _) as [[[]|c] w2]; [|reflexivity].
    unfold finish, remove_closing. run_step.
    unfold print, emit. simpl. by rewrite log_log.
Qed.

Lemma rules_pass_keeps {B} (field : world → B) act :
  keeps field (modify_xkb_rules act) → keeps field (rules_pass act).
Proof. intros H w. rewrite <- modify_xkb_rules_run. apply H. Qed.

Lemma finish_keeps {B} (field : world → B) lines r :
  (∀ evs w, field (log evs w) = field w) →
  field (snd (finish lines r)) = field (snd r).
Proof. intros H. destruct r as [[[]|c] w]; simpl; [apply H | reflexivity]. Qed.

Lemma remove_symbols w :
  symbols (after remove w) = symbols (remove_symbols_effect w).
Proof.
  unfold after. rewrite remove_run, finish_keeps by reflexivity.
  apply rules_pass_keeps, modify_xkb_rules_keeps_symbols.
Qed.

Lemma install_symbols w blob :
  source w = Some blob →
  symbols (after install w)
  = Some (default [] (symbols w) ++ [LF; LF] ++ read blob).
Proof.
  intros Hs. unfold after. rewrite install_run, Hs.
  rewrite finish_keeps by reflexivity.
  rewrite rules_pass_keeps by apply modify_xkb_rules_keeps_symbols.
  reflexivity.
Qed.

(** ** The block scanner *)

Lemma startswith_head s p a :
  startswith s (a :: p) = true → ∃ s', s = a :: s'.
Proof.
  destruct s as [|b s']; simpl; [done|].
  intros H. apply andb_true_iff in H as [H _].
  apply N.eqb_eq in H. subst. eauto.
Qed.

Lemma header_is_not_closer line : is_header line = true → is_closer line = false.
Proof.
  unfold is_header, is_closer. intros H.
  apply orb_true_iff in H as [H|H];
    apply startswith_head in H as [s' ->]; reflexivity.
Qed.

Lemma scan_remove_blocks lines skip :
  scan skip lines = remove_blocks is_closer (state_of skip) lines.
Proof.
  revert skip. induction lines as [|line rest IH]; intros skip; [done|].
  simpl. destruct (is_header line) eqn:Hh.
  - rewrite (header_is_not_closer _ Hh). simpl.
    rewrite (IH true). destruct skip; simpl; rewrite ?Hh; reflexivity.
  - destruct skip; simpl; rewrite ?Hh.
    + destruct (is_closer line); [apply (IH false) | apply (IH true)].
    + by rewrite (IH false).
Qed.

(** C2, as the document words it, fails: inside a managed block the
    script ends the block at a line that merely starts with the closing
    marker, where a scanner waiting for a line equal to the marker keeps
    dropping.  Header, a closing line with a trailing comment, one more
    line: the script keeps the last line, the worded scanner drops it. *)
Lemma remove_scanner_counterexample :
  let lines :=
    [ header_text "carbon" ++ of_string " {" ++ [LF];
      of_string "}; // carbon" ++ [LF];
      of_string "// kept" ++ [LF] ] in
  scan false lines = [of_string "// kept" ++ [LF]]
  ∧ remove_blocks closes_exactly Outside lines = [].
Proof. split; vm_compute; reflexivity. Qed.

Lemma is_header_managed_ids line :
  is_header line
  = existsb (λ d, startswith (strip line) (header_text (fst d)))
            VARIANTS_TO_INSTALL.
Proof. unfold is_header. simpl. by rewrite orb_false_r. Qed.

(** C2, amended: for every line sequence the loop of [remove] is the
    two-state scanner that drops a managed header line (a line whose
    trimmed content starts with [xkb_symbols "<id>"] for a descriptor
    id), drops every line after it up to and including the first line
    whose trimmed content starts with the closing marker, and keeps all
    other lines in order; and the result is written as the whole content
    of the symbols file when that file exists. *)
Theorem remove_scanner_amended (lines : list str) (w : world) :
  scan false lines = remove_blocks is_closer Outside lines
  ∧ (∀ line, is_header line
             = existsb (λ d, startswith (strip line) (header_text (fst d)))
                       VARIANTS_TO_INSTALL)
  ∧ symbols (after remove w)
    = (λ content,
         writelines (remove_blocks is_closer Outside (readlines content)))
      <$> symbols w.
Proof.
  split; [apply (scan_remove_blocks lines false)|].
  split; [apply is_header_managed_ids|].
  rewrite remove_symbols. unfold remove_symbols_effect.
  destruct (symbols w) as [content|] eqn:Hs; simpl; [|exact Hs].
  by rewrite (scan_remove_blocks _ false).
Qed.

(** ** The rules pass: outcome *)

Lemma rules_pass_unfold act w :
  rules_pass act w
  = match rules_file_effect act evdev_xml w with
    | (Returned _, w1) =>
        match rules_file_effect act base_xml w1 with
        | (Returned _, w2) => (Returned tt, w2)
        | (Exited c, w2) => (Exited c, w2)
        end
    | (Exited c, w1) => (Exited c, w1)
    end.
Proof.
  unfold rules_pass.
  change XKB_RULES_FILES with [evdev_xml; base_xml].
  cbn [for_each]. unfold bind.
  destruct (rules_file_effect act evdev_xml w) as [[[]|c] w1]; [|done].
  destruct (rules_file_effect act base_xml w1) as [[[]|c] w2]; done.
Qed.

Lemma rules_file_effect_outcome act f w :
  fst (rules_file_effect act f w)
  = if is_malformed (rules w !! f) then Exited 1 else Returned tt.
Proof.
  unfold rules_file_effect.
  destruct (rules w !! f) as [[e|root]|]; try reflexivity.
  by destruct (locate_base_layout root) as [[p l]|].
Qed.

Lemma rules_file_effect_rules act f w :
  rules (snd (rules_file_effect act f w))
  = match file_after act (parse_error w) (rules w !! f) with
    | Some d => <[f := d]> (rules w)
    | None => rules w
    end.
Proof.
  unfold rules_file_effect.
  destruct (rules w !! f) as [[e|root]|] eqn:Hd; simpl;
    [symmetry; by apply insert_id | | reflexivity].
  destruct (locate_base_layout root) as [[p l]|]; simpl;
    [reflexivity | symmetry; by apply insert_id].
Qed.

Lemma rules_file_effect_lookup_same act f w :
  rules (snd (rules_file_effect act f w)) !! f
  = file_after act (parse_error w) (rules w !! f).
Proof.
  rewrite rules_file_effect_rules.
  destruct (file_after act (parse_error w) (rules w !! f)) as [d|] eqn:Hd.
  - by rewrite lookup_insert_eq.
  - destruct (rules w !! f) as [[e|root]|]; simpl in Hd; try done.
    by destruct (locate_base_layout root) as [[p l]|].
Qed.

Lemma rules_file_effect_lookup_other act f g w :
  f ≠ g → rules (snd (rules_file_effect act f w)) !! g = rules w !! g.
Proof.
  intros Hne. rewrite rules_file_effect_rules.
  destruct (file_after act (parse_error w) (rules w !! f)); [|done].
  by rewrite lookup_insert_ne.
Qed.

Lemma rules_file_effect_trace act f w :
  trace (snd (rules_file_effect act f w))
  = trace w ++ file_events act f (rules w !! f) (backup_path_at f w).
Proof.
  unfold rules_file_effect, file_events.
  destruct (rules w !! f) as [[e|root]|]; simpl; try reflexivity.
  - by rewrite <- !app_assoc.
  - destruct (locate_base_layout root) as [[p l]|]; simpl;
      by rewrite <- !app_assoc.
Qed.

Lemma rules_file_effect_ticks act f w :
  ticks (snd (rules_file_effect act f w))
  = match rules w !! f with Some _ => S (ticks w) | None => ticks w end.
Proof.
  unfold rules_file_effect.
  destruct (rules w !! f) as [[e|root]|]; simpl; try reflexivity.
  by destruct (locate_base_layout root) as [[p l]|].
Qed.

Lemma rules_file_effect_clock act f : keeps clock (rules_file_effect act f).
Proof.
  intros w. unfold rules_file_effect.
  destruct (rules w !! f) as [[e|root]|]; simpl; try reflexivity.
  by destruct (locate_base_layout root) as [[p l]|].
Qed.

Lemma rules_file_effect_parse_error act f :
  keeps parse_error (rules_file_effect act f).
Proof.
  intros w. unfold rules_file_effect.
  destruct (rules w !! f) as [[e|root]|]; simpl; try reflexivity.
  by destruct (locate_base_layout root) as [[p l]|].
Qed.

Lemma rules_pass_trace act w :
  trace (snd (rules_pass act w)) = trace w ++ pass_events act w.
Proof.
  rewrite rules_pass_unfold. unfold pass_events.
  pose proof (rules_file_effect_outcome act evdev_xml w) as Ho.
  pose proof (rules_file_effect_trace act evdev_xml w) as Ht.
  pose proof (rules_file_effect_ticks act evdev_xml w) as Hk.
  pose proof (rules_file_effect_clock act evdev_xml w) as Hc.
  pose proof (rules_file_effect_lookup_other act evdev_xml base_xml w) as Hr.
  destruct (rules_file_effect act evdev_xml w) as [o1 w1]. simpl in *.
  destruct (is_malformed (rules w !! evdev_xml)); subst o1.
  - simpl. by rewrite app_nil_r.
  - pose proof (rules_file_effect_trace act base_xml w1) as Ht2.
    destruct (rules_file_effect act base_xml w1) as [[[]|c] w2]; simpl in *;
      rewrite Ht2, Ht, Hr by done; unfold backup_path_at;
      rewrite Hk, Hc, app_assoc; reflexivity.
Qed.

Lemma rules_pass_outcome act w :
  fst (rules_pass act w) = if pass_exits w then Exited 1 else Returned tt.
Proof.
  rewrite rules_pass_unfold. unfold pass_exits.
  pose proof (rules_file_effect_outcome act evdev_xml w) as Ho.
  pose proof (rules_file_effect_lookup_other act evdev_xml base_xml w) as Hr.
  destruct (rules_file_effect act evdev_xml w) as [o1 w1]. simpl in *.
  destruct (is_malformed (rules w !! evdev_xml)); subst o1; [done|].
  pose proof (rules_file_effect_outcome act base_xml w1) as Ho2.
  rewrite Hr in Ho2 by done.
  destruct (rules_file_effect act base_xml w1) as [o2 w2]. simpl in *.
  by destruct (is_malformed (rules w !! base_xml)); subst o2.
Qed.

Lemma rules_pass_lookup act w f :
  pass_exits w = false → In f XKB_RULES_FILES →
  rules (snd (rules_pass act w)) !! f
  = file_after act (parse_error w) (rules w !! f).
Proof.
  intros Hex Hf. rewrite rules_pass_unfold.
  apply orb_false_iff in Hex as [Hm1 Hm2].
  pose proof (rules_file_effect_outcome act evdev_xml w) as Ho.
  pose proof (rules_file_effect_lookup_other act evdev_xml base_xml w) as Hr.
  pose proof (rules_file_effect_lookup_same act evdev_xml w) as Hs.
  pose proof (rules_file_effect_parse_error act evdev_xml w) as Hpe.
  rewrite Hm1 in Ho.
  destruct (rules_file_effect act evdev_xml w) as [o1 w1]. simpl in *.
  subst o1.
  pose proof (rules_file_effect_outcome act base_xml w1) as Ho2.
  pose proof (rules_file_effect_lookup_other act base_xml evdev_xml w1) as Hr2.
  pose proof (rules_file_effect_lookup_same act base_xml w1) as Hs2.
  rewrite Hr, Hm2 in Ho2 by done.
  destruct (rules_file_effect act base_xml w1) as [o2 w2]. simpl in *.
  subst o2. simpl. unfold evdev_xml, base_xml in *.
  destruct Hf as [<-|[<-|[]]].
  - rewrite Hr2 by done. exact Hs.
  - rewrite Hs2, Hpe. by rewrite Hr.
Qed.

Lemma rules_pass_lookup_outside act w g :
  ¬ In g XKB_RULES_FILES →
  rules (snd (rules_pass act w)) !! g = rules w !! g.
Proof.
  intros Hg. rewrite rules_pass_unfold.
  assert (evdev_xml ≠ g ∧ base_xml ≠ g) as [H1 H2].
  { split; intros <-; apply Hg; unfold evdev_xml, base_xml; simpl; auto. }
  pose proof (rules_file_effect_lookup_other act evdev_xml g w H1) as Hr.
  destruct (rules_file_effect act evdev_xml w) as [[[]|c] w1]; simpl in *;
    [|done].
  pose proof (rules_file_effect_lookup_other act base_xml g w1 H2) as Hr2.
  destruct (rules_file_effect act base_xml w1) as [[[]|c] w2]; simpl in *;
    congruence.
Qed.

(** ** The two operations: outcome, documents and events *)

Lemma install_symbols_effect_rules blob w :
  rules (install_symbols_effect blob w) = rules w.
Proof.
  unfold install_symbols_effect. simpl. by rewrite backup_effect_rules.
Qed.

Lemma remove_symbols_effect_rules w : rules (remove_symbols_effect w) = rules w.
Proof. unfold remove_symbols_effect. by destruct (symbols w). Qed.

Lemma install_symbols_effect_parse_error blob w :
  parse_error (install_symbols_effect blob w) = parse_error w.
Proof.
  unfold install_symbols_effect, backup_effect. simpl.
  by destruct (lookup_file _ _).
Qed.

Lemma remove_symbols_effect_parse_error w :
  parse_error (remove_symbols_effect w) = parse_error w.
Proof. unfold remove_symbols_effect. by destruct (symbols w). Qed.

Lemma install_symbols_effect_trace blob w :
  trace (install_symbols_effect blob w) = trace w ++ install_symbols_events w.
Proof.
  unfold install_symbols_effect, install_symbols_events, backup_effect.
  rewrite lookup_file_symbols. simpl.
  destruct (symbols w); simpl; by rewrite <- ?app_assoc.
Qed.

Lemma remove_symbols_effect_trace w :
  trace (remove_symbols_effect w) = trace w ++ remove_symbols_events w.
Proof.
  unfold remove_symbols_effect, remove_symbols_events.
  destruct (symbols w); simpl; by rewrite <- ?app_assoc.
Qed.

Lemma pass_exits_rules w w' : rules w' = rules w → pass_exits w' = pass_exits w.
Proof. unfold pass_exits. by intros ->. Qed.

Lemma finish_outcome lines r : fst (finish lines r) = fst r.
Proof. by destruct r as [[[]|c] w]. Qed.

Lemma finish_trace lines r :
  trace (snd (finish lines r))
  = trace (snd r) ++ match fst r with
                     | Returned _ => List.map Print lines
                     | Exited _ => []
                     end.
Proof. destruct r as [[[]|c] w]; simpl; [done | by rewrite app_nil_r]. Qed.

Lemma exit_status_install w :
  exit_status install w
  = match source w with
    | Some _ => if pass_exits w then 1 else 0
    | None => 1
    end.
Proof.
  unfold exit_status. rewrite install_run.
  destruct (source w) as [blob|]; [|reflexivity].
  rewrite finish_outcome, rules_pass_outcome.
  rewrite (pass_exits_rules w) by apply install_symbols_effect_rules.
  by destruct (pass_exits w).
Qed.

Lemma exit_status_remove w :
  exit_status remove w = if pass_exits w then 1 else 0.
Proof.
  unfold exit_status. rewrite remove_run.
  rewrite finish_outcome, rules_pass_outcome.
  rewrite (pass_exits_rules w) by apply remove_symbols_effect_rules.
  by destruct (pass_exits w).
Qed.

Lemma events_of_intro {A} (m : M A) w evs :
  trace (after m w) = trace w ++ evs → events_of m w = evs.
Proof. intros H. unfold events_of. rewrite H. by rewrite drop_app_length. Qed.

Lemma install_trace w : trace (after install w) = trace w ++ install_events w.
Proof.
  unfold after, install_events. rewrite install_run.
  destruct (source w) as [blob|]; [|reflexivity].
  rewrite finish_trace, rules_pass_trace, rules_pass_outcome.
  rewrite install_symbols_effect_trace.
  rewrite (pass_exits_rules w) by apply install_symbols_effect_rules.
  unfold closing_events. rewrite <- !app_assoc.
  by destruct (pass_exits w).
Qed.

Lemma remove_trace w : trace (after remove w) = trace w ++ remove_events w.
Proof.
  unfold after, remove_events. rewrite remove_run.
  rewrite finish_trace, rules_pass_trace, rules_pass_outcome.
  rewrite remove_symbols_effect_trace.
  rewrite (pass_exits_rules w) by apply remove_symbols_effect_rules.
  unfold closing_events. rewrite <- !app_assoc.
  by destruct (pass_exits w).
Qed.

Lemma events_of_install w : events_of install w = install_events w.
Proof. apply events_of_intro, install_trace. Qed.

Lemma events_of_remove w : events_of remove w = remove_events w.
Proof. apply events_of_intro, remove_trace. Qed.

Lemma install_rules_lookup w f :
  is_Some (source w) → pass_exits w = false → In f XKB_RULES_FILES →
  rules (after install w) !! f
  = file_after ActInstall (parse_error w) (rules w !! f).
Proof.
  intros [blob Hs] Hex Hf. unfold after. rewrite install_run, Hs.
  rewrite finish_keeps by reflexivity.
  rewrite rules_pass_lookup, install_symbols_effect_rules,
    ?install_symbols_effect_parse_error; try done.
  by rewrite (pass_exits_rules w) by apply install_symbols_effect_rules.
Qed.

Lemma remove_rules_lookup w f :
  pass_exits w = false → In f XKB_RULES_FILES →
  rules (after remove w) !! f
  = file_after ActRemove (parse_error w) (rules w !! f).
Proof.
  intros Hex Hf. unfold after. rewrite remove_run.
  rewrite finish_keeps by reflexivity.
  rewrite rules_pass_lookup, remove_symbols_effect_rules,
    ?remove_symbols_effect_parse_error; try done.
  by rewrite (pass_exits_rules w) by apply remove_symbols_effect_rules.
Qed.

(** ** Which events a run contains *)

Lemma in_file_events act f d bp ev :
  In ev (file_events act f d bp) →
  (∃ line, ev = Print line) ∨ ev = Copy f bp
  ∨ (ev = Write f ∧ ∃ root pl, d = Some (WellFormed root)
                               ∧ locate_base_layout root = Some pl).
Proof.
  unfold file_events. destruct d as [[e|root]|]; simpl.
  - intuition (subst; eauto).
  - destruct (locate_base_layout root) as [[p l]|] eqn:Hl; simpl.
    + rewrite in_app_iff, in_map_iff. simpl.
      intros [<-|[<-|[<-|[(x & <- & _)|[<-|[]]]]]]; eauto 10.
    + intuition (subst; eauto).
  - intuition (subst; eauto).
Qed.

Lemma in_pass_events act w ev :
  In ev (pass_events act w) →
  ∃ f bp, In f XKB_RULES_FILES ∧ In ev (file_events act f (rules w !! f) bp).
Proof.
  unfold pass_events. rewrite in_app_iff. intros [H|H].
  - exists evdev_xml. eexists. split; [by left | exact H].
  - destruct (is_malformed (rules w !! evdev_xml)); [done|].
    exists base_xml. eexists. split; [by right; left | exact H].
Qed.

Lemma pass_events_complete act w f ev :
  pass_exits w = false → In f XKB_RULES_FILES →
  (∀ bp, In ev (file_events act f (rules w !! f) bp)) →
  In ev (pass_events act w).
Proof.
  intros Hex Hf Hev. apply orb_false_iff in Hex as [H1 _].
  unfold pass_events. rewrite H1, in_app_iff.
  destruct Hf as [<-|[<-|[]]]; [left|right]; apply Hev.
Qed.

Lemma pass_events_touches act w ev p :
  In ev (pass_events act w) → touches p ev = true → In p XKB_RULES_FILES.
Proof.
  intros Hin Ht. apply in_pass_events in Hin as (f & bp & Hf & Hin).
  apply in_file_events in Hin as [[line ->]|[->|[-> _]]]; simpl in Ht;
    try discriminate; apply String.eqb_eq in Ht; by subst.
Qed.

Lemma symbols_path_not_rules_file : ¬ In symbols_path XKB_RULES_FILES.
Proof. vm_compute. intuition discriminate. Qed.

(** C10: when the symbols file does not exist, [remove] prints its
    opening line and goes straight to the rules pass: the run is the
    rules pass followed by the closing lines, no symbols file appears, no
    event of the run copies or writes the symbols file, and the exit
    status is 0 unless a rules document fails to parse. *)
Theorem remove_without_symbols_file (w : world) :
  symbols w = None →
  remove w
  = finish remove_closing
      (modify_xkb_rules ActRemove
         (log [Print "--- Starting Carbon Layout Uninstallation ---"] w))
  ∧ symbols (after remove w) = None
  ∧ (∀ ev, In ev (events_of remove w) → touches symbols_path ev = false)
  ∧ (∀ f, In f XKB_RULES_FILES →
       pass_exits w = false →
       rules (after remove w) !! f = file_after ActRemove (parse_error w) (rules w !! f))
  ∧ (pass_exits w = false → exit_status remove w = 0).
Proof.
  intros Hs. repeat split.
  - rewrite remove_run, modify_xkb_rules_run.
    unfold remove_symbols_effect. by rewrite Hs.
  - rewrite remove_symbols. unfold remove_symbols_effect. by rewrite Hs.
  - intros ev. rewrite events_of_remove. unfold remove_events.
    unfold remove_symbols_events, closing_events. rewrite Hs. simpl.
    rewrite in_app_iff. intros [<-|[Hin|Hin]]; [reflexivity| |].
    + destruct (touches symbols_path ev) eqn:Ht; [|reflexivity].
      exfalso. apply symbols_path_not_rules_file.
      eapply pass_events_touches; eauto.
    + destruct (pass_exits w); [done|].
      destruct Hin as [<-|[<-|[]]]; reflexivity.
  - intros f Hf Hex. by apply remove_rules_lookup.
  - intros Hex. by rewrite exit_status_remove, Hex.
Qed.

Lemma remove_without_symbols_file_witness :
  symbols Sample.bare_host = None
  ∧ symbols (after remove Sample.bare_host) = None
  ∧ exit_status remove Sample.bare_host = 0.
Proof.
  pose proof (remove_without_symbols_file Sample.bare_host eq_refl)
    as (_ & Hs & _ & _ & Hx).
  split; [reflexivity|]. split; [exact Hs | apply Hx; reflexivity].
Defined.


(** C8: a rules document without a [layout] named [us] is skipped by
    [install]: its content stays as it was, the run reports the missing
    base layout for it and never writes it, every rules document that
    exists is still processed and ends up patched as it would be alone,
    and the run exits with status 0, provided the source blob is there
    and no rules document fails to parse. *)
Theorem install_skips_document_without_base_layout
    (w : world) (f : string) (root : element) :
  is_Some (source w) →
  In f XKB_RULES_FILES →
  rules w !! f = Some (WellFormed root) →
  locate_base_layout root = None →
  pass_exits w = false →
  rules (after install w) !! f = Some (WellFormed root)
  ∧ In (Print (no_base_layout_line f)) (events_of install w)
  ∧ ¬ In (Write f) (events_of install w)
  ∧ (∀ g, In g XKB_RULES_FILES → is_Some (rules w !! g) →
       In (Print (processing_line g)) (events_of install w))
  ∧ (∀ g, In g XKB_RULES_FILES →
       rules (after install w) !! g = file_after ActInstall (parse_error w) (rules w !! g))
  ∧ exit_status install w = 0.
Proof.
  intros Hsrc Hf Hd Hloc Hex.
  pose proof Hsrc as [blob Hblob].
  assert (Hev : events_of install w
                = install_symbols_events w
                  ++ pass_events ActInstall (install_symbols_effect blob w)
                  ++ closing_events install_closing w).
  { rewrite events_of_install. unfold install_events. by rewrite Hblob. }
  assert (Hex' : pass_exits (install_symbols_effect blob w) = false).
  { by rewrite (pass_exits_rules w) by apply install_symbols_effect_rules. }
  repeat split.
  - rewrite install_rules_lookup by done. rewrite Hd. simpl. by rewrite Hloc.
  - rewrite Hev, !in_app_iff. right; left.
    apply (pass_events_complete _ _ f); try done. intros bp.
    rewrite install_symbols_effect_rules, Hd. unfold file_events.
    rewrite Hloc. simpl. auto.
  - rewrite Hev, !in_app_iff. intros [Hin|[Hin|Hin]].
    + unfold install_symbols_events in Hin.
      destruct (symbols w); simpl in Hin; intuition discriminate.
    + apply in_pass_events in Hin as (g & bp & Hg & Hin).
      rewrite install_symbols_effect_rules in Hin.
      apply in_file_events in Hin as [[line [=]]|[[=]|[[= ->] Hw]]].
      destruct Hw as (root' & pl & Hd' & Hloc').
      rewrite Hd in Hd'. injection Hd' as <-. by rewrite Hloc in Hloc'.
    + unfold closing_events in Hin. rewrite Hex in Hin.
      simpl in Hin. intuition discriminate.
  - intros g Hg [d Hdg]. rewrite Hev, !in_app_iff. right; left.
    apply (pass_events_complete _ _ g); try done. intros bp.
    rewrite install_symbols_effect_rules, Hdg. simpl. auto.
  - intros g Hg. by apply install_rules_lookup.
  - rewrite exit_status_install. destruct Hsrc as [b ->]. by rewrite Hex.
Qed.

Lemma install_skips_document_without_base_layout_witness :
  locate_base_layout Sample.doc_no_us = None
  ∧ rules (after install Sample.typical_host) !! base_xml
    = Some (WellFormed Sample.doc_no_us)
  ∧ exit_status install Sample.typical_host = 0.
Proof.
  assert (Hsrc : is_Some (source Sample.typical_host)) by (by eexists).
  assert (Hin : In base_xml XKB_RULES_FILES) by (right; left; reflexivity).
  pose proof (install_skips_document_without_base_layout
                Sample.typical_host base_xml Sample.doc_no_us
                Hsrc Hin eq_refl eq_refl eq_refl)
    as (Hr & _ & _ & _ & _ & Hx).
  split; [reflexivity|]. split; [exact Hr | exact Hx].
Defined.


(** ** A document that does not parse ends the run *)

Lemma rules_pass_rules_first_fatal act w :
  is_malformed (rules w !! evdev_xml) = true →
  rules (snd (rules_pass act w)) = rules w.
Proof.
  intros Hm. rewrite rules_pass_unfold.
  pose proof (rules_file_effect_outcome act evdev_xml w) as Ho.
  pose proof (rules_file_effect_rules act evdev_xml w) as Hr.
  rewrite Hm in Ho.
  destruct (rules_file_effect act evdev_xml w) as [o1 w1]. simpl in *.
  subst o1. simpl. rewrite Hr.
  destruct (rules w !! evdev_xml) as [[e|root]|] eqn:Hd; try done.
  simpl. by apply insert_id.
Qed.

Lemma pass_fatal act w f e :
  In f XKB_RULES_FILES → rules w !! f = Some (Malformed e) →
  pass_exits w = true
  ∧ ∃ pre f0 e0 post,
      XKB_RULES_FILES = pre ++ f0 :: post
      ∧ rules w !! f0 = Some (Malformed e0)
      ∧ (∀ g, In g pre → is_malformed (rules w !! g) = false)
      ∧ last (pass_events act w) = Some (Print (parse_error_line f0 e0))
      ∧ ∀ g, In g post →
          rules (snd (rules_pass act w)) !! g = rules w !! g
          ∧ ∀ ev, In ev (pass_events act w) →
              touches g ev = false ∧ ev ≠ Print (processing_line g).
Proof.
  intros Hf Hd.
  destruct (is_malformed (rules w !! evdev_xml)) eqn:Hm1.
  - split; [unfold pass_exits; by rewrite Hm1|].
    destruct (rules w !! evdev_xml) as [[e1|r1]|] eqn:Hd1; try done.
    exists [], evdev_xml, e1, [base_xml]. repeat split; try done.
    + unfold pass_events. rewrite Hd1. reflexivity.
    + by rewrite rules_pass_rules_first_fatal by (by rewrite Hd1).
    + unfold pass_events in H0. rewrite Hd1 in H0. simpl in H0.
      destruct H as [<-|[]].
      destruct H0 as [<-|[<-|[<-|[<-|[]]]]]; reflexivity.
    + unfold pass_events in H0. rewrite Hd1 in H0. simpl in H0.
      destruct H as [<-|[]].
      destruct H0 as [<-|[<-|[<-|[<-|[]]]]]; discriminate.
  - assert (Hd2 : rules w !! base_xml = Some (Malformed e)).
    { destruct Hf as [<-|[<-|[]]]; [|done].
      unfold evdev_xml in Hm1. by rewrite Hd in Hm1. }
    split; [unfold pass_exits; by rewrite Hd2, orb_true_r|].
    exists [evdev_xml], base_xml, e, []. repeat split; try done.
    + intros g [<-|[]]. exact Hm1.
    + unfold pass_events. rewrite Hm1, Hd2.
      unfold file_events at 2. simpl.
      rewrite last_app. reflexivity.
Qed.

(** C9: when a rules document fails to parse, the operation exits with
    status 1; the run stops at the first such document in the order of
    [XKB_RULES_FILES], the last thing it does is print the parser's
    message for that document, and the documents after it are neither
    announced, nor backed up, nor written, and hold what they held.  For
    [install] this is the case when the source blob is there, so that
    the rules pass is reached. *)
Theorem malformed_rules_document_is_fatal
    (act : action) (w : world) (f e : string) :
  (act = ActInstall → is_Some (source w)) →
  In f XKB_RULES_FILES →
  rules w !! f = Some (Malformed e) →
  exit_status (operation act) w = 1
  ∧ ∃ pre f0 e0 post,
      XKB_RULES_FILES = pre ++ f0 :: post
      ∧ rules w !! f0 = Some (Malformed e0)
      ∧ (∀ g, In g pre → is_malformed (rules w !! g) = false)
      ∧ last (trace (after (operation act) w))
        = Some (Print (parse_error_line f0 e0))
      ∧ ∀ g, In g post →
          rules (after (operation act) w) !! g = rules w !! g
          ∧ ∀ ev, In ev (events_of (operation act) w) →
              touches g ev = false ∧ ev ≠ Print (processing_line g).
Proof.
  intros Hsrc Hf Hd. destruct act; simpl operation.
  - destruct Hsrc as [blob Hblob]; [done|].
    pose proof (pass_fatal ActInstall (install_symbols_effect blob w) f e Hf)
      as [Hex Hp].
    { by rewrite install_symbols_effect_rules. }
    rewrite (pass_exits_rules w) in Hex by apply install_symbols_effect_rules.
    split; [by rewrite exit_status_install, Hblob, Hex|].
    destruct Hp as (pre & f0 & e0 & post & Hsplit & Hd0 & Hpre & Hlast & Hpost).
    rewrite install_symbols_effect_rules in Hd0.
    exists pre, f0, e0, post. repeat split; try done.
    + intros g Hg. specialize (Hpre g Hg).
      by rewrite install_symbols_effect_rules in Hpre.
    + rewrite install_trace. unfold install_events, closing_events.
      rewrite Hblob, Hex, app_nil_r, !app_assoc.
      rewrite last_app, Hlast. reflexivity.
    + destruct (Hpost g H) as [Hr _].
      unfold after. rewrite install_run, Hblob.
      rewrite finish_keeps by reflexivity.
      by rewrite Hr, install_symbols_effect_rules.
    + destruct (Hpost g H) as [_ He].
      rewrite events_of_install in H0. unfold install_events in H0.
      rewrite Hblob in H0. unfold closing_events in H0.
      rewrite Hex, app_nil_r, in_app_iff in H0.
      destruct H0 as [H0|H0]; [|by apply He].
      assert (Hg : In g XKB_RULES_FILES)
        by (rewrite Hsplit, in_app_iff; right; by right).
      unfold install_symbols_events in H0.
      destruct Hg as [<-|[<-|[]]];
        destruct (symbols w); simpl in H0;
        repeat (destruct H0 as [<-|H0]; [reflexivity|]); done.
    + destruct (Hpost g H) as [_ He].
      rewrite events_of_install in H0. unfold install_events in H0.
      rewrite Hblob in H0. unfold closing_events in H0.
      rewrite Hex, app_nil_r, in_app_iff in H0.
      destruct H0 as [H0|H0]; [|by apply He].
      assert (Hg : In g XKB_RULES_FILES)
        by (rewrite Hsplit, in_app_iff; right; by right).
      unfold install_symbols_events in H0.
      destruct Hg as [<-|[<-|[]]];
        destruct (symbols w); simpl in H0;
        repeat (destruct H0 as [<-|H0]; [discriminate|]); done.
  - pose proof (pass_fatal ActRemove (remove_symbols_effect w) f e Hf)
      as [Hex Hp].
    { by rewrite remove_symbols_effect_rules. }
    rewrite (pass_exits_rules w) in Hex by apply remove_symbols_effect_rules.
    split; [by rewrite exit_status_remove, Hex|].
    destruct Hp as (pre & f0 & e0 & post & Hsplit & Hd0 & Hpre & Hlast & Hpost).
    rewrite remove_symbols_effect_rules in Hd0.
    exists pre, f0, e0, post. repeat split; try done.
    + intros g Hg. specialize (Hpre g Hg).
      by rewrite remove_symbols_effect_rules in Hpre.
    + rewrite remove_trace. unfold remove_events, closing_events.
      rewrite Hex, app_nil_r, !app_assoc.
      rewrite last_app, Hlast. reflexivity.
    + destruct (Hpost g H) as [Hr _].
      unfold after. rewrite remove_run.
      rewrite finish_keeps by reflexivity.
      by rewrite Hr, remove_symbols_effect_rules.
    + destruct (Hpost g H) as [_ He].
      rewrite events_of_remove in H0. unfold remove_events in H0.
      unfold closing_events in H0.
      rewrite Hex, app_nil_r, in_app_iff in H0.
      destruct H0 as [H0|H0]; [|by apply He].
      assert (Hg : In g XKB_RULES_FILES)
        by (rewrite Hsplit, in_app_iff; right; by right).
      unfold remove_symbols_events in H0.
      destruct Hg as [<-|[<-|[]]];
        destruct (symbols w); simpl in H0;
        repeat (destruct H0 as [<-|H0]; [reflexivity|]); done.
    + destruct (Hpost g H) as [_ He].
      rewrite events_of_remove in H0. unfold remove_events in H0.
      unfold closing_events in H0.
      rewrite Hex, app_nil_r, in_app_iff in H0.
      destruct H0 as [H0|H0]; [|by apply He].
      assert (Hg : In g XKB_RULES_FILES)
        by (rewrite Hsplit, in_app_iff; right; by right).
      unfold remove_symbols_events in H0.
      destruct Hg as [<-|[<-|[]]];
        destruct (symbols w); simpl in H0;
        repeat (destruct H0 as [<-|H0]; [discriminate|]); done.
Qed.

Lemma malformed_rules_document_is_fatal_witness :
  rules Sample.broken_host !! evdev_xml
  = Some (Malformed "syntax error: line 1, column 0")
  ∧ exit_status (operation ActInstall) Sample.broken_host = 1.
Proof.
  assert (Hsrc : ActInstall = ActInstall → is_Some (source Sample.broken_host))
    by (intros _; by eexists).
  assert (Hin : In evdev_xml XKB_RULES_FILES) by (left; reflexivity).
  pose proof (malformed_rules_document_is_fatal
                ActInstall Sample.broken_host evdev_xml _ Hsrc Hin eq_refl)
    as (Hx & _).
  split; [reflexivity | exact Hx].
Defined.


(** ** Trees *)

(** Structural induction that reaches the children. *)
Lemma element_ind' (P : element → Prop) :
  (∀ t a x tl cs, Forall P cs → P (Element t a x tl cs)) →
  ∀ e, P e.
Proof.
  intros step. fix IH 1. intros [t a x tl cs]. apply step.
  induction cs as [|c cs IHcs]; constructor; [apply IH | exact IHcs].
Qed.

Lemma descendants_unfold e :
  descendants e = descendants_from descendants 0 (children e).
Proof. by destruct e. Qed.

Lemma set_children_id e : set_children (children e) e = e.
Proof. by destruct e. Qed.

Lemma head_app_cases {A} (l1 l2 : list A) :
  head (l1 ++ l2) = match head l1 with Some x => Some x | None => head l2 end.
Proof. by destruct l1. Qed.

Lemma filter_under Q i l :
  List.filter (λ pd : path * element, Q (snd pd)) (List.map (under i) l)
  = List.map (under i) (List.filter (λ pd, Q (snd pd)) l).
Proof.
  induction l as [|[p e] l IH]; simpl; [done|].
  destruct (Q e); simpl; by rewrite IH.
Qed.

Lemma first_from_cons Q i c cs :
  head (List.filter (λ pd, Q (snd pd))
          (descendants_from descendants i (c :: cs)))
  = if Q c then Some ([i], c)
    else match first_descendant Q c with
         | Some (q, d) => Some (i :: q, d)
         | None =>
             head (List.filter (λ pd, Q (snd pd))
                     (descendants_from descendants (S i) cs))
         end.
Proof.
  simpl. destruct (Q c); [done|].
  rewrite List.filter_app, head_app_cases, filter_under.
  unfold first_descendant.
  by destruct (List.filter _ (descendants c)) as [|[q d] l].
Qed.

Lemma descendants_from_get cs :
  Forall (λ c, ∀ p e, In (p, e) (descendants c) → get p c = Some e) cs →
  ∀ k p e, In (p, e) (descendants_from descendants k cs) →
    ∃ j p' c, p = (k + j) :: p' ∧ cs !! j = Some c ∧ get p' c = Some e.
Proof.
  induction 1 as [|c cs Hc _ IH]; intros k p e; simpl; [done|].
  rewrite in_app_iff, in_map_iff.
  intros [[= <- <-]|[([q d] & [= <- <-] & Hin)|Hin]].
  - exists 0, [], c. by rewrite Nat.add_0_r.
  - exists 0, q, c. rewrite Nat.add_0_r. auto.
  - apply IH in Hin as (j & p' & c' & -> & Hj & Hg).
    exists (S j), p', c'. split; [f_equal; lia | done].
Qed.

Lemma descendants_get root p e :
  In (p, e) (descendants root) → get p root = Some e.
Proof.
  revert p e. induction root as [t a x tl cs IH] using element_ind'.
  intros p e Hin. simpl in Hin.
  apply (descendants_from_get cs IH) in Hin as (j & p' & c & -> & Hj & Hg).
  simpl. by rewrite Hj.
Qed.

Lemma first_descendant_get Q root p e :
  first_descendant Q root = Some (p, e) → get p root = Some e ∧ Q e = true.
Proof.
  unfold first_descendant. intros H.
  assert (Hin : In (p, e) (List.filter (λ pd, Q (snd pd)) (descendants root))).
  { destruct (List.filter _ _) as [|x l]; [done|].
    injection H as ->. by left. }
  apply filter_In in Hin as [Hin HQ]. split; [|done].
  by apply descendants_get.
Qed.

Lemma locate_base_layout_first root :
  locate_base_layout root = first_descendant is_base_layout root.
Proof.
  unfold locate_base_layout, first_descendant, findall_desc, is_base_layout.
  f_equal. induction (descendants root) as [|[p e] l IH]; simpl; [done|].
  destruct (has_tag "layout" e); simpl; [|exact IH].
  destruct (named BASE_LAYOUT e); by rewrite IH.
Qed.

Lemma locate_base_layout_get root p layout_node :
  locate_base_layout root = Some (p, layout_node) →
  get p root = Some layout_node ∧ is_base_layout layout_node = true.
Proof. rewrite locate_base_layout_first. apply first_descendant_get. Qed.

Lemma update_same p e L :
  get p e = Some L → update p (λ _, L) e = e.
Proof.
  revert e. induction p as [|i p IH]; intros e; simpl.
  - by intros [= ->].
  - destruct (children e !! i) as [c|] eqn:Hc; [|done].
    intros Hg. rewrite IH by done.
    rewrite list_insert_id by done. apply set_children_id.
Qed.

Lemma get_update p f e L :
  get p e = Some L → get p (update p f e) = Some (f L).
Proof.
  revert e. induction p as [|i p IH]; intros e; simpl.
  - by intros [= ->].
  - destruct (children e !! i) as [c|] eqn:Hc; [|done].
    intros Hg. simpl. rewrite list_lookup_insert_eq
      by (by eapply lookup_lt_Some).
    by apply IH.
Qed.

Lemma get_update_diverge p q f e :
  diverge p q → get q (update p f e) = get q e.
Proof.
  intros (common & i & j & p' & q' & -> & -> & Hij).
  revert e. induction common as [|k common IH]; intros e; simpl.
  - destruct (children e !! i) as [c|] eqn:Hc; [|done].
    simpl. by rewrite list_lookup_insert_ne.
  - destruct (children e !! k) as [c|] eqn:Hc; [|by rewrite Hc].
    simpl. rewrite list_lookup_insert_eq by (by eapply lookup_lt_Some).
    apply IH.
Qed.

(** ** What a patch leaves to be found *)

Lemma similar_refl e : similar e e.
Proof. by repeat split. Qed.

Lemma named_config_names name e :
  named name e = match head (config_names e) with
                 | Some t => bool_decide (t = Some name)
                 | None => false
                 end.
Proof.
  unfold named, find2, config_names, name_texts.
  induction (findall "configItem" e) as [|c cs IH]; simpl; [done|].
  rewrite !head_app_cases.
  destruct (findall "name" c) as [|n ns]; simpl; [exact IH | done].
Qed.

Lemma similar_named name e e' : similar e e' → named name e' = named name e.
Proof. intros (_ & _ & _ & H). by rewrite !named_config_names, H. Qed.

Lemma similar_has_tag t e e' : similar e e' → has_tag t e' = has_tag t e.
Proof. intros (H & _). unfold has_tag. by rewrite H. Qed.

Lemma similar_is_base_layout e e' :
  similar e e' → is_base_layout e' = is_base_layout e.
Proof.
  intros H. unfold is_base_layout.
  by rewrite (similar_has_tag _ _ _ H), (similar_named _ _ _ H).
Qed.

Lemma similar_children e cs' :
  Forall2 similar (children e) cs' → similar e (set_children cs' e).
Proof.
  intros H. unfold similar, name_texts, config_names, findall. simpl.
  repeat split.
  - induction H as [|c c' cs cs'' Hc _ IH]; simpl; [done|].
    rewrite (similar_has_tag _ _ _ Hc).
    destruct (has_tag "name" c); simpl; [|exact IH].
    destruct Hc as (_ & -> & _). by rewrite IH.
  - induction H as [|c c' cs cs'' Hc _ IH]; simpl; [done|].
    rewrite (similar_has_tag _ _ _ Hc).
    destruct (has_tag "configItem" c); simpl; [|exact IH].
    destruct Hc as (_ & _ & Hn & _). by rewrite Hn, IH.
Qed.

Lemma similar_insert e i c c' :
  children e !! i = Some c → similar c c' →
  similar e (set_children (<[i := c']> (children e)) e).
Proof.
  intros Hi Hc. apply similar_children.
  rewrite <- (list_insert_id (children e) i c) at 1 by done.
  apply Forall2_insert; [|done].
  apply Forall_Forall2_diag, Forall_forall. intros; apply similar_refl.
Qed.

Lemma similar_update p e L L' :
  get p e = Some L → similar L L' → similar e (update p (λ _, L') e).
Proof.
  revert e. induction p as [|i p IH]; intros e; simpl.
  - by intros [= ->].
  - destruct (children e !! i) as [c|] eqn:Hc; [|done].
    intros Hg HL. eapply similar_insert; eauto.
Qed.

Section FirstDescendant.
Context (Q : element → bool).
Hypothesis Q_similar : ∀ e e', similar e e' → Q e' = Q e.

Lemma first_from_update L' cs :
  Forall (λ c, ∀ p L, first_descendant Q c = Some (p, L) → similar L L' →
                      first_descendant Q (update p (λ _, L') c)
                      = Some (p, L')) cs →
  ∀ k p L,
    head (List.filter (λ pd, Q (snd pd))
            (descendants_from descendants k cs)) = Some (p, L) →
    similar L L' →
    ∃ j p' c,
      p = (k + j) :: p' ∧ cs !! j = Some c
      ∧ head (List.filter (λ pd, Q (snd pd))
                (descendants_from descendants k
                   (<[j := update p' (λ _, L') c]> cs)))
        = Some (p, L').
Proof.
  induction 1 as [|c cs Hc _ IH]; intros k p L; [done|].
  rewrite first_from_cons. intros Hfirst HL.
  destruct (Q c) eqn:HQc.
  - injection Hfirst as <- <-. exists 0, [], c.
    rewrite Nat.add_0_r. repeat split.
    change (<[0 := update [] (λ _, L') c]> (c :: cs)) with (L' :: cs).
    rewrite first_from_cons, (Q_similar _ _ HL), HQc. reflexivity.
  - destruct (first_descendant Q c) as [[q d]|] eqn:Hfc.
    + injection Hfirst as <- <-. exists 0, q, c.
      rewrite Nat.add_0_r. repeat split.
      change (<[0 := update q (λ _, L') c]> (c :: cs))
        with (update q (λ _, L') c :: cs).
      rewrite first_from_cons.
      apply first_descendant_get in Hfc as Hget. destruct Hget as [Hget _].
      rewrite (Q_similar c) by (by eapply similar_update).
      rewrite HQc, (Hc q d) by done. reflexivity.
    + apply IH in Hfirst as (j & p' & c' & -> & Hj & Hh); [|done].
      exists (S j), p', c'. split; [f_equal; lia|]. split; [done|].
      change (<[S j := update p' (λ _, L') c']> (c :: cs))
        with (c :: <[j := update p' (λ _, L') c']> cs).
      rewrite first_from_cons, HQc, Hfc.
      replace (k + S j) with (S k + j) by lia. exact Hh.
Qed.

(** Replacing the first match by a similar element leaves it the first
    match, at the same position. *)
Lemma first_descendant_update root p L L' :
  first_descendant Q root = Some (p, L) → similar L L' →
  first_descendant Q (update p (λ _, L') root) = Some (p, L').
Proof.
  revert p L. induction root as [t a x tl cs IH] using element_ind'.
  intros p L Hfirst HL. unfold first_descendant in Hfirst. simpl in Hfirst.
  destruct (first_from_update L' cs IH 0 p L Hfirst HL)
    as (j & p' & c & -> & Hj & Hh).
  simpl. rewrite Hj. exact Hh.
Qed.
End FirstDescendant.

Lemma locate_base_layout_update root p L L' :
  locate_base_layout root = Some (p, L) → similar L L' →
  locate_base_layout (update p (λ _, L') root) = Some (p, L').
Proof.
  rewrite !locate_base_layout_first.
  apply first_descendant_update. apply similar_is_base_layout.
Qed.

(** ** Reconciling one descriptor *)

Lemma remove_object_found id c pre rest :
  Forall (λ o : nat * element, fst o ≠ id) pre →
  remove_object id (pre ++ (id, c) :: rest) = pre ++ rest.
Proof.
  induction 1 as [|o pre Ho _ IH]; simpl.
  - by rewrite Nat.eqb_refl.
  - destruct (Nat.eqb_spec (fst o) id); [done | by rewrite IH].
Qed.

Lemma remove_collected_numbered (P : nat * element → bool) cs i pre :
  Forall (λ o : nat * element, (fst o < i)%nat) pre →
  fold_left (λ left o, remove_object (fst o) left)
            (List.filter P (number i cs)) (pre ++ number i cs)
  = pre ++ List.filter (λ o, negb (P o)) (number i cs).
Proof.
  revert i pre. induction cs as [|c cs IH]; intros i pre Hpre; [done|].
  simpl. destruct (P (i, c)) eqn:HP; simpl.
  - rewrite remove_object_found
      by (eapply Forall_impl; [exact Hpre | simpl; intros; lia]).
    apply IH. eapply Forall_impl; [exact Hpre | simpl; intros; lia].
  - rewrite (cons_middle (i, c)), !app_assoc.
    rewrite IH; [by rewrite <- !app_assoc|].
    apply Forall_app. split.
    + eapply Forall_impl; [exact Hpre | simpl; intros; lia].
    + repeat constructor.
Qed.

Lemma filter_number (Q : element → bool) i cs :
  List.map snd (List.filter (λ o, Q (snd o)) (number i cs)) = List.filter Q cs.
Proof.
  revert i. induction cs as [|c cs IH]; intros i; simpl; [done|].
  destruct (Q c); simpl; by rewrite IH.
Qed.

(** Removing the collected variants one by one, by identity, is the
    filter of [remove_existing]. *)
Lemma remove_collected_remove_existing name vl :
  remove_collected name vl = remove_existing name vl.
Proof.
  unfold remove_collected, remove_existing, collected. f_equal.
  rewrite (remove_collected_numbered _ (children vl) 0 []) by constructor.
  simpl. apply (filter_number (λ c, negb (has_tag "variant" c && named name c))).
Qed.

Lemma existing_variants_filter name vl :
  existing_variants name (Some vl)
  = List.filter (is_variant_named name) (children vl).
Proof.
  unfold existing_variants, findall, is_variant_named.
  induction (children vl) as [|c cs IH]; simpl; [done|].
  destruct (has_tag "variant" c); simpl; [|exact IH].
  destruct (named name c); by rewrite IH.
Qed.

Lemma new_variant_is_named name description :
  is_variant_named name (new_variant name description) = true.
Proof.
  unfold is_variant_named, named. simpl. by rewrite bool_decide_eq_true_2.
Qed.

Lemma filter_negb_filter {A} (P : A → bool) l :
  List.filter P (List.filter (λ x, negb (P x)) l) = [].
Proof.
  induction l as [|x l IH]; simpl; [done|].
  destruct (P x) eqn:HP; simpl; [exact IH|]. by rewrite HP.
Qed.

Lemma existing_after_remove name vl :
  existing_variants name (Some (remove_existing name vl)) = [].
Proof. rewrite existing_variants_filter. simpl. apply filter_negb_filter. Qed.

Lemma existing_after_install name description vl :
  existing_variants name
    (Some (reconciled ActInstall vl (name, description)))
  = [new_variant name description].
Proof.
  rewrite existing_variants_filter. simpl.
  rewrite List.filter_app.
  rewrite (filter_negb_filter (is_variant_named name)). simpl.
  by rewrite new_variant_is_named.
Qed.

(** C5: one reconciliation step for a descriptor leaves exactly the
    entries the action asks for, whatever the variant list held before
    (duplicates and stale entries included).  On [remove] no [variant]
    child named by the descriptor id is left; on [install] exactly one is
    left, and it is the fresh element, appended as the last child, whose
    [configItem/name] is the id and whose [configItem/description] is
    the display name. *)
Theorem reconcile_leaves_at_most_one
    (act : action) (vl : element) (name description : string) (w : world) :
  ∃ vl',
    fst (reconcile act (Some vl) (name, description) w) = Returned (Some vl')
    ∧ match act with
      | ActRemove => existing_variants name (Some vl') = []
      | ActInstall =>
          existing_variants name (Some vl') = [new_variant name description]
          ∧ last (children vl') = Some (new_variant name description)
          ∧ (text <$> find2 "configItem" "name"
                        (new_variant name description)) = Some (Some name)
          ∧ (text <$> find2 "configItem" "description"
                        (new_variant name description))
            = Some (Some description)
      end.
Proof.
  exists (reconciled act vl (name, description)).
  rewrite reconcile_run. split; [reflexivity|].
  destruct act.
  - split; [apply existing_after_install|].
    split; [simpl; apply last_snoc|]. split; reflexivity.
  - apply existing_after_remove.
Qed.

(** ** The patched layout node *)

Lemma similar_trans a b c : similar a b → similar b c → similar a c.
Proof.
  intros (H1 & H2 & H3 & H4) (G1 & G2 & G3 & G4).
  repeat split; congruence.
Qed.

Lemma filter_tag_remove t name cs :
  t ≠ "variant" →
  List.filter (has_tag t)
    (List.filter (λ c, negb (has_tag "variant" c && named name c)) cs)
  = List.filter (has_tag t) cs.
Proof.
  intros Ht. induction cs as [|c cs IH]; simpl; [done|].
  destruct (has_tag "variant" c) eqn:Hv; simpl.
  - assert (has_tag t c = false) as Hf.
    { unfold has_tag in *. apply String.eqb_eq in Hv.
      apply String.eqb_neq. congruence. }
    rewrite Hf. destruct (named name c); simpl; by rewrite ?Hf, IH.
  - by rewrite IH.
Qed.

Lemma similar_by_children e cs' :
  List.filter (has_tag "name") cs' = List.filter (has_tag "name") (children e) →
  List.filter (has_tag "configItem") cs'
  = List.filter (has_tag "configItem") (children e) →
  similar e (set_children cs' e).
Proof.
  intros H1 H2.
  unfold similar, config_names, name_texts, findall. simpl.
  by rewrite H1, H2.
Qed.

Lemma similar_reconciled act vl d : similar vl (reconciled act vl d).
Proof.
  destruct act; simpl.
  - unfold append, remove_existing. simpl.
    apply (similar_by_children vl);
      rewrite List.filter_app, filter_tag_remove by done;
      simpl; by rewrite app_nil_r.
  - unfold remove_existing.
    apply similar_by_children; by rewrite filter_tag_remove.
Qed.

Lemma similar_reconciled_all act vl : similar vl (reconciled_all act vl).
Proof.
  unfold reconciled_all. revert vl.
  induction VARIANTS_TO_INSTALL as [|d ds IH]; intros vl; simpl.
  - apply similar_refl.
  - eapply similar_trans; [apply similar_reconciled | apply IH].
Qed.

Lemma patched_layout_similar act layout_node :
  similar layout_node (patched_layout act layout_node).
Proof.
  unfold patched_layout.
  destruct (find_pos "variantList" (children layout_node)) as [i|] eqn:Hpos.
  - destruct (children layout_node !! i) as [vl|] eqn:Hvl;
      [|apply similar_refl].
    eapply similar_insert; [done | apply similar_reconciled_all].
  - destruct act; [|apply similar_refl].
    apply similar_by_children; rewrite List.filter_app; simpl;
      by rewrite app_nil_r.
Qed.

Lemma find_pos_insert t cs i c c' :
  cs !! i = Some c → has_tag t c' = has_tag t c →
  find_pos t (<[i := c']> cs) = find_pos t cs.
Proof.
  revert i. induction cs as [|x cs IH]; intros i; [done|].
  destruct i as [|i]; simpl.
  - intros [= ->] ->. reflexivity.
  - intros Hi Ht. destruct (has_tag t x); [done|]. by rewrite (IH i).
Qed.

Lemma find_pos_app_none t cs c :
  find_pos t cs = None → has_tag t c = true →
  find_pos t (cs ++ [c]) = Some (length cs).
Proof.
  intros Hn Hc. induction cs as [|x cs IH]; simpl in *; [by rewrite Hc|].
  destruct (has_tag t x); [done|].
  destruct (find_pos t cs); [done|]. by rewrite IH.
Qed.

(** The variant list of the patched layout: the reconciled list, which
    on [install] starts from a new empty list when there was none. *)
Lemma find_patched_layout act layout_node :
  find "variantList" (patched_layout act layout_node)
  = match find "variantList" layout_node, act with
    | Some vl, _ => Some (reconciled_all act vl)
    | None, ActInstall => Some (reconciled_all act (new "variantList"))
    | None, ActRemove => None
    end.
Proof.
  rewrite !find_find_pos. unfold patched_layout.
  destruct (find_pos "variantList" (children layout_node)) as [i|] eqn:Hpos.
  - destruct (find_pos_nth _ _ _ Hpos) as (vl & Hvl & Htag).
    rewrite Hvl. simpl.
    rewrite (find_pos_insert _ _ _ vl), Hpos; try done.
    + simpl. rewrite Hvl.
      by rewrite list_lookup_insert_eq by (by eapply lookup_lt_Some).
    + by apply similar_has_tag, similar_reconciled_all.
  - destruct act; simpl; [|by rewrite Hpos].
    rewrite find_pos_app_none; try done.
    simpl. rewrite lookup_app_r by lia. by rewrite Nat.sub_diag.
Qed.

Lemma existing_after_remove_other name other vl :
  existing_variants name (Some vl) = [] →
  existing_variants name (Some (remove_existing other vl)) = [].
Proof.
  rewrite !existing_variants_filter. simpl.
  induction (children vl) as [|c cs IH]; simpl; [done|].
  destruct (is_variant_named name c) eqn:Hn; [done|]. intros H.
  destruct (negb _); simpl; rewrite ?Hn; by apply IH.
Qed.

Lemma existing_after_remove_all ds vl d :
  In d ds →
  existing_variants (fst d)
    (Some (fold_left (reconciled ActRemove) ds vl)) = [].
Proof.
  revert vl. induction ds as [|d' ds IH]; intros vl; [done|].
  simpl. intros [->|Hin]; [|by apply IH].
  generalize (existing_after_remove (fst d) vl).
  generalize (remove_existing (fst d) vl). clear.
  induction ds as [|d' ds IH]; intros vl' H; simpl; [done|].
  apply IH. by apply existing_after_remove_other.
Qed.

(** ** Writing a document and reading it back *)

Lemma every_node_unfold P e :
  every_node P e = P e && forallb (every_node P) (children e).
Proof. by destruct e. Qed.

Lemma every_node_child P e i c :
  every_node P e = true → children e !! i = Some c → every_node P c = true.
Proof.
  rewrite every_node_unfold. intros He Hc.
  apply andb_true_iff in He as [_ He]. rewrite forallb_forall in He.
  apply He, list_elem_of_In. by eapply list_elem_of_lookup_2.
Qed.

Lemma every_node_get P p e d :
  every_node P e = true → get p e = Some d → every_node P d = true.
Proof.
  revert e. induction p as [|i p IH]; intros e He; simpl.
  - by intros [= <-].
  - destruct (children e !! i) as [c|] eqn:Hc; [|done].
    apply IH. by eapply every_node_child.
Qed.

Lemma every_node_descendant P root p e :
  every_node P root = true → In (p, e) (descendants root) → P e = true.
Proof.
  intros Hroot Hin. apply descendants_get in Hin.
  pose proof (every_node_get _ _ _ _ Hroot Hin) as He.
  rewrite every_node_unfold in He. by apply andb_true_iff in He as [He _].
Qed.

Lemma forallb_insert {A} (P : A → bool) l i x :
  forallb P l = true → P x = true → forallb P (<[i := x]> l) = true.
Proof.
  revert i. induction l as [|y l IH]; intros i; [done|].
  simpl. intros Hl Hx. apply andb_true_iff in Hl as [Hy Hl].
  destruct i as [|i]; simpl; [by rewrite Hx|].
  by rewrite Hy, IH.
Qed.

Lemma forallb_filter_sub {A} (P Q : A → bool) l :
  forallb P l = true → forallb P (List.filter Q l) = true.
Proof.
  induction l as [|y l IH]; [done|]. simpl. intros Hl.
  apply andb_true_iff in Hl as [Hy Hl].
  destruct (Q y); simpl; [by rewrite Hy, IH | by apply IH].
Qed.

Section EveryNode.

Variable P : element → bool.
Hypothesis P_local : ∀ cs e, P (set_children cs e) = P e.
Hypothesis P_list : P (new "variantList") = true.
Hypothesis P_variant :
  ∀ d, In d VARIANTS_TO_INSTALL →
       every_node P (new_variant (fst d) (snd d)) = true.

Lemma every_node_set_children cs e :
  every_node P (set_children cs e) = P e && forallb (every_node P) cs.
Proof. by rewrite every_node_unfold, P_local. Qed.

Lemma every_node_update p f e :
  every_node P e = true →
  (∀ d, get p e = Some d → every_node P (f d) = true) →
  every_node P (update p f e) = true.
Proof.
  revert e. induction p as [|i p IH]; intros e He Hf; simpl.
  - by apply Hf.
  - destruct (children e !! i) as [c|] eqn:Hc; [|done].
    rewrite every_node_set_children.
    pose proof (every_node_child _ _ _ _ He Hc) as Hchild.
    rewrite every_node_unfold in He. apply andb_true_iff in He as [He1 He2].
    rewrite He1. simpl. apply forallb_insert; [done|].
    apply IH; [done|]. intros d Hd. apply Hf. simpl. by rewrite Hc.
Qed.

Lemma every_node_reconciled act vl d :
  In d VARIANTS_TO_INSTALL →
  every_node P vl = true → every_node P (reconciled act vl d) = true.
Proof.
  intros Hd Hvl. rewrite every_node_unfold in Hvl.
  apply andb_true_iff in Hvl as [H1 H2].
  destruct act; unfold reconciled, append, remove_existing.
  - rewrite !every_node_set_children. cbn [children set_children].
    rewrite P_local, H1, forallb_app. cbn [forallb].
    rewrite forallb_filter_sub by done. by rewrite P_variant.
  - rewrite every_node_set_children, H1. by apply forallb_filter_sub.
Qed.

Lemma every_node_reconciled_all act vl :
  every_node P vl = true → every_node P (reconciled_all act vl) = true.
Proof.
  unfold reconciled_all.
  assert (H : ∀ ds, (∀ d, In d ds → In d VARIANTS_TO_INSTALL) →
                ∀ vl, every_node P vl = true →
                      every_node P (fold_left (reconciled act) ds vl) = true).
  { induction ds as [|d ds IH]; intros Hds vl0 Hvl0; [done|]. simpl.
    apply IH; [intros d' Hd'; apply Hds; by right|].
    apply every_node_reconciled; [apply Hds; by left | done]. }
  by apply H.
Qed.

Lemma every_node_patched_layout act layout_node :
  every_node P layout_node = true →
  every_node P (patched_layout act layout_node) = true.
Proof.
  intros HL. unfold patched_layout.
  pose proof HL as HL'. rewrite every_node_unfold in HL'.
  apply andb_true_iff in HL' as [H1 H2].
  destruct (find_pos "variantList" (children layout_node)) as [i|].
  - destruct (children layout_node !! i) as [vl|] eqn:Hvl; [|done].
    rewrite every_node_set_children, H1. simpl.
    apply forallb_insert; [done|]. apply every_node_reconciled_all.
    by eapply every_node_child.
  - destruct act; [|done].
    rewrite every_node_set_children, H1, forallb_app, H2. cbn [forallb andb].
    rewrite every_node_reconciled_all; [done|].
    by rewrite every_node_unfold, P_list.
Qed.

Lemma every_node_patched_root act root p layout_node :
  every_node P root = true →
  get p root = Some layout_node →
  every_node P (patched_root act root p layout_node) = true.
Proof.
  intros Hroot Hget. unfold patched_root.
  apply every_node_update; [done|]. intros _ _.
  apply every_node_patched_layout. by eapply every_node_get.
Qed.

End EveryNode.

Lemma normalised_unfold e :
  normalised e
  = Element (tag e) (attrib e) (newlines <$> text e) (newlines <$> tail e)
            (List.map normalised (children e)).
Proof. by destruct e. Qed.

Lemma newlines_id s : has_cr s = false → newlines s = s.
Proof.
  unfold has_cr. induction s as [|c s IH]; [done|].
  cbn [list_ascii_of_string existsb newlines].
  rewrite (Ascii.eqb_sym "013" c). destruct (Ascii.eqb c "013"); [done|].
  cbn [orb]. intros H. by rewrite IH.
Qed.

Lemma newlines_id_option x :
  has_cr (default "" x) = false → newlines <$> x = x.
Proof. destruct x as [s|]; simpl; [|done]. intros H. by rewrite newlines_id. Qed.

Lemma normalised_id e : every_node carriage_free e = true → normalised e = e.
Proof.
  induction e as [t a x tl cs IH] using element_ind'.
  rewrite every_node_unfold. unfold carriage_free at 1. simpl.
  intros H. apply andb_true_iff in H as [H Hcs].
  apply andb_true_iff in H as [Hx Htl].
  apply negb_true_iff in Hx, Htl.
  rewrite !newlines_id_option by done. f_equal.
  induction IH as [|c cs Hc _ IHcs]; simpl in *; [done|].
  apply andb_true_iff in Hcs as [Hc' Hcs]. by rewrite Hc, IHcs.
Qed.

Lemma reread_plain err root : plain root = true → reread err root = WellFormed root.
Proof.
  unfold plain, reread. intros H. apply andb_true_iff in H as [H1 H2].
  apply negb_true_iff in H1. by rewrite H1, normalised_id.
Qed.

Lemma names_default_local cs e :
  names_default (set_children cs e) = names_default e.
Proof. reflexivity. Qed.

Lemma carriage_free_local cs e :
  carriage_free (set_children cs e) = carriage_free e.
Proof. reflexivity. Qed.

Lemma every_node_and P Q e :
  every_node (λ x, P x && Q x) e = every_node P e && every_node Q e.
Proof.
  induction e as [t a x tl cs IH] using element_ind'. simpl.
  assert (forallb (every_node (λ x, P x && Q x)) cs
          = forallb (every_node P) cs && forallb (every_node Q) cs) as ->.
  { induction IH as [|c cs Hc _ IHcs]; simpl; [done|].
    rewrite Hc, IHcs. by destruct (every_node P c), (every_node Q c),
      (forallb (every_node P) cs). }
  by destruct (P _), (Q _), (forallb (every_node P) cs).
Qed.

(** Patching a plain document gives a plain document. *)
Lemma plain_patched_root act root p layout_node :
  plain root = true →
  get p root = Some layout_node →
  plain (patched_root act root p layout_node) = true.
Proof.
  unfold plain, uses_default. rewrite !negb_involutive.
  intros H Hget. apply andb_true_iff in H as [H1 H2].
  apply andb_true_iff. split.
  - apply every_node_patched_root; try done;
      intros d [<-|[<-|[]]]; reflexivity.
  - apply every_node_patched_root; try done;
      intros d [<-|[<-|[]]]; reflexivity.
Qed.

(** ** Removing from a layout without a variant list *)

Lemma patched_layout_remove_none layout_node :
  find "variantList" layout_node = None →
  patched_layout ActRemove layout_node = layout_node
  ∧ patch_messages ActRemove layout_node = [].
Proof.
  intros Hf. unfold patch_messages. rewrite Hf. split; [|done].
  unfold patched_layout. rewrite find_find_pos in Hf.
  destruct (find_pos "variantList" (children layout_node)) as [i|] eqn:Hpos;
    [|done].
  simpl in Hf. by rewrite Hf.
Qed.

(** C6, as stated, fails: [remove] on a document whose [us] layout has no
    variant list still backs the file up and rewrites it, and prints
    nothing that reports a no-op; these are all the events of the step. *)
Lemma remove_without_variant_list_counterexample :
  locate_base_layout Sample.doc_us = Some ([0; 1], Sample.us_plain)
  ∧ find "variantList" Sample.us_plain = None
  ∧ events_of (modify_rules_file ActRemove evdev_xml) Sample.typical_host
    = [ Print (processing_line evdev_xml);
        Copy evdev_xml (evdev_xml +:+ ".bak_20240101_120000");
        Print (created_backup_line (evdev_xml +:+ ".bak_20240101_120000"));
        Write evdev_xml ].
Proof. repeat split; vm_compute; reflexivity. Qed.

(** C6, amended: [remove] on a rules document whose base layout has no
    [variantList] child changes nothing in the tree it has read, but the
    file is backed up and rewritten from that tree all the same, and the
    step prints the processing line and the backup line and nothing
    else.  The rewritten file holds what the parser reads back from it:
    for a plain document, one that uses no name in the xkeyboard-config
    namespace and has no carriage return in its character data, that is
    the tree as it was, and no rules document has changed. *)
Theorem remove_without_variant_list
    (w : world) (f : string) (root : element) (p : path) (layout_node : element) :
  In f XKB_RULES_FILES →
  rules w !! f = Some (WellFormed root) →
  locate_base_layout root = Some (p, layout_node) →
  find "variantList" layout_node = None →
  fst (modify_rules_file ActRemove f w) = Returned tt
  ∧ rules (after (modify_rules_file ActRemove f) w)
    = <[f := reread (parse_error w root) root]> (rules w)
  ∧ (plain root = true →
     rules (after (modify_rules_file ActRemove f) w) = rules w)
  ∧ events_of (modify_rules_file ActRemove f) w
    = [ Print (processing_line f);
        Copy f (backup_path_at f w);
        Print (created_backup_line (backup_path_at f w));
        Write f ].
Proof.
  intros Hf Hd Hloc Hvl.
  destruct (patched_layout_remove_none _ Hvl) as [Hpl Hmsg].
  destruct (locate_base_layout_get _ _ _ Hloc) as [Hget _].
  unfold events_of, after.
  rewrite modify_rules_file_run by (by apply rules_files_are_rules_paths).
  assert (Hr : rules (snd (rules_file_effect ActRemove f w))
               = <[f := reread (parse_error w root) root]> (rules w)).
  { rewrite rules_file_effect_rules, Hd. simpl. rewrite Hloc.
    unfold patched_root. by rewrite Hpl, update_same by done. }
  split; [by rewrite rules_file_effect_outcome, Hd|].
  split; [exact Hr|]. split.
  - intros Hplain. rewrite Hr, reread_plain by done. by apply insert_id.
  - rewrite rules_file_effect_trace, drop_app_length, Hd.
    unfold file_events. rewrite Hloc, Hmsg. reflexivity.
Qed.

Lemma remove_without_variant_list_witness :
  find "variantList" Sample.us_plain = None
  ∧ plain Sample.doc_us = true
  ∧ rules (after (modify_rules_file ActRemove evdev_xml) Sample.typical_host)
    = rules Sample.typical_host.
Proof.
  assert (Hin : In evdev_xml XKB_RULES_FILES) by (left; reflexivity).
  pose proof (remove_without_variant_list Sample.typical_host evdev_xml
                Sample.doc_us [0; 1] Sample.us_plain
                Hin eq_refl eq_refl eq_refl) as (_ & _ & Hr & _).
  split; [reflexivity|]. split; [reflexivity|]. by apply Hr.
Defined.

(** On a document with an element in the xkeyboard-config namespace the
    same step leaves a file in which every element is in that namespace;
    on one with a carriage return in a text, a file with a line feed in
    its place. *)
Example remove_rewrites_what_it_read :
  rules (after (modify_rules_file ActRemove evdev_xml) Sample.prefixed_host)
    !! evdev_xml
  = Some (WellFormed
            (requalified Sample.doc_us_prefixed))
  ∧ locate_base_layout (requalified Sample.doc_us_prefixed) = None
  ∧ (get [0; 1; 1] Sample.doc_us_cr
     = Some (Sample.leaf "description" ("French" +:+ Sample.cr +:+ "(AZERTY)"))
     ∧ ∃ root',
         rules (after (modify_rules_file ActRemove evdev_xml) Sample.cr_host)
           !! evdev_xml = Some (WellFormed root')
         ∧ get [0; 1; 1] root'
           = Some (Sample.leaf "description" ("French" +:+ NL +:+ "(AZERTY)"))).
Proof.
  split; [vm_compute; reflexivity|]. split; [vm_compute; reflexivity|].
  split; [reflexivity|]. eexists. split; vm_compute; reflexivity.
Qed.

(** ** Reading back what was written *)

Lemma split_lines_well_split s cur :
  Forall (λ c, c ≠ LF) cur → well_split (split_lines cur s).
Proof.
  revert cur. induction s as [|c s IH]; intros cur Hcur; simpl.
  - destruct cur as [|x cur]; [constructor|].
    apply well_split_last; [|by apply Forall_rev].
    intros H. apply (f_equal (@List.length _)) in H.
    rewrite length_rev in H. discriminate.
  - destruct (N.eqb_spec c LF) as [->|Hc].
    + simpl. apply well_split_cons; [by apply Forall_rev | by apply IH].
    + apply IH. by constructor.
Qed.

Lemma split_lines_body body cur rest :
  Forall (λ c, c ≠ LF) body →
  split_lines cur (body ++ rest) = split_lines (rev body ++ cur) rest.
Proof.
  revert cur. induction body as [|c body IH]; intros cur Hb; [done|].
  inversion Hb as [|? ? Hc Hb']; subst. simpl.
  destruct (N.eqb_spec c LF) as [->|_]; [done|].
  rewrite IH by done. by rewrite <- app_assoc.
Qed.

Lemma split_lines_concat ls :
  well_split ls → split_lines [] (concat ls) = ls.
Proof.
  induction 1 as [|l Hne Hl|body ls Hb _ IH]; simpl; [done| |].
  - rewrite split_lines_body by done. rewrite !app_nil_r. simpl.
    destruct (rev l) eqn:Hr; [|by rewrite <- Hr, rev_involutive].
    apply (f_equal (@rev _)) in Hr. rewrite rev_involutive in Hr. done.
  - rewrite <- app_assoc, split_lines_body by done. simpl.
    by rewrite app_nil_r, rev_involutive, IH.
Qed.

Lemma concat_split_lines s cur :
  concat (split_lines cur s) = rev cur ++ s.
Proof.
  revert cur. induction s as [|c s IH]; intros cur; simpl.
  - destruct cur; simpl; by rewrite ?app_nil_r.
  - destruct (N.eqb_spec c LF) as [->|_]; simpl.
    + rewrite IH. simpl. by rewrite <- app_assoc.
    + rewrite IH. simpl. by rewrite <- app_assoc.
Qed.

Lemma universal_newlines_no_cr s : no_cr (universal_newlines s).
Proof.
  unfold no_cr.
  assert (H : ∀ n (s : str), (List.length s <= n)%nat →
                     Forall (λ c, c ≠ CR) (universal_newlines s)).
  { clear s. induction n as [|n IH]; intros s Hn.
    - destruct s; [constructor | simpl in Hn; lia].
    - destruct s as [|c s]; [constructor|].
      destruct (N.eqb_spec c CR) as [->|Hc].
      + destruct s as [|d s]; [by repeat constructor|].
        change (universal_newlines (CR :: d :: s))
          with (if (d =? LF)%N then LF :: universal_newlines s
                else LF :: universal_newlines (d :: s)).
        destruct (N.eqb_spec d LF) as [->|Hd];
          (constructor; [done | apply IH; simpl in *; lia]).
      + simpl. destruct (N.eqb_spec c CR); [done|].
        constructor; [done | apply IH; simpl in *; lia]. }
  by apply (H (List.length s)).
Qed.

Lemma universal_newlines_id s : no_cr s → universal_newlines s = s.
Proof.
  induction 1 as [|c s Hc _ IH]; simpl; [done|].
  destruct (N.eqb_spec c CR); [done | by rewrite IH].
Qed.

Lemma scan_sublist skip lines : scan skip lines `sublist_of` lines.
Proof.
  revert skip. induction lines as [|l ls IH]; intros skip; simpl;
    [constructor|].
  destruct (if is_header l then true else skip); simpl.
  - destruct (is_closer l); apply sublist_cons; apply IH.
  - apply sublist_skip, IH.
Qed.

Lemma well_split_sublist l1 l2 :
  l1 `sublist_of` l2 → well_split l2 → well_split l1.
Proof.
  intros Hsub Hw. revert l1 Hsub.
  induction Hw as [|l Hne Hl|body ls Hb Hw IH]; intros l1 Hsub.
  - apply sublist_nil_r in Hsub as ->. constructor.
  - apply sublist_cons_r in Hsub as [Hsub|(l' & -> & Hsub)];
      apply sublist_nil_r in Hsub as ->; by constructor.
  - apply sublist_cons_r in Hsub as [Hsub|(l' & -> & Hsub)].
    + by apply IH.
    + apply well_split_cons; [done | by apply IH].
Qed.

Lemma concat_sublist_no_cr (l1 l2 : list str) :
  l1 `sublist_of` l2 → no_cr (concat l2) → no_cr (concat l1).
Proof.
  unfold no_cr. induction 1 as [|x l1 l2 _ IH|x l1 l2 _ IH]; simpl;
    rewrite ?Forall_app; [done| |]; intros [Hx Hl]; auto.
Qed.

(** Reading the file that [remove] wrote gives back the lines kept. *)
Lemma readlines_scan_readlines skip content :
  readlines (writelines (scan skip (readlines content)))
  = scan skip (readlines content).
Proof.
  unfold readlines, writelines.
  set (lines := split_lines [] (universal_newlines content)).
  rewrite universal_newlines_id.
  - apply split_lines_concat.
    eapply well_split_sublist; [apply scan_sublist|].
    by apply split_lines_well_split.
  - eapply concat_sublist_no_cr; [apply scan_sublist|].
    unfold lines. rewrite concat_split_lines. simpl.
    apply universal_newlines_no_cr.
Qed.

Lemma scan_drops_headers skip lines :
  List.filter is_header (scan skip lines) = [].
Proof.
  revert skip. induction lines as [|l ls IH]; intros skip; simpl; [done|].
  destruct (is_header l) eqn:Hh.
  - rewrite (header_is_not_closer _ Hh). simpl. apply IH.
  - destruct skip; simpl.
    + destruct (is_closer l); apply IH.
    + by rewrite Hh, IH.
Qed.

Lemma managed_headers_after_scan content :
  managed_headers (writelines (scan false (readlines content))) = [].
Proof.
  unfold managed_headers.
  rewrite readlines_scan_readlines. apply scan_drops_headers.
Qed.

(** ** What the patchers leave alone *)

Lemma scan_app skip l1 l2 :
  scan skip (l1 ++ l2) = scan skip l1 ++ scan (scan_flag skip l1) l2.
Proof.
  revert skip. induction l1 as [|l l1 IH]; intros skip; simpl; [done|].
  destruct (if is_header l then true else skip); simpl.
  - destruct (is_closer l); apply IH.
  - by rewrite IH.
Qed.

Lemma scan_outside_block block :
  Forall (λ l, is_header l = false) block →
  scan false block = block ∧ scan_flag false block = false.
Proof.
  induction 1 as [|l block Hl _ [IH1 IH2]]; simpl; [done|].
  rewrite Hl. simpl. by rewrite IH1, IH2.
Qed.

(** A run of lines without a managed header that the scanner reaches
    outside a managed block is copied as it is. *)
Lemma scan_keeps_block pre block post :
  scan_flag false pre = false →
  Forall (λ l, is_header l = false) block →
  scan false (pre ++ block ++ post)
  = scan false pre ++ block ++ scan false post.
Proof.
  intros Hpre Hb. destruct (scan_outside_block block Hb) as [H1 H2].
  by rewrite !scan_app, Hpre, H1, H2.
Qed.

Lemma is_managed_variant_new name description :
  In (name, description) VARIANTS_TO_INSTALL →
  is_managed_variant (new_variant name description) = true.
Proof.
  intros Hin. unfold is_managed_variant. apply existsb_exists.
  exists (name, description). split; [done|]. apply new_variant_is_named.
Qed.

Lemma unmanaged_children_reconciled act vl d :
  In d VARIANTS_TO_INSTALL →
  unmanaged_children (reconciled act vl d) = unmanaged_children vl.
Proof.
  intros Hd. unfold unmanaged_children.
  assert (Hrm : List.filter (λ c, negb (is_managed_variant c))
                  (children (remove_existing (fst d) vl))
                = List.filter (λ c, negb (is_managed_variant c)) (children vl)).
  { simpl. induction (children vl) as [|c cs IH]; simpl; [done|].
    destruct (has_tag "variant" c && named (fst d) c) eqn:Hm; simpl.
    - assert (is_managed_variant c = true) as ->; [|exact IH].
      apply existsb_exists. by exists d.
    - by rewrite IH. }
  destruct act; simpl in *; [|exact Hrm].
  rewrite List.filter_app, Hrm. simpl.
  destruct d as [name description].
  rewrite is_managed_variant_new by done. simpl. by rewrite app_nil_r.
Qed.

Lemma same_node_reconciled act vl d : same_node vl (reconciled act vl d).
Proof. by destruct act. Qed.

Lemma reconciled_all_unmanaged act vl :
  same_node vl (reconciled_all act vl)
  ∧ unmanaged_children (reconciled_all act vl) = unmanaged_children vl.
Proof.
  unfold reconciled_all.
  assert (H : ∀ ds, (∀ d, In d ds → In d VARIANTS_TO_INSTALL) →
                ∀ vl, same_node vl (fold_left (reconciled act) ds vl)
                      ∧ unmanaged_children (fold_left (reconciled act) ds vl)
                        = unmanaged_children vl).
  { induction ds as [|d ds IH]; intros Hds vl0; simpl; [done|].
    destruct (IH (λ d' H, Hds d' (or_intror H)) (reconciled act vl0 d))
      as [(H1 & H2 & H3 & H4) Hu].
    rewrite Hu, unmanaged_children_reconciled by (apply Hds; by left).
    destruct (same_node_reconciled act vl0 d) as (G1 & G2 & G3 & G4).
    repeat split; congruence. }
  by apply H.
Qed.

Lemma patched_layout_edits act layout_node :
  edits_variant_list layout_node (patched_layout act layout_node).
Proof.
  unfold patched_layout.
  destruct (find_pos "variantList" (children layout_node)) as [i|].
  - destruct (children layout_node !! i) as [vl|] eqn:Hvl;
      [|by apply edits_nothing].
    destruct (reconciled_all_unmanaged act vl) as [Hs Hu].
    by eapply edits_in_place.
  - destruct act; [|by apply edits_nothing].
    eapply edits_by_adding; [done|].
    by destruct (reconciled_all_unmanaged ActInstall (new "variantList"))
      as [_ ->].
Qed.

(** What an operation leaves of a rules document: the document as it
    was, or the document patched at its base layout. *)
Lemma operation_rules_lookup act w f :
  In f XKB_RULES_FILES →
  rules (after (operation act) w) !! f = rules w !! f
  ∨ rules (after (operation act) w) !! f = file_after act (parse_error w) (rules w !! f).
Proof.
  intros Hf.
  assert (Hpass : ∀ w0, rules (snd (rules_pass act w0)) !! f = rules w0 !! f
                        ∨ rules (snd (rules_pass act w0)) !! f
                          = file_after act (parse_error w0) (rules w0 !! f)).
  { intros w0. destruct (pass_exits w0) eqn:Hex.
    - rewrite rules_pass_unfold.
      pose proof (rules_file_effect_outcome act evdev_xml w0) as Ho.
      pose proof (rules_file_effect_lookup_same act evdev_xml w0) as Hs.
      pose proof (rules_file_effect_lookup_other act evdev_xml base_xml w0)
        as Hr.
      pose proof (rules_file_effect_parse_error act evdev_xml w0) as Hpe.
      destruct (rules_file_effect act evdev_xml w0) as [o1 w1]. simpl in *.
      destruct (is_malformed (rules w0 !! evdev_xml)) eqn:Hm1; subst o1.
      + simpl. unfold evdev_xml, base_xml in *.
        destruct Hf as [<-|[<-|[]]]; [by right | left; by apply Hr].
      + pose proof (rules_file_effect_outcome act base_xml w1) as Ho2.
        pose proof (rules_file_effect_lookup_same act base_xml w1) as Hs2.
        pose proof (rules_file_effect_lookup_other act base_xml evdev_xml w1)
          as Hr2.
        destruct (rules_file_effect act base_xml w1) as [o2 w2]. simpl in *.
        assert (rules w2 !! f
                = file_after act (parse_error w0) (rules w0 !! f)) as Hgoal.
        { unfold evdev_xml, base_xml in *.
          destruct Hf as [<-|[<-|[]]];
            [by rewrite Hr2 | by rewrite Hs2, Hpe, Hr]. }
        destruct o2; simpl; by right.
    - right. by apply rules_pass_lookup. }
  destruct act; simpl operation; unfold after.
  - rewrite install_run. destruct (source w) as [blob|]; [|by left].
    rewrite finish_keeps by reflexivity.
    rewrite <- (install_symbols_effect_rules blob w),
      <- (install_symbols_effect_parse_error blob w). apply Hpass.
  - rewrite remove_run, finish_keeps by reflexivity.
    rewrite <- (remove_symbols_effect_rules w),
      <- (remove_symbols_effect_parse_error w). apply Hpass.
Qed.

Lemma install_symbols_cases w :
  symbols (after install w)
  = match source w with
    | Some blob => Some (default [] (symbols w) ++ [LF; LF] ++ read blob)
    | None => symbols w
    end.
Proof.
  destruct (source w) as [blob|] eqn:Hs; [by apply install_symbols|].
  unfold after. by rewrite install_run, Hs.
Qed.

(** C4, as stated, fails on both files.  In the symbols file, [remove]
    drops the unrelated [fr] block when it follows a managed header that
    has no closing line of its own: the file ends up empty.  In a rules
    document, [install] changes the [layout] element keyed [us], which
    is not a managed descriptor id: it gains a variant list. *)
Lemma preservation_counterexample :
  (readlines Sample.symbols_unclosed
   = (header_text "carbon" ++ Sample.line " {") :: Sample.fr_block
   ∧ List.filter is_header Sample.fr_block = []
   ∧ symbols (after remove Sample.unclosed_host) = Some [])
  ∧ (get [0; 1] Sample.doc_us = Some Sample.us_plain
     ∧ named "us" Sample.us_plain = true
     ∧ ∃ root',
         rules (after install Sample.typical_host) !! evdev_xml
         = Some (WellFormed root')
         ∧ get [0; 1] root' ≠ Some Sample.us_plain).
Proof.
  split; [repeat split; vm_compute; reflexivity|].
  split; [reflexivity|]. split; [reflexivity|].
  eexists. split; [vm_compute; reflexivity|].
  vm_compute. discriminate.
Qed.

(** C4, amended.  [install] leaves what the symbols file held as the
    exact beginning of what it holds afterwards.  [remove] rewrites the
    symbols file from its lines as read (line ends CR LF and CR become
    LF), and copies every run of lines that holds no managed header and
    is reached outside a managed block.  In a rules document an
    operation changes nothing, or patches the base layout of the tree it
    has read and writes that tree: then only the variant list of the
    base layout is edited in its place or, when missing on install,
    added as the last child; the children of that list that are not
    variants named by a managed id are kept in their order; and every
    element at a position off the path to the base layout is the same as
    before.  The file holds the patched tree as the parser reads it
    back: the patched tree itself when the document is plain, that is,
    when it uses no name in the xkeyboard-config namespace and has no
    carriage return in its character data. *)
Theorem patch_preserves_unmanaged (act : action) (w : world) (f : string) :
  In f XKB_RULES_FILES →
  symbols (after install w)
  = match source w with
    | Some blob => Some (default [] (symbols w) ++ [LF; LF] ++ read blob)
    | None => symbols w
    end
  ∧ (∀ content pre block post,
       symbols w = Some content →
       readlines content = pre ++ block ++ post →
       scan_flag false pre = false →
       Forall (λ l, is_header l = false) block →
       symbols (after remove w)
       = Some (writelines (scan false pre ++ block ++ scan false post)))
  ∧ (rules (after (operation act) w) !! f = rules w !! f
     ∨ ∃ root p layout_node,
         rules w !! f = Some (WellFormed root)
         ∧ locate_base_layout root = Some (p, layout_node)
         ∧ rules (after (operation act) w) !! f
           = Some (reread
                     (parse_error w (patched_root act root p layout_node))
                     (patched_root act root p layout_node))
         ∧ (plain root = true →
            rules (after (operation act) w) !! f
            = Some (WellFormed (patched_root act root p layout_node)))
         ∧ get p (patched_root act root p layout_node)
           = Some (patched_layout act layout_node)
         ∧ edits_variant_list layout_node (patched_layout act layout_node)
         ∧ ∀ q, diverge p q →
             get q (patched_root act root p layout_node) = get q root).
Proof.
  intros Hf. split; [apply install_symbols_cases|]. split.
  - intros content pre block post Hs Hlines Hpre Hblock.
    rewrite remove_symbols. unfold remove_symbols_effect. rewrite Hs. simpl.
    by rewrite Hlines, scan_keeps_block.
  - destruct (operation_rules_lookup act w f Hf) as [H|H]; [by left|].
    destruct (rules w !! f) as [[e|root]|] eqn:Hd; try (by left).
    simpl in H.
    destruct (locate_base_layout root) as [[p layout_node]|] eqn:Hloc;
      [|by left].
    right. exists root, p, layout_node.
    destruct (locate_base_layout_get _ _ _ Hloc) as [Hget _].
    repeat split; try done.
    + intros Hplain. rewrite H, reread_plain; [done|].
      by apply plain_patched_root.
    + unfold patched_root. by rewrite (get_update _ _ _ layout_node).
    + apply patched_layout_edits.
    + intros q Hq. by apply get_update_diverge.
Qed.

Lemma patch_preserves_unmanaged_witness :
  In evdev_xml XKB_RULES_FILES
  ∧ symbols (after install Sample.typical_host)
    = Some (Sample.symbols_fr ++ [LF; LF] ++ read Sample.blob)
  ∧ symbols (after remove (after install Sample.typical_host))
    = Some (writelines (Sample.fr_block
                        ++ scan false (readlines ([LF; LF] ++ Sample.blob)))).
Proof.
  assert (Hin : In evdev_xml XKB_RULES_FILES) by (left; reflexivity).
  pose proof (patch_preserves_unmanaged ActInstall Sample.typical_host
                evdev_xml Hin) as (Hi & _ & _).
  pose proof (patch_preserves_unmanaged ActRemove
                (after install Sample.typical_host) evdev_xml Hin)
    as (_ & Hr & _).
  split; [exact Hin|]. split; [exact Hi|].
  apply (Hr (Sample.symbols_fr ++ [LF; LF] ++ read Sample.blob)
            [] Sample.fr_block (readlines ([LF; LF] ++ Sample.blob))).
  - exact Hi.
  - vm_compute. reflexivity.
  - reflexivity.
  - repeat constructor.
Defined.

(** ** Backups *)











Lemma audit_app ex s a b :
  audit ex s (a ++ b) = audit ex s a ≫= λ s', audit ex s' b.
Proof.
  revert s. induction a as [|ev a IH]; intros s; simpl; [done|].
  destruct (ledger_step ex s ev); [apply IH | done].
Qed.

Lemma audit_prints ex s lines : audit ex s (List.map Print lines) = Some s.
Proof. induction lines as [|l lines IH]; simpl; [done | exact IH]. Qed.


Example audit_rejects_write_without_backup :
  audit ["f"] empty_ledger [Print "x"; Write "f"] = None
  ∧ audit ["f"] empty_ledger [Copy "f" "f.bak_1"; Write "g"; Write "f"] = None
  ∧ audit ["f"] empty_ledger [Copy "f" "f.bak_1"; Copy "f" "f.bak_2"] = None
  ∧ audit ["f"] empty_ledger [Copy "g" "g.bak_1"] = None
  ∧ is_Some (audit ["f"] empty_ledger
               [Copy "f" "f.bak_1"; Print "x"; Write "f"; Append "g"]).
Proof. repeat split; vm_compute; eauto. Qed.








(** ** Installing twice *)

Lemma install_twice_symbols w blob :
  source w = Some blob →
  symbols (after install (after install w))
  = Some ((default [] (symbols w) ++ [LF; LF] ++ read blob)
          ++ [LF; LF] ++ read blob).
Proof.
  intros Hs.
  rewrite (install_symbols _ blob)
    by (rewrite <- Hs; apply install_keeps_source).
  by rewrite (install_symbols w blob).
Qed.

(** The symbols file after two installs is never the file after one. *)
Lemma install_twice_grows w blob :
  source w = Some blob →
  symbols (after install (after install w)) ≠ symbols (after install w).
Proof.
  intros Hs. rewrite (install_twice_symbols w blob), (install_symbols w blob)
    by done.
  intros [= H]. apply (f_equal (@List.length _)) in H.
  rewrite !length_app in H. simpl in H. lia.
Qed.

(** C1 at a failing input: on the sample host a second [install] leaves
    the rules documents as the first one left them, but appends the blob
    to the symbols file once more, so that every managed block is there
    twice. *)
Theorem install_twice_duplicates_blocks :
  let once := after install Sample.typical_host in
  let twice := after install once in
  symbols once = Some (Sample.symbols_fr ++ [LF; LF] ++ Sample.blob)
  ∧ symbols twice
    = Some (Sample.symbols_fr ++ [LF; LF] ++ Sample.blob
            ++ [LF; LF] ++ Sample.blob)
  ∧ symbols twice ≠ symbols once
  ∧ (List.length ∘ managed_headers <$> symbols once) = Some 2
  ∧ (List.length ∘ managed_headers <$> symbols twice) = Some 4
  ∧ rules twice !! evdev_xml = rules once !! evdev_xml
  ∧ rules twice !! base_xml = rules once !! base_xml.
Proof.
  intros once twice.
  repeat match goal with |- _ ∧ _ => split end;
    try (vm_compute; reflexivity).
  apply (install_twice_grows _ Sample.blob). reflexivity.
Qed.

(** The rules patcher, by contrast, reaches a fixed point at once. *)

Lemma filter_all {A} (P : A → bool) l :
  Forall (λ x, P x = true) l → List.filter P l = l.
Proof.
  induction 1 as [|x l Hx _ IH]; simpl; [done|]. by rewrite Hx, IH.
Qed.

Lemma Forall_filter_both {A} (P Q : A → bool) l :
  Forall (λ x, P x = true ∧ Q x = true) (List.filter Q (List.filter P l)).
Proof.
  apply List.Forall_forall. intros x Hx.
  apply filter_In in Hx as [Hx HQ]. apply filter_In in Hx as [_ HP]. done.
Qed.

Lemma reconciled_all_install_idem vl :
  reconciled_all ActInstall (reconciled_all ActInstall vl)
  = reconciled_all ActInstall vl.
Proof.
  unfold reconciled_all, VARIANTS_TO_INSTALL.
  cbn [fold_left reconciled fst snd].
  unfold append, remove_existing, set_children. cbn [children tag attrib text tail].
  f_equal.
  set (nc := new_variant "carbon" "English (Carbon)").
  set (na := new_variant "carbon-angle" "English (Carbon, Angle Mod)").
  set (Pc := λ c, negb (has_tag "variant" c && named "carbon" c)).
  set (Pa := λ c, negb (has_tag "variant" c && named "carbon-angle" c)).
  assert (Hnc : Pc nc = false ∧ Pa nc = true) by (split; reflexivity).
  assert (Hna : Pc na = true ∧ Pa na = false) by (split; reflexivity).
  destruct Hnc as [Hc1 Hc2], Hna as [Ha1 Ha2].
  rewrite !List.filter_app.
  do 3 (cbn [List.filter]; rewrite ?Hc1, ?Hc2, ?Ha1, ?Ha2).
  rewrite ?app_nil_r.
  pose proof (Forall_filter_both Pc Pa (children vl)) as HU.
  set (U := List.filter Pa (List.filter Pc (children vl))) in *.
  rewrite (filter_all Pc U)
    by (eapply Forall_impl; [exact HU | by intros x [? ?]]).
  rewrite (filter_all Pa U)
    by (eapply Forall_impl; [exact HU | by intros x [? ?]]).
  by rewrite <- !app_assoc.
Qed.

Lemma patched_layout_install_idem layout_node :
  patched_layout ActInstall (patched_layout ActInstall layout_node)
  = patched_layout ActInstall layout_node.
Proof.
  pose proof (find_patched_layout ActInstall layout_node) as Hfind.
  set (L1 := patched_layout ActInstall layout_node) in *.
  assert (∃ vl, find "variantList" L1 = Some (reconciled_all ActInstall vl))
    as [vl Hvl].
  { destruct (find "variantList" layout_node) as [vl|]; eauto. }
  clear Hfind. unfold patched_layout at 1.
  rewrite find_find_pos in Hvl.
  destruct (find_pos "variantList" (children L1)) as [i|]; [|done].
  simpl in Hvl. rewrite Hvl, reconciled_all_install_idem.
  rewrite list_insert_id by done. apply set_children_id.
Qed.

(** ** Line ends and the searches of the script *)

Lemma lookup_map {A B} (f : A → B) l i : List.map f l !! i = f <$> l !! i.
Proof.
  revert i. induction l as [|x l IH]; intros [|i]; simpl; auto.
Qed.

Lemma insert_map {A B} (f : A → B) l i x :
  <[i := f x]> (List.map f l) = List.map f (<[i := x]> l).
Proof.
  revert i. induction l as [|y l IH]; intros [|i]; simpl; try done.
  by rewrite IH.
Qed.

Lemma filter_map_commute {A B} (f : A → B) (P : A → bool) (Q : B → bool) l :
  (∀ x, Q (f x) = P x) →
  List.filter Q (List.map f l) = List.map f (List.filter P l).
Proof.
  intros H. induction l as [|x l IH]; simpl; [done|].
  rewrite H. destruct (P x); simpl; by rewrite IH.
Qed.

Lemma one_line_cons c s :
  one_line (String c s) = true →
  Ascii.eqb c "013" = false ∧ Ascii.eqb c "010" = false ∧ one_line s = true.
Proof.
  unfold one_line. cbn [list_ascii_of_string forallb]. intros H.
  apply andb_true_iff in H as [H Hs]. apply andb_true_iff in H as [H1 H2].
  by apply negb_true_iff in H1, H2.
Qed.

Lemma newlines_one_line s name :
  one_line name = true → newlines s = name → s = name.
Proof.
  revert name. induction s as [|c s IH]; intros name Hn; [done|].
  cbn [newlines]. destruct (Ascii.eqb c "013") eqn:Hc.
  - intros <-. apply one_line_cons in Hn as (_ & Hn & _).
    by rewrite Ascii.eqb_refl in Hn.
  - destruct name as [|d name]; [done|]. intros [= <- H].
    apply one_line_cons in Hn as (_ & _ & Hn). f_equal. by apply IH.
Qed.

Lemma newlines_fixes_one_line name :
  one_line name = true → newlines name = name.
Proof.
  induction name as [|c name IH]; [done|]. intros Hn.
  apply one_line_cons in Hn as (Hc & _ & Hn).
  cbn [newlines]. by rewrite Hc, IH.
Qed.

Lemma text_is_normalised x name :
  one_line name = true →
  bool_decide (newlines <$> x = Some name) = bool_decide (x = Some name).
Proof.
  intros Hn. apply bool_decide_ext. destruct x as [s|]; simpl; [|done].
  split; intros [= H]; f_equal.
  - by apply newlines_one_line.
  - subst. by apply newlines_fixes_one_line.
Qed.

Lemma tag_normalised e : tag (normalised e) = tag e.
Proof. by destruct e. Qed.

Lemma attrib_normalised e : attrib (normalised e) = attrib e.
Proof. by destruct e. Qed.

Lemma text_normalised e : text (normalised e) = newlines <$> text e.
Proof. by destruct e. Qed.

Lemma children_normalised e :
  children (normalised e) = List.map normalised (children e).
Proof. by destruct e. Qed.

Lemma set_children_normalised cs e :
  set_children (List.map normalised cs) (normalised e)
  = normalised (set_children cs e).
Proof. by destruct e. Qed.

Lemma has_tag_normalised t e : has_tag t (normalised e) = has_tag t e.
Proof. unfold has_tag. by rewrite tag_normalised. Qed.

Lemma findall_normalised t e :
  findall t (normalised e) = List.map normalised (findall t e).
Proof.
  unfold findall. rewrite children_normalised.
  apply filter_map_commute, has_tag_normalised.
Qed.

Lemma find_normalised t e : find t (normalised e) = normalised <$> find t e.
Proof.
  unfold find. rewrite findall_normalised. by destruct (findall t e).
Qed.

Lemma named_normalised name e :
  one_line name = true → named name (normalised e) = named name e.
Proof.
  intros Hn. unfold named, find2. rewrite findall_normalised.
  assert (H : ∀ l, flat_map (findall "name") (List.map normalised l)
                   = List.map normalised (flat_map (findall "name") l)).
  { induction l as [|x l IH]; simpl; [done|].
    by rewrite findall_normalised, List.map_app, IH. }
  rewrite H. destruct (flat_map _ _) as [|x xs]; simpl; [done|].
  rewrite text_normalised. by apply text_is_normalised.
Qed.

Lemma is_base_layout_normalised e :
  is_base_layout (normalised e) = is_base_layout e.
Proof.
  unfold is_base_layout.
  by rewrite has_tag_normalised, named_normalised by reflexivity.
Qed.

Lemma is_variant_named_normalised name c :
  one_line name = true →
  is_variant_named name (normalised c) = is_variant_named name c.
Proof.
  intros Hn. unfold is_variant_named.
  by rewrite has_tag_normalised, named_normalised.
Qed.

Lemma is_managed_variant_normalised c :
  is_managed_variant (normalised c) = is_managed_variant c.
Proof.
  unfold is_managed_variant, VARIANTS_TO_INSTALL. cbn [existsb fst].
  by rewrite !is_variant_named_normalised by reflexivity.
Qed.

Lemma get_normalised p e : get p (normalised e) = normalised <$> get p e.
Proof.
  revert e. induction p as [|i p IH]; intros e; simpl; [done|].
  rewrite children_normalised, lookup_map.
  destruct (children e !! i) as [c|]; simpl; [apply IH | done].
Qed.

Lemma update_normalised p d e :
  update p (λ _, normalised d) (normalised e)
  = normalised (update p (λ _, d) e).
Proof.
  revert e. induction p as [|i p IH]; intros e; simpl; [done|].
  rewrite children_normalised, lookup_map.
  destruct (children e !! i) as [c|]; simpl; [|done].
  by rewrite IH, insert_map, set_children_normalised.
Qed.

Lemma descendants_normalised e :
  descendants (normalised e)
  = List.map (λ pd, (fst pd, normalised (snd pd))) (descendants e).
Proof.
  induction e as [t a x tl cs IH] using element_ind'.
  rewrite !descendants_unfold, children_normalised. cbn [children].
  generalize 0 as k. induction IH as [|c cs Hc _ IHcs]; intros k; [done|].
  simpl. rewrite Hc, IHcs, List.map_app, !List.map_map. reflexivity.
Qed.

Lemma first_descendant_normalised Q root :
  (∀ e, Q (normalised e) = Q e) →
  first_descendant Q (normalised root)
  = (λ pd, (fst pd, normalised (snd pd))) <$> first_descendant Q root.
Proof.
  intros HQ. unfold first_descendant. rewrite descendants_normalised.
  rewrite (filter_map_commute _ (λ pd, Q (snd pd)))
    by (intros [q e]; apply HQ).
  by destruct (List.filter _ _).
Qed.

Lemma locate_base_layout_normalised root :
  locate_base_layout (normalised root)
  = (λ pd, (fst pd, normalised (snd pd))) <$> locate_base_layout root.
Proof.
  rewrite !locate_base_layout_first.
  apply first_descendant_normalised, is_base_layout_normalised.
Qed.

Lemma remove_existing_normalised name vl :
  one_line name = true →
  remove_existing name (normalised vl) = normalised (remove_existing name vl).
Proof.
  intros Hn. unfold remove_existing. rewrite children_normalised.
  rewrite (filter_map_commute _
             (λ c, negb (has_tag "variant" c && named name c))).
  - apply set_children_normalised.
  - intros c. by rewrite has_tag_normalised, named_normalised.
Qed.

Lemma reconciled_normalised act vl d :
  In d VARIANTS_TO_INSTALL →
  reconciled act (normalised vl) d = normalised (reconciled act vl d).
Proof.
  intros Hd.
  assert (one_line (fst d) = true
          ∧ normalised (new_variant (fst d) (snd d))
            = new_variant (fst d) (snd d)) as [Hn Hnew]
    by (destruct Hd as [<-|[<-|[]]]; split; reflexivity).
  destruct act; unfold reconciled; rewrite remove_existing_normalised by done;
    [|done].
  unfold append. rewrite children_normalised.
  rewrite <- Hnew at 1.
  change [normalised (new_variant d.1 d.2)]
    with (List.map normalised [new_variant d.1 d.2]).
  rewrite <- List.map_app. apply set_children_normalised.
Qed.

Lemma reconciled_all_normalised act vl :
  reconciled_all act (normalised vl) = normalised (reconciled_all act vl).
Proof.
  unfold reconciled_all.
  assert (H : ∀ ds, (∀ d, In d ds → In d VARIANTS_TO_INSTALL) →
                ∀ vl, fold_left (reconciled act) ds (normalised vl)
                      = normalised (fold_left (reconciled act) ds vl)).
  { induction ds as [|d ds IH]; intros Hds vl0; [done|]. simpl.
    rewrite reconciled_normalised by (apply Hds; by left).
    apply IH. intros d' Hd'. apply Hds. by right. }
  by apply H.
Qed.

Lemma find_pos_normalised t cs :
  find_pos t (List.map normalised cs) = find_pos t cs.
Proof.
  induction cs as [|c cs IH]; simpl; [done|].
  by rewrite has_tag_normalised, IH.
Qed.

Lemma patched_layout_normalised act layout_node :
  patched_layout act (normalised layout_node)
  = normalised (patched_layout act layout_node).
Proof.
  unfold patched_layout.
  rewrite children_normalised, find_pos_normalised.
  destruct (find_pos "variantList" (children layout_node)) as [i|].
  - rewrite lookup_map.
    destruct (children layout_node !! i) as [vl|]; simpl; [|done].
    by rewrite reconciled_all_normalised, insert_map, set_children_normalised.
  - destruct act; [|done].
    change (new "variantList") with (normalised (new "variantList")) at 1.
    rewrite reconciled_all_normalised.
    change [normalised (reconciled_all ActInstall (new "variantList"))]
      with (List.map normalised [reconciled_all ActInstall (new "variantList")]).
    rewrite <- List.map_app. apply set_children_normalised.
Qed.

Lemma patched_root_normalised act root p layout_node :
  patched_root act (normalised root) p (normalised layout_node)
  = normalised (patched_root act root p layout_node).
Proof.
  unfold patched_root. rewrite patched_layout_normalised.
  apply update_normalised.
Qed.

Lemma every_node_normalised P e :
  (∀ x, P (normalised x) = P x) →
  every_node P (normalised e) = every_node P e.
Proof.
  intros HP. induction e as [t a x tl cs IH] using element_ind'.
  rewrite (every_node_unfold _ (normalised _)), HP, children_normalised.
  rewrite (every_node_unfold _ (Element _ _ _ _ _)). cbn [children]. f_equal.
  induction IH as [|c cs Hc _ IHcs]; simpl; [done|]. by rewrite Hc, IHcs.
Qed.

Lemma uses_default_normalised e :
  uses_default (normalised e) = uses_default e.
Proof.
  unfold uses_default. f_equal. apply every_node_normalised.
  intros x. unfold names_default. by rewrite tag_normalised, attrib_normalised.
Qed.

Lemma has_cr_newlines s : has_cr (newlines s) = false.
Proof.
  assert (H : ∀ n s, (String.length s <= n)%nat → has_cr (newlines s) = false).
  { clear s. induction n as [|n IH]; intros s Hn.
    - destruct s; [done | simpl in Hn; lia].
    - destruct s as [|c s]; [done|]. cbn [newlines].
      destruct (Ascii.eqb c "013") eqn:Hc.
      + unfold has_cr. cbn [list_ascii_of_string existsb].
        change (Ascii.eqb "013" "010") with false. cbn [orb].
        destruct s as [|d s]; [done|].
        destruct (Ascii.eqb d "010"); apply IH; simpl in *; lia.
      + unfold has_cr. cbn [list_ascii_of_string existsb].
        rewrite Ascii.eqb_sym, Hc. cbn [orb]. apply IH. simpl in *; lia. }
  by apply (H (String.length s)).
Qed.

Lemma normalised_carriage_free e :
  every_node carriage_free (normalised e) = true.
Proof.
  induction e as [t a x tl cs IH] using element_ind'.
  rewrite every_node_unfold, children_normalised. cbn [children].
  apply andb_true_iff. split.
  - unfold carriage_free. simpl.
    destruct x as [x|], tl as [tl|]; simpl; by rewrite ?has_cr_newlines.
  - induction IH as [|c cs Hc _ IHcs]; simpl; [done|]. by rewrite Hc, IHcs.
Qed.

Lemma normalised_idem e : normalised (normalised e) = normalised e.
Proof. apply normalised_id, normalised_carriage_free. Qed.

(** ** Documents outside the xkeyboard-config namespace *)

Lemma reread_free err root :
  uses_default root = false → reread err root = WellFormed (normalised root).
Proof. unfold reread. by intros ->. Qed.

Lemma uses_default_patched_root act root p layout_node :
  uses_default root = false →
  get p root = Some layout_node →
  uses_default (patched_root act root p layout_node) = false.
Proof.
  unfold uses_default. intros H Hget.
  apply negb_false_iff in H. apply negb_false_iff.
  apply every_node_patched_root; try done;
    intros d [<-|[<-|[]]]; reflexivity.
Qed.

(** What an operation leaves of such a document in which the base layout
    is found: the patched tree with the line ends of its character data
    as the parser reads them, again outside the namespace and with the
    base layout in its place. *)
Lemma file_after_free act err root p layout_node :
  uses_default root = false →
  locate_base_layout root = Some (p, layout_node) →
  file_after act err (Some (WellFormed root))
  = Some (WellFormed (normalised (patched_root act root p layout_node)))
  ∧ uses_default (normalised (patched_root act root p layout_node)) = false
  ∧ locate_base_layout (normalised (patched_root act root p layout_node))
    = Some (p, normalised (patched_layout act layout_node)).
Proof.
  intros Hfree Hloc.
  destruct (locate_base_layout_get _ _ _ Hloc) as [Hget _].
  pose proof (uses_default_patched_root act _ _ _ Hfree Hget) as Hfree'.
  split; [|split].
  - simpl. by rewrite Hloc, reread_free.
  - by rewrite uses_default_normalised.
  - rewrite locate_base_layout_normalised. unfold patched_root.
    by rewrite (locate_base_layout_update _ _ layout_node)
      by (done || apply patched_layout_similar).
Qed.

Lemma file_after_free_cases act err d :
  is_malformed d = false →
  (∀ r, d = Some (WellFormed r) → uses_default r = false) →
  is_malformed (file_after act err d) = false
  ∧ ∀ r', file_after act err d = Some (WellFormed r') →
          uses_default r' = false.
Proof.
  intros Hm Hfree. destruct d as [[e|root]|]; try done.
  destruct (locate_base_layout root) as [[p layout_node]|] eqn:Hloc.
  - destruct (file_after_free act err root p layout_node) as (-> & H & _);
      [by apply Hfree | done |].
    split; [done|]. by intros r' [= <-].
  - simpl. rewrite Hloc. split; [done|]. intros r' [= <-]. by apply Hfree.
Qed.

Lemma no_headers_Forall lines :
  List.filter is_header lines = [] →
  Forall (λ l, is_header l = false) lines.
Proof.
  intros H. apply List.Forall_forall. intros l Hl.
  destruct (is_header l) eqn:Hh; [|done].
  assert (In l (List.filter is_header lines)) as Hin
    by (apply filter_In; by split).
  by rewrite H in Hin.
Qed.

Lemma remove_symbols_content w :
  symbols (after remove w)
  = (λ content, writelines (scan false (readlines content))) <$> symbols w.
Proof.
  rewrite remove_symbols. unfold remove_symbols_effect.
  by destruct (symbols w) as [c|] eqn:Hs.
Qed.

(** ** Removal after any number of installs *)

(** *** The symbols file *)

Lemma startswith_app p rest : startswith (p ++ rest) p = true.
Proof.
  induction p as [|a p IH]; simpl; [by destruct rest|].
  by rewrite N.eqb_refl.
Qed.

Lemma startswith_spec s p : startswith s p = true → ∃ rest, s = p ++ rest.
Proof.
  revert s. induction p as [|a p IH]; intros s; [by exists s|].
  destruct s as [|b s]; [done|]. simpl. intros H.
  apply andb_true_iff in H as [H1 H2]. apply N.eqb_eq in H1 as ->.
  destruct (IH _ H2) as [rest ->]. eauto.
Qed.

Lemma lstrip_blank indent s : blank indent → lstrip (indent ++ s) = lstrip s.
Proof. induction 1 as [|c indent Hc _ IH]; simpl; [done|]. by rewrite Hc. Qed.

Lemma lstrip_head s x : head s = Some x → isspace x = false → lstrip s = s.
Proof. destruct s as [|c s]; [done|]. simpl. by intros [= ->] ->. Qed.

Lemma lstrip_keeps_tail u y v :
  isspace y = false → ∃ u', lstrip (u ++ y :: v) = u' ++ y :: v.
Proof.
  intros Hy. induction u as [|c u IH]; simpl.
  - rewrite Hy. by exists [].
  - destruct (isspace c); [exact IH|]. by exists (c :: u).
Qed.

Lemma strip_keeps indent body rest x y :
  blank indent →
  head body = Some x → isspace x = false →
  last body = Some y → isspace y = false →
  ∃ z, strip (indent ++ body ++ rest) = body ++ z.
Proof.
  intros Hb Hx Hxs Hy Hys. unfold strip. rewrite lstrip_blank by done.
  rewrite (lstrip_head _ x); [| by destruct body | done].
  apply last_Some in Hy as [body' ->]. unfold rstrip.
  rewrite rev_app_distr, rev_unit.
  destruct (lstrip_keeps_tail (rev rest) y (rev body') Hys) as [u' ->].
  rewrite rev_app_distr. simpl. rewrite rev_involutive.
  by exists (rev u').
Qed.

(** A header in the form the tool looks for is a header for the tool. *)
Lemma canonical_is_header line : canonical line → is_header line = true.
Proof.
  intros (indent & id & rest & Hid & Hb & ->). unfold is_header.
  destruct Hid as [<-|[<-|[]]]; cbn [fst].
  - change (keyword ++ of_string " " ++ quoted "carbon" ++ rest)
      with (header_text "carbon" ++ rest).
    destruct (strip_keeps indent (header_text "carbon") rest 120%N 34%N)
      as [z ->]; try done.
    by rewrite startswith_app.
  - change (keyword ++ of_string " " ++ quoted "carbon-angle" ++ rest)
      with (header_text "carbon-angle" ++ rest).
    destruct (strip_keeps indent (header_text "carbon-angle") rest 120%N 34%N)
      as [z ->]; try done.
    rewrite (startswith_app (header_text "carbon-angle")). apply orb_true_r.
Qed.

Lemma canonical_lf l : canonical l → canonical (l ++ [LF]).
Proof.
  intros (indent & id & rest & Hid & Hb & ->).
  exists indent, id, (rest ++ [LF]). by rewrite <- !app_assoc.
Qed.

Lemma keyword_not_at_end (pre : str) l : l ++ [LF] ≠ pre ++ keyword.
Proof.
  change keyword with (of_string "xkb_symbol" ++ [115%N]).
  rewrite app_assoc. intros H. by apply app_inj_tail in H as [_ [=]].
Qed.

Lemma quoted_not_at_end (pre : str) id l : l ++ [LF] ≠ pre ++ quoted id.
Proof.
  unfold quoted. rewrite !app_assoc. intros H.
  by apply app_inj_tail in H as [_ [=]].
Qed.

Lemma announces_lf l : announces (l ++ [LF]) → announces l.
Proof.
  intros (pre & gap & post & Hl & Hb & [->|(id & rest & Hid & ->)]).
  - rewrite app_nil_r in Hl.
    destruct gap as [|c gap _] using rev_ind.
    { rewrite app_nil_r in Hl. by apply keyword_not_at_end in Hl. }
    rewrite !app_assoc in Hl. apply app_inj_tail in Hl as [-> _].
    exists pre, gap, []. rewrite app_nil_r, <- app_assoc.
    split; [done|]. split; [|by left].
    by apply Forall_app in Hb as [Hb _].
  - destruct rest as [|c rest _] using rev_ind.
    { rewrite app_nil_r, !app_assoc in Hl.
      by apply quoted_not_at_end in Hl. }
    rewrite !app_assoc in Hl. apply app_inj_tail in Hl as [-> _].
    exists pre, gap, (quoted id ++ rest). rewrite <- !app_assoc.
    split; [done|]. split; [done|]. right. eauto.
Qed.

Lemma blank_line_announces_nothing : ¬ announces [LF].
Proof.
  intros (pre & gap & post & Hl & _).
  apply (f_equal (@List.length _)) in Hl.
  rewrite !length_app in Hl. simpl in Hl. lia.
Qed.

Lemma split_lines_lf_Forall (R : str → Prop) cur s :
  R [LF] → (∀ l, R l → R (l ++ [LF])) →
  Forall R (split_lines cur s) → Forall R (split_lines cur (s ++ [LF])).
Proof.
  intros HLF Hsnoc. revert cur. induction s as [|c s IH]; intros cur; simpl.
  - intros H. constructor; [|constructor].
    destruct cur as [|x cur]; [exact HLF|].
    inversion H; subst. by apply Hsnoc.
  - destruct (N.eqb_spec c LF) as [->|_]; [|apply IH].
    intros H. inversion H; subst. constructor; [done | by apply IH].
Qed.

Lemma split_lines_app_lf cur x rest :
  split_lines cur (x ++ LF :: rest)
  = split_lines cur (x ++ [LF]) ++ split_lines [] rest.
Proof.
  revert cur. induction x as [|c x IH]; intros cur; [done|].
  simpl. destruct (N.eqb_spec c LF) as [->|_]; simpl; by rewrite IH.
Qed.

Lemma split_lines_chunks (R : str → Prop) text chunks :
  R [LF] → (∀ l, R l → R (l ++ [LF])) →
  Forall R (split_lines [] text) →
  Forall (λ c, Forall R (split_lines [] c)) chunks →
  Forall R (split_lines [] (text ++ concat (List.map (cons LF) chunks))).
Proof.
  intros HLF Hsnoc Htext Hchunks. revert text Htext.
  induction Hchunks as [|c chunks Hc _ IH]; intros text Htext; simpl.
  - by rewrite app_nil_r.
  - rewrite split_lines_app_lf. apply Forall_app. split.
    + by apply split_lines_lf_Forall.
    + by apply IH.
Qed.

Lemma universal_newlines_app_lf s t :
  no_cr t →
  universal_newlines (s ++ LF :: t) = universal_newlines s ++ LF :: t
  ∨ universal_newlines (s ++ LF :: t) = universal_newlines s ++ t.
Proof.
  intros Ht.
  assert (H : ∀ n (s : str), (List.length s <= n)%nat →
            universal_newlines (s ++ LF :: t) = universal_newlines s ++ LF :: t
            ∨ universal_newlines (s ++ LF :: t) = universal_newlines s ++ t).
  { clear s. induction n as [|n IH]; intros s Hn.
    - destruct s; [|simpl in Hn; lia]. left. simpl.
      by rewrite universal_newlines_id.
    - destruct s as [|c s].
      { left. simpl. by rewrite universal_newlines_id. }
      destruct (N.eqb_spec c CR) as [->|Hc].
      + destruct s as [|d s].
        { right. simpl. by rewrite universal_newlines_id. }
        change (universal_newlines ((CR :: d :: s) ++ LF :: t))
          with (if (d =? LF)%N then LF :: universal_newlines (s ++ LF :: t)
                else LF :: universal_newlines ((d :: s) ++ LF :: t)).
        change (universal_newlines (CR :: d :: s))
          with (if (d =? LF)%N then LF :: universal_newlines s
                else LF :: universal_newlines (d :: s)).
        destruct (d =? LF)%N.
        * destruct (IH s) as [-> | ->]; [simpl in *; lia | by left | by right].
        * destruct (IH (d :: s)) as [-> | ->];
            [simpl in *; lia | by left | by right].
      + simpl. destruct (N.eqb_spec c CR); [done|].
        destruct (IH s) as [-> | ->]; [simpl in *; lia | by left | by right]. }
  by apply (H (List.length s)).
Qed.

Lemma install_times_source n w blob :
  source w = Some blob → source (install_times n w) = Some blob.
Proof.
  revert w. induction n as [|n IH]; intros w Hs; [done|]. simpl.
  apply IH. unfold after. by rewrite (install_keeps_source w).
Qed.

(** What the symbols file holds after [S n] runs of [install]. *)
Lemma install_times_symbols n w blob :
  source w = Some blob →
  symbols (install_times (S n) w)
  = Some (default [] (symbols w)
          ++ concat (replicate (S n) ([LF; LF] ++ read blob))).
Proof.
  revert w. induction n as [|n IH]; intros w Hs.
  - simpl. rewrite (install_symbols w blob) by done. by rewrite app_nil_r.
  - change (install_times (S (S n)) w)
      with (install_times (S n) (after install w)).
    rewrite IH by (unfold after; by rewrite (install_keeps_source w)).
    rewrite (install_symbols w blob) by done.
    simpl. by rewrite <- app_assoc.
Qed.

Lemma tidy_Forall content :
  tidy content
  ↔ Forall (λ l, announces l → canonical l) (readlines content).
Proof. unfold tidy. by rewrite List.Forall_forall. Qed.

Lemma concat_chunks (ub : str) n :
  concat (List.map (cons LF) (concat (replicate n [[]; ub])))
  = concat (replicate n ([LF; LF] ++ ub)).
Proof. induction n as [|n IH]; [done|]. simpl. by rewrite IH. Qed.

Lemma no_cr_installed (ub : str) n :
  no_cr ub → no_cr (concat (replicate n ([LF; LF] ++ ub))).
Proof.
  intros Hub. unfold no_cr. induction n as [|n IH]; simpl; [constructor|].
  repeat (constructor; [done|]). by apply Forall_app.
Qed.

(** A symbols file that is tidy stays so when a tidy blob is appended
    to it any number of times. *)
Lemma tidy_installed old blob n :
  tidy old → tidy blob →
  tidy (old ++ concat (replicate n ([LF; LF] ++ read blob))).
Proof.
  rewrite !tidy_Forall. intros Hold Hblob.
  destruct n as [|n]; [by rewrite app_nil_r|].
  set (R := λ l, announces l → canonical l) in *.
  assert (HLF : R [LF]) by (intros H; by apply blank_line_announces_nothing in H).
  assert (Hsnoc : ∀ l, R l → R (l ++ [LF])).
  { intros l Hl Ha. apply canonical_lf, Hl. by apply announces_lf. }
  pose proof (universal_newlines_no_cr blob) as Hub.
  unfold readlines, read in *. set (ub := universal_newlines blob) in *.
  assert (Hchunks : Forall (λ c, Forall R (split_lines [] c))
                           (concat (replicate n [[]; ub]))).
  { clear -Hblob. induction n as [|n IH]; simpl; [constructor|].
    constructor; [constructor|]. by constructor. }
  cbn [replicate concat app].
  change (concat (replicate n (LF :: LF :: ub)))
    with (concat (replicate n ([LF; LF] ++ ub))).
  rewrite <- (concat_chunks ub n).
  destruct (universal_newlines_app_lf old
              (LF :: ub ++ concat (List.map (cons LF)
                                     (concat (replicate n [[]; ub])))))
    as [-> | ->].
  - rewrite concat_chunks. constructor; [done|].
    apply Forall_app. split; [done | by apply no_cr_installed].
  - apply (split_lines_chunks R _ ([] :: ub :: concat (replicate n [[]; ub])));
      try done.
    constructor; [constructor|]. by constructor.
  - apply (split_lines_chunks R _ (ub :: concat (replicate n [[]; ub])));
      try done.
    by constructor.
Qed.

Lemma before_lf (a m x y : str) :
  Forall (λ c, c ≠ LF) a →
  a ++ x = m ++ LF :: y → ∃ n, m = a ++ n ∧ x = n ++ LF :: y.
Proof.
  intros Ha. revert m. induction Ha as [|c a Hc _ IH]; intros m; simpl.
  - intros ->. by exists m.
  - destruct m as [|d m]; simpl; intros [= -> H]; [done|].
    destruct (IH _ H) as (n & -> & ->). by exists n.
Qed.

Lemma keyword_one_line : Forall (λ c, c ≠ LF) keyword.
Proof. repeat constructor; discriminate. Qed.

Lemma quoted_one_line id : managed_id id → Forall (λ c, c ≠ LF) (quoted id).
Proof. intros [<-|[<-|[]]]; repeat constructor; discriminate. Qed.

(** A declaration in a text that is made of lines begins on one of its
    lines. *)
Lemma declares_line lines id :
  managed_id id → well_split lines → declares id (concat lines) →
  ∃ l, In l lines ∧ announces l.
Proof.
  intros Hid Hw. induction Hw as [|l Hne Hl|body ls Hb Hw IH].
  - intros (pre & gap & post & H & _).
    apply (f_equal (@List.length _)) in H.
    rewrite !length_app in H. simpl in H. lia.
  - intros (pre & gap & post & H & Hgap). cbn [concat] in H.
    rewrite app_nil_r in H.
    exists l. split; [by left|].
    exists pre, gap, (quoted id ++ post). split; [done|]. split; [done|].
    right. eauto.
  - intros (pre & gap & post & H & Hgap). cbn [concat] in H.
    assert (Hrest : declares id (concat ls) → ∃ l, In l (((body ++ [LF]) :: ls))
                                                   ∧ announces l).
    { intros Hd. destruct (IH Hd) as (l & Hin & Ha). exists l.
      split; [by right | done]. }
    apply app_eq_app in H as [m [[Hline Htail]|[-> Htail]]];
      [|apply Hrest; by exists m, gap, post].
    destruct m as [|c m _] using rev_ind.
    { apply Hrest. exists [], gap, post. split; [by rewrite Htail | done]. }
    rewrite app_assoc in Hline. apply app_inj_tail in Hline as [-> <-].
    rewrite <- app_assoc in Htail.
    change ([LF] ++ concat ls) with (LF :: concat ls) in Htail.
    apply before_lf in Htail as (n & -> & Htail); [|apply keyword_one_line].
    exists ((pre ++ keyword ++ n) ++ [LF]). split; [by left|].
    change (n ++ LF :: concat ls) with (n ++ [LF] ++ concat ls) in Htail.
    rewrite (app_assoc n) in Htail.
    apply app_eq_app in Htail as [r [[-> _]|[Hn Hq]]].
    + exists pre, (n ++ [LF]), []. rewrite app_nil_r, <- !app_assoc.
      split; [done|]. split; [|by left].
      by apply Forall_app in Hgap as [Hgap _].
    + destruct r as [|c r _] using rev_ind.
      { rewrite app_nil_r in Hn. subst gap.
        exists pre, (n ++ [LF]), []. rewrite app_nil_r, <- !app_assoc.
        split; [done|]. split; [done | by left]. }
      rewrite app_assoc in Hn. apply app_inj_tail in Hn as [-> <-].
      rewrite <- app_assoc in Hq.
      change ([LF] ++ concat ls) with (LF :: concat ls) in Hq.
      apply before_lf in Hq as (r' & -> & _); [|by apply quoted_one_line].
      exists pre, gap, (quoted id ++ r' ++ [LF]). rewrite <- !app_assoc.
      split; [done|]. split; [done|]. right. eauto.
Qed.

Lemma scan_In skip lines l : In l (scan skip lines) → In l lines.
Proof.
  revert skip. induction lines as [|x lines IH]; intros skip; simpl; [done|].
  destruct (if is_header x then true else skip); simpl.
  - destruct (is_closer x); intros H; right; by eapply IH.
  - intros [->|H]; [by left | right; by eapply IH].
Qed.

(** [remove] on a tidy symbols file leaves a text that declares no
    managed block. *)
Lemma scan_leaves_no_declaration content id :
  tidy content → managed_id id →
  ¬ declares id (writelines (scan false (readlines content))).
Proof.
  intros Ht Hid Hd. unfold writelines in Hd.
  apply declares_line in Hd as (l & Hl & Ha); [|done|].
  - assert (is_header l = false) as Hh.
    { pose proof (no_headers_Forall _ (scan_drops_headers false
                                        (readlines content))) as H.
      rewrite List.Forall_forall in H. by apply H. }
    apply scan_In in Hl. apply Ht in Ha; [|done].
    apply canonical_is_header in Ha. congruence.
  - eapply well_split_sublist; [apply scan_sublist|].
    by apply split_lines_well_split.
Qed.

(** *** The rules documents *)

Lemma reconciled_remove_unmanaged vl :
  Forall (λ c, is_managed_variant c = false)
         (children (reconciled_all ActRemove vl)).
Proof.
  apply List.Forall_forall. intros c Hc.
  apply not_true_iff_false. intros H. unfold is_managed_variant in H.
  apply existsb_exists in H as (d & Hd & Hn).
  pose proof (existing_after_remove_all VARIANTS_TO_INSTALL vl d Hd) as He.
  rewrite existing_variants_filter in He.
  assert (In c (List.filter (is_variant_named d.1)
                  (children (fold_left (reconciled ActRemove)
                                       VARIANTS_TO_INSTALL vl)))) as Hin
    by (apply filter_In; by split).
  by rewrite He in Hin.
Qed.

Lemma install_outside_namespace w blob :
  source w = Some blob → pass_exits w = false → outside_namespace w →
  source (after install w) = Some blob
  ∧ pass_exits (after install w) = false
  ∧ outside_namespace (after install w).
Proof.
  intros Hs Hex Hfree.
  assert (Hl : ∀ g, In g XKB_RULES_FILES →
            rules (after install w) !! g
            = file_after ActInstall (parse_error w) (rules w !! g))
    by (intros g Hg; apply install_rules_lookup; by try eexists).
  pose proof Hex as Hex'. apply orb_false_iff in Hex' as [Hm1 Hm2].
  split; [unfold after; by rewrite (install_keeps_source w)|]. split.
  - unfold pass_exits.
    rewrite !Hl by (unfold evdev_xml, base_xml; simpl; auto).
    apply orb_false_iff. split;
      apply file_after_free_cases; try done; intros r Hr;
      eapply Hfree; try exact Hr; unfold evdev_xml, base_xml; simpl; auto.
  - intros g r Hg Hr. rewrite Hl in Hr by done.
    assert (is_malformed (rules w !! g) = false) as Hm
      by (unfold evdev_xml, base_xml in *; by destruct Hg as [<-|[<-|[]]]).
    destruct (file_after_free_cases ActInstall (parse_error w)
                (rules w !! g) Hm) as [_ H]; [|by eapply H].
    intros r0 Hr0. by eapply Hfree.
Qed.

Lemma install_times_outside_namespace n w blob :
  source w = Some blob → pass_exits w = false → outside_namespace w →
  pass_exits (install_times n w) = false
  ∧ outside_namespace (install_times n w).
Proof.
  revert w. induction n as [|n IH]; intros w Hs Hex Hfree; [done|].
  destruct (install_outside_namespace w blob) as (Hs' & Hex' & Hfree');
    try done.
  by apply IH.
Qed.

Lemma install_base_layout w blob f root p layout_node :
  source w = Some blob → pass_exits w = false → outside_namespace w →
  In f XKB_RULES_FILES →
  rules w !! f = Some (WellFormed root) →
  locate_base_layout root = Some (p, layout_node) →
  ∃ root' layout',
    rules (after install w) !! f = Some (WellFormed root')
    ∧ locate_base_layout root' = Some (p, layout')
    ∧ is_Some (find "variantList" layout').
Proof.
  intros Hs Hex Hfree Hf Hd Hloc.
  destruct (file_after_free ActInstall (parse_error w) root p layout_node)
    as (Hafter & _ & Hloc'); [by eapply Hfree | done |].
  eexists _, _. split; [|split; [exact Hloc'|]].
  - rewrite install_rules_lookup, Hd by (by try eexists). exact Hafter.
  - rewrite find_normalised, find_patched_layout.
    by destruct (find "variantList" layout_node).
Qed.

Lemma install_times_base_layout n w blob f root p layout_node :
  source w = Some blob → pass_exits w = false → outside_namespace w →
  In f XKB_RULES_FILES →
  rules w !! f = Some (WellFormed root) →
  locate_base_layout root = Some (p, layout_node) →
  ∃ root' layout',
    rules (install_times (S n) w) !! f = Some (WellFormed root')
    ∧ locate_base_layout root' = Some (p, layout')
    ∧ is_Some (find "variantList" layout').
Proof.
  revert w root layout_node.
  induction n as [|n IH]; intros w root layout_node Hs Hex Hfree Hf Hd Hloc;
    destruct (install_base_layout w blob f root p layout_node)
      as (root1 & layout1 & Hd1 & Hloc1 & Hvl1); try done.
  - by exists root1, layout1.
  - destruct (install_outside_namespace w blob) as (Hs' & Hex' & Hfree');
      try done.
    change (install_times (S (S n)) w)
      with (install_times (S n) (after install w)).
    by eapply IH.
Qed.

Lemma remove_clears_base_layout w f root p layout_node vl :
  pass_exits w = false → uses_default root = false →
  In f XKB_RULES_FILES →
  rules w !! f = Some (WellFormed root) →
  locate_base_layout root = Some (p, layout_node) →
  find "variantList" layout_node = Some vl →
  ∃ root' layout' vl',
    rules (after remove w) !! f = Some (WellFormed root')
    ∧ get p root' = Some layout'
    ∧ is_base_layout layout' = true
    ∧ find "variantList" layout' = Some vl'
    ∧ Forall (λ c, is_managed_variant c = false) (children vl').
Proof.
  intros Hex Hfree Hf Hd Hloc Hvl.
  destruct (file_after_free ActRemove (parse_error w) root p layout_node)
    as (Hafter & _ & Hloc'); [done..|].
  eexists _, _, _. split; [|split; [|split; [|split]]].
  - rewrite remove_rules_lookup, Hd by done. exact Hafter.
  - by apply locate_base_layout_get in Hloc' as [Hget _].
  - by apply locate_base_layout_get in Hloc' as [_ Hbase].
  - by rewrite find_normalised, find_patched_layout, Hvl.
  - rewrite children_normalised. apply Forall_map.
    eapply Forall_impl; [apply reconciled_remove_unmanaged|].
    intros c Hc. simpl. by rewrite is_managed_variant_normalised.
Qed.

(** C3, as stated, fails for both files.  A managed block whose header
    line does not begin with the keyword is not seen by the scanner:
    with the [carbon] block of the blob declared after its flags,
    [remove] after [install] leaves that block, header and all, in the
    symbols file.  And [install] on a rules document that has an element
    in the xkeyboard-config namespace writes a file in which every
    element is in that namespace: the [remove] that follows finds no
    [us] layout in it, says so, and leaves both variants registered.
    Both runs exit with status 0. *)
Lemma remove_after_install_leaves_entries :
  (exit_status install Sample.inline_host = 0
   ∧ exit_status remove (after install Sample.inline_host) = 0
   ∧ ∃ content,
       symbols (after remove (install_times 1 Sample.inline_host))
       = Some content
       ∧ managed_id "carbon" ∧ declares "carbon" content)
  ∧ (exit_status install Sample.prefixed_host = 0
     ∧ exit_status remove (after install Sample.prefixed_host) = 0
     ∧ In (Print (no_base_layout_line evdev_xml))
          (events_of remove (after install Sample.prefixed_host))
     ∧ ∃ root' vl,
         rules (after remove (install_times 1 Sample.prefixed_host))
           !! evdev_xml = Some (WellFormed root')
         ∧ get [0; 0; 1] root' = Some vl
         ∧ List.map (λ c, text <$> get [0; 0] c) (children vl)
           = [Some (Some "carbon"); Some (Some "carbon-angle")]).
Proof.
  split.
  - split; [reflexivity|]. split; [vm_compute; reflexivity|].
    eexists. split; [vm_compute; reflexivity|]. split; [by left|].
    exists (Sample.symbols_fr ++ [LF; LF]
            ++ of_string "partial alphanumeric_keys "),
           (of_string " "),
           (Sample.line " {" ++ Sample.line "    key <AD01> { [ q, Q ] };"
            ++ Sample.line "};").
    split; [vm_compute; reflexivity | by repeat constructor].
  - split; [reflexivity|]. split; [vm_compute; reflexivity|].
    split; [vm_compute; tauto|].
    eexists _, _. split; [vm_compute; reflexivity|].
    split; vm_compute; reflexivity.
Qed.

(** C3, amended: on a host that has the blob, [remove] after [n >= 1]
    runs of [install] leaves a symbols file, and when the blob and the
    symbols file the host had are tidy (every managed header in them is
    written at the start of its line, with one space before the quoted
    id), its text declares no block named by a managed id.  When no
    rules document of the host fails to parse or uses a name in the
    xkeyboard-config namespace, all these runs exit with status 0 and
    every rules document that had a base layout (the first [layout]
    below the root whose [configItem/name] reads [us]) still has a base
    layout at that position, now with a variant list that holds no
    variant named by a managed id. *)
Theorem remove_after_installs_converges (n : nat) (w : world) (blob : str) :
  (1 <= n)%nat →
  source w = Some blob →
  let w' := after remove (install_times n w) in
  (tidy blob → tidy (default [] (symbols w)) →
   ∃ content,
     symbols w' = Some content
     ∧ ∀ id, managed_id id → ¬ declares id content)
  ∧ (pass_exits w = false → outside_namespace w →
     exit_status remove (install_times n w) = 0
     ∧ ∀ f root p layout_node,
         In f XKB_RULES_FILES →
         rules w !! f = Some (WellFormed root) →
         first_descendant is_base_layout root = Some (p, layout_node) →
         ∃ root' layout' vl',
           rules w' !! f = Some (WellFormed root')
           ∧ get p root' = Some layout'
           ∧ is_base_layout layout' = true
           ∧ find "variantList" layout' = Some vl'
           ∧ Forall (λ c, is_managed_variant c = false) (children vl')).
Proof.
  intros Hn Hs. destruct n as [|n]; [lia|]. split.
  - intros Hblob Hold.
    rewrite remove_symbols_content, (install_times_symbols n w blob) by done.
    eexists. split; [reflexivity|]. intros id Hid.
    apply scan_leaves_no_declaration; [|done]. by apply tidy_installed.
  - intros Hex Hfree.
    destruct (install_times_outside_namespace (S n) w blob)
      as [Hex' Hfree']; try done.
    split; [by rewrite exit_status_remove, Hex'|].
    intros f root p layout_node Hf Hd Hloc.
    rewrite <- locate_base_layout_first in Hloc.
    destruct (install_times_base_layout n w blob f root p layout_node)
      as (root1 & layout1 & Hd1 & Hloc1 & [vl1 Hvl1]); try done.
    eapply remove_clears_base_layout; try done. by eapply Hfree'.
Qed.

Lemma announces_may_announce l : announces l → may_announce l = true.
Proof.
  intros (pre & gap & post & -> & Hgap & Hpost).
  induction pre as [|c pre IH];
    [|change ((c :: pre) ++ keyword ++ gap ++ post)
        with (c :: (pre ++ keyword ++ gap ++ post));
      cbn [may_announce]; rewrite IH; apply orb_true_r].
  rewrite app_nil_l.
  assert (may_announce (keyword ++ gap ++ post)
          = (startswith (keyword ++ gap ++ post) keyword
             && (let r := lstrip (drop (List.length keyword)
                                       (keyword ++ gap ++ post)) in
                 bool_decide (r = [])
                 || existsb (λ d, startswith r (quoted (fst d)))
                            VARIANTS_TO_INSTALL)
             || may_announce (List.tl (keyword ++ gap ++ post)))) as ->
    by reflexivity.
  rewrite startswith_app, drop_app_length, lstrip_blank by done.
  cbv zeta. destruct Hpost as [->|(id & rest & Hid & ->)]; [done|].
  rewrite (lstrip_head _ DQUOTE) by done.
  assert (existsb (λ d, startswith (quoted id ++ rest) (quoted d.1))
                  VARIANTS_TO_INSTALL = true) as ->; [|by rewrite orb_true_r].
  apply in_map_iff in Hid as (d & <- & Hd).
  apply existsb_exists. exists d. split; [done | apply startswith_app].
Qed.

Lemma tidy_check content :
  forallb (λ l, negb (may_announce l)
                || existsb (λ d, startswith l (keyword ++ of_string " "
                                               ++ quoted (fst d)))
                           VARIANTS_TO_INSTALL)
          (readlines content) = true →
  tidy content.
Proof.
  rewrite forallb_forall. intros H line Hin Ha. specialize (H line Hin).
  rewrite (announces_may_announce _ Ha) in H. cbn [negb orb] in H.
  apply existsb_exists in H as (d & Hd & H).
  apply startswith_spec in H as [rest ->].
  exists [], d.1, rest. rewrite <- !app_assoc.
  split; [|split; [constructor | done]].
  apply in_map_iff. by exists d.
Qed.

Lemma remove_after_installs_converges_witness :
  (∃ content,
     symbols (after remove (install_times 2 Sample.typical_host))
     = Some content
     ∧ ∀ id, managed_id id → ¬ declares id content)
  ∧ ∃ root' layout' vl',
      rules (after remove (install_times 2 Sample.typical_host)) !! evdev_xml
      = Some (WellFormed root')
      ∧ get [0; 1] root' = Some layout'
      ∧ is_base_layout layout' = true
      ∧ find "variantList" layout' = Some vl'
      ∧ Forall (λ c, is_managed_variant c = false) (children vl').
Proof.
  assert (Hn : (1 <= 2)%nat) by (repeat constructor).
  destruct (remove_after_installs_converges 2 Sample.typical_host
              Sample.blob Hn eq_refl) as [Hflat Hxml].
  split.
  - apply Hflat; apply tidy_check; vm_compute; reflexivity.
  - destruct Hxml as [_ Hxml]; [reflexivity| |].
    + intros g r Hg Hr.
      destruct Hg as [<-|[<-|[]]]; vm_compute in Hr; by injection Hr as <-.
    + apply (Hxml evdev_xml Sample.doc_us [0; 1] Sample.us_plain);
        [by left | reflexivity | reflexivity].
Defined.

(** ** The entry point *)

Lemma main_as_root (chosen : action) (w : world) :
  euid w = 0 → main (Chosen chosen) w = operation chosen w.
Proof.
  intros H. unfold main, bind, check_root_privileges. rewrite H. simpl.
  by destruct chosen.
Qed.

Lemma main_without_root (argv : command_line) (w : world) :
  euid w ≠ 0 →
  main argv w
  = (Exited 1,
     log [Print "Error: This script must be run with root privileges."] w).
Proof.
  intros H. unfold main, bind, check_root_privileges.
  destruct (Nat.eqb_spec (euid w) 0); [done|]. reflexivity.
Qed.

(** * Further properties of the script *)

(** ** Refusals: nothing is touched *)

(** X1: without root privileges [main] runs neither operation, whatever
    the command line: the check comes before the parser, it prints the
    privilege error and exits with status 1, and the files, the backups
    and the clock are as they were. *)
Theorem main_refuses_without_root (argv : command_line) (w : world) :
  euid w ≠ 0 →
  exit_status (main argv) w = 1
  ∧ after (main argv) w
    = log [Print "Error: This script must be run with root privileges."] w.
Proof.
  intros H. unfold exit_status, after.
  by rewrite (main_without_root argv w H).
Qed.

Lemma main_refuses_without_root_witness :
  euid Sample.unprivileged_host ≠ 0
  ∧ exit_status (main (Chosen ActInstall)) Sample.unprivileged_host = 1
  ∧ symbols (after (main (Chosen ActInstall)) Sample.unprivileged_host)
    = Some Sample.symbols_fr.
Proof.
  assert (H : euid Sample.unprivileged_host ≠ 0) by discriminate.
  pose proof (main_refuses_without_root (Chosen ActInstall) _ H) as [Hx Hw].
  split; [exact H|]. split; [exact Hx|]. by rewrite Hw.
Defined.

(** X2: when the bundled blob is missing, [install] stops before any
    backup or write: it prints its opening line and the missing-file
    error, exits with status 1, and leaves every file as it was. *)
Theorem install_without_blob_changes_nothing (w : world) :
  source w = None →
  exit_status install w = 1
  ∧ after install w
    = log [Print "--- Starting Carbon Layout Installation ---";
           Print ("Error: Symbol file '" +:+ source_path w +:+ "' not found.")]
          w.
Proof.
  intros H. unfold exit_status, after. by rewrite install_run, H.
Qed.

Lemma install_without_blob_changes_nothing_witness :
  source Sample.blobless_host = None
  ∧ exit_status install Sample.blobless_host = 1
  ∧ symbols (after install Sample.blobless_host) = Some Sample.symbols_fr
  ∧ backups (after install Sample.blobless_host) = ∅.
Proof.
  pose proof (install_without_blob_changes_nothing Sample.blobless_host eq_refl)
    as [Hx Hw].
  split; [reflexivity|]. split; [exact Hx|]. by rewrite Hw.
Defined.

(** X3: a rules document that fails to parse ends the run with status 1
    after the symbols file has been patched, and nothing is rolled back:
    [install] has appended the blob, [remove] has rewritten the file
    without the managed blocks. *)
Theorem fatal_rules_error_keeps_symbols_patch (w : world) :
  pass_exits w = true →
  (∀ blob, source w = Some blob →
     exit_status install w = 1
     ∧ symbols (after install w)
       = Some (default [] (symbols w) ++ [LF; LF] ++ read blob))
  ∧ exit_status remove w = 1
  ∧ symbols (after remove w)
    = (λ content, writelines (scan false (readlines content))) <$> symbols w.
Proof.
  intros Hex. split; [|split].
  - intros blob Hs. split.
    + by rewrite exit_status_install, Hs, Hex.
    + by apply install_symbols.
  - by rewrite exit_status_remove, Hex.
  - rewrite remove_symbols. unfold remove_symbols_effect.
    by destruct (symbols w) as [c|] eqn:Hs.
Qed.

Lemma fatal_rules_error_keeps_symbols_patch_witness :
  pass_exits Sample.broken_host = true
  ∧ exit_status install Sample.broken_host = 1
  ∧ symbols (after install Sample.broken_host)
    = Some (Sample.symbols_fr ++ [LF; LF] ++ read Sample.blob).
Proof.
  pose proof (fatal_rules_error_keeps_symbols_patch Sample.broken_host eq_refl)
    as [Hi _].
  split; [reflexivity|]. exact (Hi Sample.blob eq_refl).
Defined.

(** ** What an operation never does to the rules documents *)

Lemma file_after_none act err d : file_after act err d = None ↔ d = None.
Proof.
  destruct d as [[e|root]|]; simpl; try done.
  by destruct (locate_base_layout root) as [[p l]|].
Qed.

Lemma operation_rules_lookup_any act w f :
  rules (after (operation act) w) !! f = rules w !! f
  ∨ rules (after (operation act) w) !! f = file_after act (parse_error w) (rules w !! f).
Proof.
  destruct (in_dec String.string_dec f XKB_RULES_FILES) as [Hf|Hf];
    [by apply operation_rules_lookup|].
  left. destruct act; simpl operation; unfold after.
  - rewrite install_run. destruct (source w) as [blob|]; [|done].
    rewrite finish_keeps by reflexivity.
    by rewrite rules_pass_lookup_outside, install_symbols_effect_rules.
  - rewrite remove_run, finish_keeps by reflexivity.
    by rewrite rules_pass_lookup_outside, remove_symbols_effect_rules.
Qed.

(** X4: no operation creates or deletes a rules document, at any path,
    and a document that does not parse is never overwritten: it holds
    afterwards what it held before. *)
Theorem operation_keeps_rules_files (act : action) (w : world) (f : string) :
  (rules (after (operation act) w) !! f = None ↔ rules w !! f = None)
  ∧ (is_malformed (rules w !! f) = true →
     rules (after (operation act) w) !! f = rules w !! f).
Proof.
  destruct (operation_rules_lookup_any act w f) as [H|H]; rewrite H.
  - done.
  - split; [apply file_after_none|].
    by destruct (rules w !! f) as [[e|root]|].
Qed.

Lemma operation_keeps_rules_files_witness :
  is_malformed (rules Sample.broken_host !! evdev_xml) = true
  ∧ rules (after (operation ActInstall) Sample.broken_host) !! evdev_xml
    = rules Sample.broken_host !! evdev_xml
  ∧ rules (after (operation ActInstall) Sample.broken_host) !! "/etc/other.xml"
    = None.
Proof.
  pose proof (operation_keeps_rules_files ActInstall Sample.broken_host
                evdev_xml) as [_ Hm].
  pose proof (operation_keeps_rules_files ActInstall Sample.broken_host
                "/etc/other.xml") as [Hn _].
  split; [reflexivity|]. split; [by apply Hm | by apply Hn].
Defined.

(** ** The line scanner on whole files *)

Lemma scan_without_headers lines :
  List.filter is_header lines = [] → scan false lines = lines.
Proof.
  intros H. apply scan_outside_block.
  apply List.Forall_forall. intros l Hl.
  destruct (is_header l) eqn:Hh; [|done].
  assert (In l (List.filter is_header lines)) as Hin
    by (apply filter_In; by split).
  by rewrite H in Hin.
Qed.

Lemma writelines_readlines content :
  writelines (readlines content) = universal_newlines content.
Proof. unfold writelines, readlines. by rewrite concat_split_lines. Qed.

(** X5: [remove] never adds, changes or reorders a line: the lines of
    the rewritten symbols file are, in order, among the lines the file
    had (as read in text mode). *)
Theorem remove_only_drops_lines (w : world) (old new : str) :
  symbols w = Some old →
  symbols (after remove w) = Some new →
  readlines new `sublist_of` readlines old.
Proof.
  intros Hold. rewrite remove_symbols. unfold remove_symbols_effect.
  rewrite Hold. simpl. intros [= <-].
  rewrite readlines_scan_readlines. apply scan_sublist.
Qed.

Lemma remove_only_drops_lines_witness :
  symbols (after install Sample.typical_host)
  = Some (Sample.symbols_fr ++ [LF; LF] ++ Sample.blob)
  ∧ readlines (Sample.symbols_fr ++ [LF; LF; LF])
    `sublist_of` readlines (Sample.symbols_fr ++ [LF; LF] ++ Sample.blob).
Proof.
  assert (H1 : symbols (after install Sample.typical_host)
               = Some (Sample.symbols_fr ++ [LF; LF] ++ Sample.blob))
    by (vm_compute; reflexivity).
  assert (H2 : symbols (after remove (after install Sample.typical_host))
               = Some (Sample.symbols_fr ++ [LF; LF; LF]))
    by (vm_compute; reflexivity).
  split; [exact H1|].
  exact (remove_only_drops_lines _ _ _ H1 H2).
Defined.

(** X6: on a symbols file that holds no managed header line, [remove]
    writes back the text it read: the content is the same up to the
    translation of CR LF and CR line ends to LF, and identical when the
    file has no CR. *)
Theorem remove_without_managed_block (w : world) (content : str) :
  symbols w = Some content →
  managed_headers content = [] →
  symbols (after remove w) = Some (universal_newlines content)
  ∧ (no_cr content → symbols (after remove w) = Some content).
Proof.
  intros Hs Hh. rewrite remove_symbols. unfold remove_symbols_effect.
  rewrite Hs. simpl. rewrite scan_without_headers by exact Hh.
  rewrite writelines_readlines. split; [done|].
  intros Hcr. by rewrite universal_newlines_id.
Qed.

Lemma remove_without_managed_block_witness :
  symbols Sample.typical_host = Some Sample.symbols_fr
  ∧ managed_headers Sample.symbols_fr = []
  ∧ symbols (after remove Sample.typical_host)
    = Some (universal_newlines Sample.symbols_fr).
Proof.
  pose proof (remove_without_managed_block Sample.typical_host
                Sample.symbols_fr eq_refl eq_refl) as [H _].
  split; [reflexivity|]. split; [reflexivity | exact H].
Defined.

Lemma scan_inside_without_closer rest :
  Forall (λ l, is_closer l = false) rest → scan true rest = [].
Proof.
  induction 1 as [|l rest Hl _ IH]; simpl; [done|].
  rewrite Hl. by destruct (is_header l).
Qed.

(** X7: a managed block that is never closed swallows the rest of the
    file: when no line after a managed header starts with the closing
    marker, the header and every line after it are dropped, whatever
    they are. *)
Theorem unterminated_block_drops_rest (pre rest : list str) (header : str) :
  is_header header = true →
  Forall (λ l, is_closer l = false) rest →
  scan false (pre ++ header :: rest) = scan false pre.
Proof.
  intros Hh Hrest. rewrite scan_app.
  assert (scan (scan_flag false pre) (header :: rest) = []) as ->;
    [|by rewrite app_nil_r].
  simpl. rewrite Hh, (header_is_not_closer _ Hh). simpl.
  by apply scan_inside_without_closer.
Qed.

Lemma unterminated_block_drops_rest_witness :
  is_header (header_text "carbon" ++ Sample.line " {") = true
  ∧ scan false (Sample.fr_block
                ++ (header_text "carbon" ++ Sample.line " {")
                :: [Sample.line "    key <AD01> { [ q, Q ] };";
                    header_text "de" ++ Sample.line " {"])
    = scan false Sample.fr_block.
Proof.
  split; [reflexivity|].
  apply unterminated_block_drops_rest; [reflexivity|].
  repeat constructor.
Defined.

(** ** Install followed by remove, on the symbols file *)

Lemma rstrip_lf l : rstrip (l ++ [LF]) = rstrip l.
Proof. unfold rstrip. by rewrite rev_unit. Qed.

Lemma strip_lf l : strip (l ++ [LF]) = strip l.
Proof.
  unfold strip. induction l as [|c l IH]; [done|].
  simpl. destruct (isspace c); [exact IH|].
  apply (rstrip_lf (c :: l)).
Qed.

Lemma is_header_lf l : is_header (l ++ [LF]) = is_header l.
Proof. unfold is_header. by rewrite strip_lf. Qed.

Lemma split_lines_lf_headers cur s :
  Forall (λ l, is_header l = false) (split_lines cur s) →
  Forall (λ l, is_header l = false) (split_lines cur (s ++ [LF])).
Proof.
  revert cur. induction s as [|c s IH]; intros cur; simpl.
  - intros H. constructor; [|constructor].
    rewrite is_header_lf. destruct cur as [|x cur]; [done|].
    by inversion H.
  - destruct (N.eqb_spec c LF) as [->|_]; [|apply IH].
    intros H. inversion H; subst. constructor; [done | by apply IH].
Qed.

(** X8: [remove] after [install] gives back the symbols file the host
    had, followed by the two separating line ends and by whatever the
    blob holds outside its managed blocks; the original content is not
    restored byte for byte.  This holds when the file held no CR and no
    managed header before (a missing file counts as empty). *)
Theorem install_then_remove_symbols (w : world) (blob : str) :
  source w = Some blob →
  no_cr (default [] (symbols w)) →
  managed_headers (default [] (symbols w)) = [] →
  symbols (after remove (after install w))
  = Some (default [] (symbols w) ++ [LF; LF]
          ++ writelines (scan false (readlines blob))).
Proof.
  set (old := default [] (symbols w)). intros Hsrc Hcr Hh.
  rewrite remove_symbols. unfold remove_symbols_effect.
  rewrite (install_symbols w blob Hsrc). fold old. simpl. f_equal.
  assert (Hlines : readlines (old ++ [LF; LF] ++ read blob)
                   = (readlines (old ++ [LF]) ++ [[LF]]) ++ readlines blob).
  { unfold readlines, read.
    pose proof (universal_newlines_no_cr blob) as Hub.
    set (ub := universal_newlines blob) in *.
    rewrite (universal_newlines_id (old ++ [LF; LF] ++ ub)).
    - rewrite (universal_newlines_id (old ++ [LF]))
        by (apply Forall_app; split; [done | by repeat constructor]).
      change (old ++ [LF; LF] ++ ub) with (old ++ LF :: (LF :: ub)).
      rewrite split_lines_app_lf. simpl. by rewrite <- app_assoc.
    - apply Forall_app. split; [done|].
      repeat (constructor; [done|]). exact Hub. }
  change (old ++ LF :: LF :: read blob) with (old ++ [LF; LF] ++ read blob).
  rewrite Hlines.
  assert (Hb : Forall (λ l, is_header l = false)
                      (readlines (old ++ [LF]) ++ [[LF]])).
  { apply Forall_app. split; [|by repeat constructor].
    unfold readlines. rewrite universal_newlines_id
      by (apply Forall_app; split; [done | by repeat constructor]).
    apply split_lines_lf_headers. apply no_headers_Forall.
    unfold managed_headers, readlines in Hh.
    by rewrite universal_newlines_id in Hh. }
  destruct (scan_outside_block _ Hb) as [H1 H2].
  rewrite scan_app, H1, H2.
  unfold writelines. rewrite !concat_app.
  fold (writelines (readlines (old ++ [LF]))).
  rewrite writelines_readlines, universal_newlines_id
    by (apply Forall_app; split; [done | by repeat constructor]).
  simpl. by rewrite <- !app_assoc.
Qed.

Lemma install_then_remove_symbols_witness :
  source Sample.typical_host = Some Sample.blob
  ∧ managed_headers (default [] (symbols Sample.typical_host)) = []
  ∧ symbols (after remove (after install Sample.typical_host))
    = Some (Sample.symbols_fr ++ [LF; LF]
            ++ writelines (scan false (readlines Sample.blob))).
Proof.
  assert (Hcr : no_cr (default [] (symbols Sample.typical_host))).
  { apply Forall_forall. intros c Hc Heq. subst c.
    vm_compute in Hc. repeat (inversion Hc as [|? ? ? Hc']; clear Hc;
                              rename Hc' into Hc). }
  split; [reflexivity|]. split; [reflexivity|].
  exact (install_then_remove_symbols Sample.typical_host Sample.blob
           eq_refl Hcr eq_refl).
Defined.

(** ** The variant list after the loop over the descriptors *)

Lemma filter_filter_andb {A} (P Q : A → bool) l :
  List.filter Q (List.filter P l) = List.filter (λ x, P x && Q x) l.
Proof.
  induction l as [|x l IH]; simpl; [done|].
  destruct (P x); simpl; [destruct (Q x)|]; by rewrite IH.
Qed.

Lemma unmanaged_children_filters vl :
  unmanaged_children vl
  = List.filter (λ c, negb (has_tag "variant" c && named "carbon-angle" c))
      (List.filter (λ c, negb (has_tag "variant" c && named "carbon" c))
         (children vl)).
Proof.
  rewrite filter_filter_andb. unfold unmanaged_children.
  apply List.filter_ext. intros c.
  unfold is_managed_variant, is_variant_named. simpl.
  by rewrite orb_false_r, negb_orb.
Qed.

Lemma element_eq e e' :
  same_node e e' → children e' = children e → e' = e.
Proof.
  destruct e, e'. unfold same_node. simpl. intros (-> & -> & -> & ->) ->. done.
Qed.

Lemma children_reconciled_all act vl :
  children (reconciled_all act vl)
  = unmanaged_children vl
    ++ match act with
       | ActInstall =>
           [new_variant "carbon" "English (Carbon)";
            new_variant "carbon-angle" "English (Carbon, Angle Mod)"]
       | ActRemove => []
       end.
Proof.
  rewrite unmanaged_children_filters.
  destruct act; unfold reconciled_all, VARIANTS_TO_INSTALL;
    cbn [fold_left reconciled fst snd];
    unfold append, remove_existing, set_children; cbn [children].
  - rewrite List.filter_app. cbn [List.filter].
    change (negb (has_tag "variant" (new_variant "carbon" "English (Carbon)")
                  && named "carbon-angle"
                       (new_variant "carbon" "English (Carbon)")))
      with true.
    cbv iota. by rewrite <- app_assoc.
  - by rewrite app_nil_r.
Qed.

Lemma children_reconciled_remove vl :
  children (reconciled_all ActRemove vl) = unmanaged_children vl.
Proof. by rewrite children_reconciled_all, app_nil_r. Qed.

Lemma reconciled_remove_after act vl :
  reconciled_all ActRemove (reconciled_all act vl)
  = reconciled_all ActRemove vl.
Proof.
  apply element_eq.
  - destruct (reconciled_all_unmanaged ActRemove vl) as [(A1 & A2 & A3 & A4) _].
    destruct (reconciled_all_unmanaged act vl) as [(B1 & B2 & B3 & B4) _].
    destruct (reconciled_all_unmanaged ActRemove (reconciled_all act vl))
      as [(C1 & C2 & C3 & C4) _].
    repeat split; congruence.
  - rewrite !children_reconciled_remove.
    by destruct (reconciled_all_unmanaged act vl) as [_ ->].
Qed.

Lemma children_remove_existing name vl :
  children (remove_existing name vl)
  = List.filter (λ c, negb (is_variant_named name c)) (children vl).
Proof. reflexivity. Qed.

Lemma filter_length_split {A} (P : A → bool) l :
  List.length l
  = List.length (List.filter P l)
    + List.length (List.filter (λ x, negb (P x)) l).
Proof.
  induction l as [|x l IH]; simpl; [done|].
  destruct (P x); simpl; lia.
Qed.

Lemma removal_messages_length vl :
  List.length (children vl)
  = List.length (children (reconciled_all ActRemove vl))
    + List.length (reconcile_all_messages ActRemove VARIANTS_TO_INSTALL vl).
Proof.
  unfold reconciled_all, VARIANTS_TO_INSTALL.
  cbn [fold_left reconcile_all_messages reconciled reconcile_messages fst].
  rewrite app_nil_r, length_app, !length_map, !existing_variants_filter.
  rewrite !children_remove_existing.
  rewrite (filter_length_split (is_variant_named "carbon") (children vl)).
  rewrite (filter_length_split (is_variant_named "carbon-angle")
             (List.filter (λ c, negb (is_variant_named "carbon" c))
                          (children vl))).
  lia.
Qed.

(** X9: whatever a variant list held, the loop over the descriptors
    returns and leaves in it the children that are not managed variants,
    unchanged and in their order, followed on [install] by the fresh
    [carbon] and [carbon-angle] variants in that order, and by nothing
    on [remove]; the list element itself is otherwise the same. *)
Theorem variant_list_after_loop (act : action) (vl : element) (w : world) :
  ∃ vl',
    fst (fold_each (reconcile act) VARIANTS_TO_INSTALL (Some vl) w)
    = Returned (Some vl')
    ∧ same_node vl vl'
    ∧ children vl'
      = unmanaged_children vl
        ++ match act with
           | ActInstall =>
               [new_variant "carbon" "English (Carbon)";
                new_variant "carbon-angle" "English (Carbon, Angle Mod)"]
           | ActRemove => []
           end.
Proof.
  exists (reconciled_all act vl). rewrite fold_each_reconcile.
  split; [reflexivity|]. split; [apply reconciled_all_unmanaged|].
  apply children_reconciled_all.
Qed.

(** X10: when the base layout has no variant list, [install] adds one
    as the last child of the layout, holding exactly the two fresh
    variants, leaves the other children where they were, and prints the
    two lines of the additions. *)
Theorem install_creates_variant_list (layout_node : element) (w : world) :
  find "variantList" layout_node = None →
  patch_layout ActInstall layout_node w
  = (Returned
       (set_children
          (children layout_node
           ++ [Element "variantList" [] None None
                 [new_variant "carbon" "English (Carbon)";
                  new_variant "carbon-angle" "English (Carbon, Angle Mod)"]])
          layout_node),
     log [Print "  + Added variant 'carbon'.";
          Print "  + Added variant 'carbon-angle'."] w).
Proof.
  intros Hf. rewrite patch_layout_run.
  unfold patch_messages. rewrite Hf. f_equal.
  unfold patched_layout. rewrite find_find_pos in Hf.
  destruct (find_pos "variantList" (children layout_node)) as [i|] eqn:Hpos;
    [|reflexivity].
  destruct (find_pos_nth _ _ _ Hpos) as (c & Hc & _).
  simpl in Hf. by rewrite Hc in Hf.
Qed.

Lemma install_creates_variant_list_witness :
  find "variantList" Sample.us_plain = None
  ∧ exit_status (patch_layout ActInstall Sample.us_plain) Sample.typical_host
    = 0.
Proof.
  split; [reflexivity|]. unfold exit_status.
  by rewrite (install_creates_variant_list Sample.us_plain
                Sample.typical_host eq_refl).
Defined.

(** X11: on [remove] the loop over the descriptors prints one removal
    line per variant it takes out of the list, and nothing else: the
    children of the list before are as many as the children left plus
    the lines printed. *)
Theorem removal_lines_match_removed (vl : element) (w : world) :
  ∃ vl' lines,
    fold_each (reconcile ActRemove) VARIANTS_TO_INSTALL (Some vl) w
    = (Returned (Some vl'), log (List.map Print lines) w)
    ∧ List.length (children vl)
      = List.length (children vl') + List.length lines
    ∧ Forall (λ l, l = "  - Removed variant 'carbon'."
                   ∨ l = "  - Removed variant 'carbon-angle'.") lines.
Proof.
  exists (reconciled_all ActRemove vl),
         (reconcile_all_messages ActRemove VARIANTS_TO_INSTALL vl).
  split; [apply fold_each_reconcile|].
  split; [apply removal_messages_length|].
  unfold VARIANTS_TO_INSTALL.
  cbn [reconcile_all_messages reconcile_messages fst].
  rewrite app_nil_r. apply Forall_app. split.
  - apply List.Forall_forall. intros l Hl. apply in_map_iff in Hl.
    destruct Hl as (? & <- & _). by left.
  - apply List.Forall_forall. intros l Hl. apply in_map_iff in Hl.
    destruct Hl as (? & <- & _). by right.
Qed.

(** ** Running [remove] again, and after [install] *)

Lemma update_update p f g e :
  update p f (update p g e) = update p (λ x, f (g x)) e.
Proof.
  revert e. induction p as [|i p IH]; intros e; simpl; [done|].
  destruct (children e !! i) as [c|] eqn:Hc; simpl; [|by rewrite Hc].
  rewrite list_lookup_insert_eq by (by eapply lookup_lt_Some).
  by rewrite IH, list_insert_insert_eq.
Qed.

Lemma patched_layout_remove_after act layout_node :
  (act = ActInstall → is_Some (find "variantList" layout_node)) →
  patched_layout ActRemove (patched_layout act layout_node)
  = patched_layout ActRemove layout_node.
Proof.
  intros Hvl. rewrite find_find_pos in Hvl. unfold patched_layout.
  destruct (find_pos "variantList" (children layout_node)) as [i|] eqn:Hpos.
  - destruct (find_pos_nth _ _ _ Hpos) as (vl & Hi & Htag).
    rewrite Hi. cbn [children set_children].
    rewrite (find_pos_insert _ _ _ vl), Hpos; try done.
    + rewrite list_lookup_insert_eq by (by eapply lookup_lt_Some).
      by rewrite list_insert_insert_eq, reconciled_remove_after.
    + destruct (reconciled_all_unmanaged act vl) as [(Ht & _) _].
      unfold has_tag. by rewrite Ht.
  - destruct act; [|by rewrite Hpos].
    destruct Hvl as [? ?]; done.
Qed.

Lemma patched_layout_remove_created layout_node :
  find "variantList" layout_node = None →
  patched_layout ActRemove (patched_layout ActInstall layout_node)
  = set_children (children layout_node ++ [new "variantList"]) layout_node.
Proof.
  intros Hf. rewrite find_find_pos in Hf. unfold patched_layout.
  destruct (find_pos "variantList" (children layout_node)) as [i|] eqn:Hpos.
  { destruct (find_pos_nth _ _ _ Hpos) as (c & Hc & _).
    simpl in Hf. by rewrite Hc in Hf. }
  cbn [children set_children].
  rewrite find_pos_app_none by done.
  rewrite list_lookup_middle by done.
  rewrite reconciled_remove_after.
  rewrite insert_app_r_alt, Nat.sub_diag by done.
  reflexivity.
Qed.

Lemma patched_layout_remove_unmanaged layout_node :
  (∀ vl, find "variantList" layout_node = Some vl →
         Forall (λ c, is_managed_variant c = false) (children vl)) →
  patched_layout ActRemove layout_node = layout_node.
Proof.
  intros Hvl. rewrite find_find_pos in Hvl. unfold patched_layout.
  destruct (find_pos "variantList" (children layout_node)) as [i|] eqn:Hpos;
    [|done].
  destruct (children layout_node !! i) as [vl|] eqn:Hi; [|done].
  assert (reconciled_all ActRemove vl = vl) as ->.
  { apply element_eq.
    - destruct (reconciled_all_unmanaged ActRemove vl) as [(?&?&?&?) _].
      by repeat split.
    - rewrite children_reconciled_remove. unfold unmanaged_children.
      apply filter_all. eapply Forall_impl; [by apply Hvl|].
      by intros c ->. }
  rewrite list_insert_id by done. apply set_children_id.
Qed.

Lemma remove_rules_lookup_outside w g :
  ¬ In g XKB_RULES_FILES → rules (after remove w) !! g = rules w !! g.
Proof.
  intros Hg. unfold after. rewrite remove_run, finish_keeps by reflexivity.
  by rewrite rules_pass_lookup_outside, remove_symbols_effect_rules.
Qed.

Lemma patched_layout_idem act layout_node :
  patched_layout act (patched_layout act layout_node)
  = patched_layout act layout_node.
Proof.
  destruct act; [apply patched_layout_install_idem|].
  by apply patched_layout_remove_after.
Qed.

Lemma qualified_reread_tag t : qualified (reread_tag t) = true.
Proof. unfold reread_tag. by destruct (qualified t) eqn:H. Qed.

Lemma every_node_requalified e :
  every_node (λ x, qualified (tag x)) (requalified e) = true.
Proof.
  induction e as [t a x tl cs IH] using element_ind'.
  cbn [requalified]. rewrite every_node_unfold. cbn [tag children].
  rewrite qualified_reread_tag. cbn [andb].
  induction IH as [|c cs Hc _ IHcs]; simpl; [done|]. by rewrite Hc, IHcs.
Qed.

(** The search of lines 55-60 asks for the plain tag [layout]: it finds
    nothing in a tree all of whose tags are qualified. *)
Lemma locate_base_layout_qualified root :
  every_node (λ x, qualified (tag x)) root = true →
  locate_base_layout root = None.
Proof.
  intros H.
  destruct (locate_base_layout root) as [[p layout_node]|] eqn:Hloc; [|done].
  apply locate_base_layout_get in Hloc as [Hget Hbase].
  pose proof (every_node_get _ _ _ _ H Hget) as HL.
  rewrite every_node_unfold in HL. apply andb_true_iff in HL as [HL _].
  unfold is_base_layout, has_tag in Hbase.
  apply andb_true_iff in Hbase as [Ht _].
  apply String.eqb_eq in Ht. by rewrite Ht in HL.
Qed.

Lemma file_after_reread_default act err err' root :
  uses_default root = true →
  file_after act err' (Some (reread err root)) = Some (reread err root).
Proof.
  intros H. unfold reread. rewrite H.
  destruct (every_node distinct_keys (requalified root)); [|done].
  cbn [file_after]. rewrite locate_base_layout_qualified; [done|].
  rewrite every_node_normalised; [apply every_node_requalified|].
  intros x. by rewrite tag_normalised.
Qed.

(** What an operation leaves of a rules document, the same operation
    leaves as it is. *)
Lemma file_after_idem act err err' d :
  file_after act err' (file_after act err d) = file_after act err d.
Proof.
  destruct d as [[e|root]|]; try done.
  cbn [file_after].
  destruct (locate_base_layout root) as [[p layout_node]|] eqn:Hloc;
    [|cbn [file_after]; by rewrite Hloc].
  set (t := patched_root act root p layout_node).
  destruct (uses_default t) eqn:Hd; [by apply file_after_reread_default|].
  rewrite reread_free by done.
  assert (Hloc' : locate_base_layout (normalised t)
                  = Some (p, normalised (patched_layout act layout_node))).
  { rewrite locate_base_layout_normalised. unfold t, patched_root.
    by rewrite (locate_base_layout_update _ _ layout_node)
      by (done || apply patched_layout_similar). }
  cbn [file_after]. rewrite Hloc', patched_root_normalised.
  assert (patched_root act t p (patched_layout act layout_node) = t) as ->.
  { unfold t, patched_root. by rewrite update_update, patched_layout_idem. }
  rewrite reread_free by (by rewrite uses_default_normalised).
  by rewrite normalised_idem.
Qed.

(** Two operations in a row on a document outside the namespace. *)
Lemma file_after_twice act1 act2 err1 err2 root p layout_node :
  uses_default root = false →
  locate_base_layout root = Some (p, layout_node) →
  file_after act2 err2 (file_after act1 err1 (Some (WellFormed root)))
  = Some (WellFormed
            (normalised
               (update p (λ _, patched_layout act2
                                 (patched_layout act1 layout_node))
                       root))).
Proof.
  intros Hfree Hloc.
  destruct (file_after_free act1 err1 root p layout_node Hfree Hloc)
    as (-> & Hfree1 & Hloc1).
  destruct (file_after_free act2 err2 _ p _ Hfree1 Hloc1) as (-> & _ & _).
  rewrite patched_root_normalised, normalised_idem.
  unfold patched_root. by rewrite update_update.
Qed.

Lemma outside_namespace_sample (w : world) :
  (∀ g, In g XKB_RULES_FILES →
        match rules w !! g with
        | Some (WellFormed r) => uses_default r = false
        | _ => True
        end) →
  outside_namespace w.
Proof. intros H g r Hg Hr. specialize (H g Hg). by rewrite Hr in H. Qed.

Lemma scan_scan lines : scan false (scan false lines) = scan false lines.
Proof. apply scan_without_headers, scan_drops_headers. Qed.

(** X12: a second [remove] changes no file: the symbols file and every
    rules document are left as the first [remove] left them. *)
Theorem remove_twice_is_remove_once (w : world) :
  pass_exits w = false →
  symbols (after remove (after remove w)) = symbols (after remove w)
  ∧ rules (after remove (after remove w)) = rules (after remove w).
Proof.
  intros Hex. split.
  - rewrite !remove_symbols_content.
    destruct (symbols w) as [content|]; [|done].
    cbn [fmap option_fmap option_map].
    by rewrite readlines_scan_readlines, scan_scan.
  - apply map_eq. intros f.
    destruct (in_dec String.string_dec f XKB_RULES_FILES) as [Hf|Hf];
      [|by rewrite !remove_rules_lookup_outside].
    destruct (operation_rules_lookup_any ActRemove (after remove w) f)
      as [H|H]; [exact H|].
    change (operation ActRemove) with remove in H. rewrite H.
    rewrite remove_rules_lookup by done. apply file_after_idem.
Qed.

Lemma remove_twice_is_remove_once_witness :
  pass_exits Sample.bare_host = false
  ∧ rules (after remove (after remove Sample.bare_host))
    = rules (after remove Sample.bare_host).
Proof.
  split; [reflexivity|].
  apply (remove_twice_is_remove_once Sample.bare_host eq_refl).
Defined.

(** X13: on a host whose rules documents name nothing in the
    xkeyboard-config namespace, when the base layout of a rules document
    already has a variant list, [install] followed by [remove] leaves
    the document as [remove] alone would have left it. *)
Theorem install_then_remove_rules (w : world) (f : string)
    (root : element) (p : path) (layout_node : element) :
  is_Some (source w) → pass_exits w = false → outside_namespace w →
  In f XKB_RULES_FILES →
  rules w !! f = Some (WellFormed root) →
  locate_base_layout root = Some (p, layout_node) →
  is_Some (find "variantList" layout_node) →
  rules (after remove (after install w)) !! f = rules (after remove w) !! f.
Proof.
  intros Hs Hex Hfree Hf Hdoc Hloc Hvl.
  assert (Hex' : pass_exits (after install w) = false).
  { destruct Hs as [blob Hs].
    by destruct (install_outside_namespace w blob Hs Hex Hfree) as (_ & ? & _). }
  rewrite (remove_rules_lookup (after install w)) by done.
  rewrite install_rules_lookup, remove_rules_lookup, Hdoc by done.
  rewrite (file_after_twice _ _ _ _ root p layout_node)
    by (done || by eapply Hfree).
  destruct (file_after_free ActRemove (parse_error w) root p layout_node)
    as (-> & _ & _); [by eapply Hfree | done |].
  unfold patched_root. by rewrite patched_layout_remove_after.
Qed.

Lemma install_then_remove_rules_witness :
  outside_namespace Sample.intl_host
  ∧ rules (after remove (after install Sample.intl_host)) !! evdev_xml
    = rules (after remove Sample.intl_host) !! evdev_xml.
Proof.
  assert (H : outside_namespace Sample.intl_host).
  { apply outside_namespace_sample.
    intros g [<-|[<-|[]]]; vm_compute; reflexivity. }
  split; [exact H|].
  eapply (install_then_remove_rules Sample.intl_host evdev_xml).
  - by eexists.
  - reflexivity.
  - exact H.
  - by left.
  - reflexivity.
  - reflexivity.
  - by eexists.
Defined.

(** X14: on such a host, when the base layout of a rules document has no
    variant list, [install] followed by [remove] does not give the
    document back: the variant list that [install] created stays, empty,
    as the last child of the base layout.  The rest of the document is
    as it was, with the line ends of its character data as the parser
    reads them, and exactly as it was when it held no carriage return. *)
Theorem install_then_remove_leaves_empty_list (w : world) (f : string)
    (root : element) (p : path) (layout_node : element) :
  is_Some (source w) → pass_exits w = false → outside_namespace w →
  In f XKB_RULES_FILES →
  rules w !! f = Some (WellFormed root) →
  locate_base_layout root = Some (p, layout_node) →
  find "variantList" layout_node = None →
  let left_behind :=
    update p
      (λ _, set_children
              (children layout_node ++ [Element "variantList" [] None None []])
              layout_node)
      root in
  rules (after remove (after install w)) !! f
  = Some (WellFormed (normalised left_behind))
  ∧ (plain root = true →
     rules (after remove (after install w)) !! f
     = Some (WellFormed left_behind)).
Proof.
  intros Hs Hex Hfree Hf Hdoc Hloc Hvl left_behind.
  assert (Hex' : pass_exits (after install w) = false).
  { destruct Hs as [blob Hs].
    by destruct (install_outside_namespace w blob Hs Hex Hfree) as (_ & ? & _). }
  assert (Hafter : rules (after remove (after install w)) !! f
                   = Some (WellFormed (normalised left_behind))).
  { rewrite (remove_rules_lookup (after install w)) by done.
    rewrite install_rules_lookup, Hdoc by done.
    rewrite (file_after_twice _ _ _ _ root p layout_node)
      by (done || by eapply Hfree).
    by rewrite patched_layout_remove_created. }
  split; [exact Hafter|].
  intros Hplain. rewrite Hafter. do 2 f_equal.
  apply andb_true_iff in Hplain as [_ Hcr].
  destruct (locate_base_layout_get _ _ _ Hloc) as [Hget _].
  apply normalised_id. unfold left_behind.
  apply every_node_update; [apply carriage_free_local | done |].
  intros d Hd. rewrite Hget in Hd. injection Hd as <-.
  pose proof (every_node_get _ _ _ _ Hcr Hget) as HL.
  rewrite every_node_unfold in HL. apply andb_true_iff in HL as [HL1 HL2].
  rewrite every_node_unfold.
  change (carriage_free (set_children _ layout_node))
    with (carriage_free layout_node).
  destruct layout_node as [t a x tl cs]. cbn [set_children children] in *.
  by rewrite HL1, forallb_app, HL2.
Qed.

Lemma install_then_remove_leaves_empty_list_witness :
  outside_namespace Sample.typical_host
  ∧ plain Sample.doc_us = true
  ∧ rules (after remove (after install Sample.typical_host)) !! evdev_xml
    ≠ rules Sample.typical_host !! evdev_xml.
Proof.
  assert (H : outside_namespace Sample.typical_host).
  { apply outside_namespace_sample.
    intros g [<-|[<-|[]]]; vm_compute; reflexivity. }
  split; [exact H|]. split; [reflexivity|].
  destruct (install_then_remove_leaves_empty_list
              Sample.typical_host evdev_xml Sample.doc_us [0; 1] Sample.us_plain
              ltac:(by eexists) eq_refl H ltac:(by left) eq_refl eq_refl eq_refl)
    as [_ Hplain].
  rewrite Hplain by reflexivity.
  vm_compute. discriminate.
Defined.

(** X15: [remove] has nothing to take out of a rules document whose base
    layout lists no managed variant, and still rewrites the file: from
    the tree it read, so that the next run reads what the parser makes
    of that file, and reads the same document when it names nothing in
    the xkeyboard-config namespace and holds no carriage return. *)
Theorem remove_without_managed_variant (w : world) (f : string)
    (root : element) (p : path) (layout_node : element) :
  pass_exits w = false →
  rules w !! f = Some (WellFormed root) →
  locate_base_layout root = Some (p, layout_node) →
  (∀ vl, find "variantList" layout_node = Some vl →
         Forall (λ c, is_managed_variant c = false) (children vl)) →
  (In f XKB_RULES_FILES →
   rules (after remove w) !! f = Some (reread (parse_error w root) root))
  ∧ (plain root = true → rules (after remove w) !! f = Some (WellFormed root)).
Proof.
  intros Hex Hdoc Hloc Hvl.
  assert (Hroot : patched_root ActRemove root p layout_node = root).
  { unfold patched_root. rewrite patched_layout_remove_unmanaged by done.
    destruct (locate_base_layout_get _ _ _ Hloc) as [Hget _].
    by rewrite update_same. }
  assert (Hin : In f XKB_RULES_FILES →
                rules (after remove w) !! f
                = Some (reread (parse_error w root) root)).
  { intros Hf. rewrite remove_rules_lookup, Hdoc by done.
    cbn [file_after]. by rewrite Hloc, Hroot. }
  split; [exact Hin|]. intros Hplain.
  destruct (in_dec String.string_dec f XKB_RULES_FILES) as [Hf|Hf];
    [|by rewrite remove_rules_lookup_outside].
  by rewrite Hin, reread_plain.
Qed.

Lemma remove_without_managed_variant_witness :
  plain Sample.doc_us_intl = true
  ∧ rules (after remove Sample.intl_host) !! evdev_xml
    = Some (WellFormed Sample.doc_us_intl).
Proof.
  split; [reflexivity|].
  eapply (remove_without_managed_variant Sample.intl_host evdev_xml).
  - reflexivity.
  - reflexivity.
  - reflexivity.
  - intros vl [= <-]. by repeat constructor.
  - reflexivity.
Defined.

(** ** What the backups hold *)














(** ** The search for the base layout *)

Lemma descendants_from_in d cs j c k :
  cs !! j = Some c →
  In ([k + j], c) (descendants_from d k cs)
  ∧ ∀ q e, In (q, e) (d c) → In ((k + j) :: q, e) (descendants_from d k cs).
Proof.
  revert j k. induction cs as [|x cs IH]; intros [|j] k; simpl; try done.
  - intros [= ->]. rewrite Nat.add_0_r. split; [by left|].
    intros q e Hin. right. apply in_app_iff. left.
    apply in_map_iff. by exists (q, e).
  - intros Hj. destruct (IH j (S k) Hj) as [H1 H2].
    rewrite Nat.add_succ_r. simpl in H1, H2. split.
    + right. apply in_app_iff. by right.
    + intros q e Hin. right. apply in_app_iff. right. by apply H2.
Qed.

Lemma get_descendants root p e :
  p ≠ [] → get p root = Some e → In (p, e) (descendants root).
Proof.
  revert root e. induction p as [|i p IH]; [done|]. intros root e _. simpl.
  destruct (children root !! i) as [c|] eqn:Hc; [|done]. intros Hg.
  destruct root as [t a x tl cs]. simpl in *.
  destruct (descendants_from_in descendants cs i c 0 Hc) as [H1 H2].
  destruct p as [|i' p'].
  - injection Hg as ->. exact H1.
  - apply H2. by apply IH.
Qed.

Lemma descendants_proper root p e : In (p, e) (descendants root) → p ≠ [].
Proof.
  destruct root as [t a x tl cs]. simpl. intros Hin.
  apply descendants_from_get in Hin as (j & p' & c & -> & _); [done|].
  apply List.Forall_forall. intros c _ q d. apply descendants_get.
Qed.

(** X17: the search for the base layout looks at the proper descendants
    of the root only.  What it returns is a [layout] element below the
    root whose [configItem/name] reads [us]; it returns nothing exactly
    when no element below the root is one, even if the root itself is. *)
Theorem base_layout_search (root : element) :
  match locate_base_layout root with
  | Some (p, layout_node) =>
      p ≠ [] ∧ get p root = Some layout_node
      ∧ has_tag "layout" layout_node = true
      ∧ named "us" layout_node = true
  | None =>
      ∀ p e, p ≠ [] → get p root = Some e →
             has_tag "layout" e && named "us" e = false
  end.
Proof.
  rewrite locate_base_layout_first. unfold first_descendant.
  destruct (List.filter _ _) as [|[p layout_node] l] eqn:Hfilter; simpl.
  - intros p e Hp Hg. apply get_descendants in Hg; [|done].
    destruct (has_tag "layout" e && named "us" e) eqn:Hq; [|done].
    assert (In (p, e) (List.filter (λ pd, is_base_layout (snd pd))
                                   (descendants root))) as Hin
      by (apply filter_In; by split).
    by rewrite Hfilter in Hin.
  - assert (In (p, layout_node)
               (List.filter (λ pd, is_base_layout (snd pd))
                            (descendants root))) as Hin
      by (rewrite Hfilter; by left).
    apply filter_In in Hin as [Hin Hq].
    apply andb_true_iff in Hq as [Ht Hn].
    repeat split; try done.
    + by eapply descendants_proper.
    + by apply descendants_get.
Qed.

(** ** Idempotence of the rules patch, and the exit status *)

Lemma install_rules_lookup_outside w g :
  ¬ In g XKB_RULES_FILES → rules (after install w) !! g = rules w !! g.
Proof.
  intros Hg. unfold after. rewrite install_run.
  destruct (source w) as [blob|]; [|done].
  rewrite finish_keeps by reflexivity.
  by rewrite rules_pass_lookup_outside, install_symbols_effect_rules.
Qed.

(** X18: a second [install] leaves every rules document as the first
    one left it. *)
Theorem install_twice_keeps_rules (w : world) :
  is_Some (source w) → pass_exits w = false →
  rules (after install (after install w)) = rules (after install w).
Proof.
  intros Hs Hex. apply map_eq. intros f.
  destruct (in_dec String.string_dec f XKB_RULES_FILES) as [Hf|Hf].
  - destruct (operation_rules_lookup_any ActInstall (after install w) f)
      as [H|H]; [exact H|].
    change (operation ActInstall) with install in H. rewrite H.
    rewrite install_rules_lookup by done. apply file_after_idem.
  - by rewrite !install_rules_lookup_outside.
Qed.

Lemma install_twice_keeps_rules_witness :
  rules (after install (after install Sample.bare_host))
  = rules (after install Sample.bare_host).
Proof.
  apply install_twice_keeps_rules; [by eexists | reflexivity].
Defined.

(** X19: a run exits with status 0 only if the script runs as root and
    the parser accepts the command line; and when the command line names
    an action, only if moreover the bundled blob is there if the run
    installs, and neither rules document fails to parse. *)
Theorem main_success_requires (argv : command_line) (w : world) :
  exit_status (main argv) w = 0 →
  euid w = 0
  ∧ argv ≠ UsageError
  ∧ ∀ chosen, argv = Chosen chosen →
      (chosen = ActInstall → is_Some (source w))
      ∧ is_malformed (rules w !! evdev_xml) = false
      ∧ is_malformed (rules w !! base_xml) = false.
Proof.
  destruct (Nat.eq_dec (euid w) 0) as [Hroot|Hroot].
  - intros Hexit. split; [done|]. split.
    + intros ->. revert Hexit. unfold exit_status, main, bind.
      unfold check_root_privileges. by rewrite Hroot.
    + intros chosen ->. revert Hexit.
      assert (exit_status (main (Chosen chosen)) w
              = exit_status (operation chosen) w)
        as -> by (unfold exit_status; by rewrite main_as_root).
      destruct chosen; simpl operation.
      * rewrite exit_status_install. unfold pass_exits.
        destruct (source w) as [blob|]; [|done].
        destruct (is_malformed (rules w !! evdev_xml)),
                 (is_malformed (rules w !! base_xml)); done.
      * rewrite exit_status_remove. unfold pass_exits.
        by destruct (is_malformed (rules w !! evdev_xml)),
                    (is_malformed (rules w !! base_xml)).
  - unfold exit_status. by rewrite main_without_root.
Qed.

Lemma main_success_requires_witness :
  exit_status (main (Chosen ActInstall)) Sample.typical_host = 0
  ∧ is_Some (source Sample.typical_host)
  ∧ is_malformed (rules Sample.typical_host !! evdev_xml) = false.
Proof.
  assert (H : exit_status (main (Chosen ActInstall)) Sample.typical_host = 0)
    by (vm_compute; reflexivity).
  split; [exact H|].
  destruct (main_success_requires (Chosen ActInstall) Sample.typical_host H)
    as (_ & _ & Hall).
  destruct (Hall ActInstall eq_refl) as (Hs & Hm & _).
  split; [by apply Hs | exact Hm].
Defined.

Lemma pass_events_last_fatal act w :
  pass_exits w = true →
  ∃ f e, last (pass_events act w) = Some (Print (parse_error_line f e)).
Proof.
  unfold pass_exits. intros Hex.
  assert (∃ f e, In f XKB_RULES_FILES ∧ rules w !! f = Some (Malformed e))
    as (f & e & Hf & Hd).
  { apply orb_true_iff in Hex as [H|H].
    - destruct (rules w !! evdev_xml) as [[e|r]|] eqn:Hd; try done.
      exists evdev_xml, e. split; [by left | done].
    - destruct (rules w !! base_xml) as [[e|r]|] eqn:Hd; try done.
      exists base_xml, e. split; [by right; left | done]. }
  destruct (pass_fatal act w f e Hf Hd)
    as (_ & pre & f0 & e0 & post & _ & _ & _ & Hlast & _).
  eauto.
Qed.

Lemma operation_last_line act w :
  ∃ line,
    last (trace (after (operation act) w)) = Some (Print line)
    ∧ (line = "To apply changes, please log out and log back in."
       ↔ exit_status (operation act) w = 0).
Proof.
  destruct act; simpl operation.
  - rewrite install_trace, exit_status_install. unfold install_events.
    destruct (source w) as [blob|].
    + unfold closing_events. destruct (pass_exits w) eqn:Hex.
      * destruct (pass_events_last_fatal ActInstall
                    (install_symbols_effect blob w)) as (f & e & Hlast).
        { by rewrite (pass_exits_rules w)
            by apply install_symbols_effect_rules. }
        exists (parse_error_line f e). split.
        -- by rewrite app_nil_r, !last_app, Hlast.
        -- split; [|done]. intros H. vm_compute in H. discriminate.
      * eexists. split; [by rewrite !last_app|done].
    + eexists. split; [by rewrite last_app|].
      split; [|done]. intros H. vm_compute in H. discriminate.
  - rewrite remove_trace, exit_status_remove. unfold remove_events.
    unfold closing_events. destruct (pass_exits w) eqn:Hex.
    + destruct (pass_events_last_fatal ActRemove (remove_symbols_effect w))
        as (f & e & Hlast).
      { by rewrite (pass_exits_rules w) by apply remove_symbols_effect_rules. }
      exists (parse_error_line f e). split.
      * by rewrite app_nil_r, !last_app, Hlast.
      * split; [|done]. intros H. vm_compute in H. discriminate.
    + eexists. split; [by rewrite !last_app|done].
Qed.

(** X20: a run whose command line names an action always ends on a
    printed line, and that line is the closing advice to log out and
    back in exactly when the run exits with status 0; a run that exits
    with another status ends on its error message. *)
Theorem closing_line_iff_success (chosen : action) (w : world) :
  ∃ line,
    last (trace (after (main (Chosen chosen)) w)) = Some (Print line)
    ∧ (line = "To apply changes, please log out and log back in."
       ↔ exit_status (main (Chosen chosen)) w = 0).
Proof.
  destruct (Nat.eq_dec (euid w) 0) as [Hroot|Hroot].
  - unfold after, exit_status. rewrite main_as_root by done.
    apply operation_last_line.
  - unfold after, exit_status. rewrite main_without_root by done.
    eexists. split; [apply last_snoc|]. simpl. split; [|done].
    intros H. discriminate.
Qed.

(** X23: the command line is read after the privilege check and before
    any file is touched.  As root, a request for help prints the usage
    text and exits with status 0, and a command line that the parser
    rejects exits with status 2; neither run backs up or writes a file,
    and the second prints nothing on standard output. *)
Theorem command_line_without_action (w : world) :
  euid w = 0 →
  (∀ usage, exit_status (main (Help usage)) w = 0
            ∧ after (main (Help usage)) w = log [Print usage] w)
  ∧ exit_status (main UsageError) w = 2
  ∧ after (main UsageError) w = w.
Proof.
  intros Hroot.
  unfold exit_status, after, main, bind, check_root_privileges.
  rewrite Hroot. by repeat split.
Qed.

Lemma command_line_without_action_witness :
  euid Sample.typical_host = 0
  ∧ exit_status (main UsageError) Sample.typical_host = 2
  ∧ symbols (after (main (Help "usage: install-as-us-variant.py [-h] (-i | -r)"))
                   Sample.typical_host)
    = Some Sample.symbols_fr.
Proof.
  destruct (command_line_without_action Sample.typical_host eq_refl)
    as (Hhelp & Hcode & _).
  split; [reflexivity|]. split; [exact Hcode|].
  destruct (Hhelp "usage: install-as-us-variant.py [-h] (-i | -r)") as [_ ->].
  reflexivity.
Defined.

(** ** A rules file that is not there *)

Lemma operation_events act w :
  (act = ActInstall → is_Some (source w)) →
  ∃ pre w' lines,
    events_of (operation act) w
    = pre ++ pass_events act w' ++ List.map Print lines
    ∧ rules w' = rules w
    ∧ ∀ ev p, In ev pre → touches p ev = true → p = symbols_path.
Proof.
  intros Hsrc. destruct act; simpl operation.
  - destruct Hsrc as [blob Hblob]; [done|].
    exists (install_symbols_events w), (install_symbols_effect blob w),
           (if pass_exits w then [] else install_closing).
    split; [|split].
    + rewrite events_of_install. unfold install_events, closing_events.
      rewrite Hblob. by destruct (pass_exits w).
    + apply install_symbols_effect_rules.
    + intros ev p Hin Ht. unfold install_symbols_events in Hin.
      destruct (symbols w); simpl in Hin;
        repeat (destruct Hin as [<-|Hin]; try discriminate);
        try done; cbn [touches] in Ht; by apply String.eqb_eq in Ht.
  - exists (remove_symbols_events w), (remove_symbols_effect w),
           (if pass_exits w then [] else remove_closing).
    split; [|split].
    + rewrite events_of_remove. unfold remove_events, closing_events.
      by destruct (pass_exits w).
    + apply remove_symbols_effect_rules.
    + intros ev p Hin Ht. unfold remove_symbols_events in Hin.
      destruct (symbols w); simpl in Hin;
        repeat (destruct Hin as [<-|Hin]; try discriminate);
        try done; cbn [touches] in Ht; by apply String.eqb_eq in Ht.
Qed.

(** X21: a rules file that does not exist is skipped with a warning
    when the pass comes to it: the warning is printed, the file is
    neither backed up nor written, and it is still absent after the
    run. *)
Theorem missing_rules_file_is_skipped (act : action) (w : world) (f : string) :
  (act = ActInstall → is_Some (source w)) →
  In f XKB_RULES_FILES →
  rules w !! f = None →
  is_malformed (rules w !! evdev_xml) = false →
  In (Print ("Warning: Rules file not found, skipping: " +:+ f))
     (events_of (operation act) w)
  ∧ (∀ ev, In ev (events_of (operation act) w) → touches f ev = false)
  ∧ rules (after (operation act) w) !! f = None.
Proof.
  intros Hsrc Hf Hd Hm.
  destruct (operation_events act w Hsrc) as (pre & w' & lines & -> & Hr & Hpre).
  split; [|split].
  - rewrite !in_app_iff. right; left. unfold pass_events. rewrite Hr, Hm.
    rewrite in_app_iff. unfold evdev_xml, base_xml.
    destruct Hf as [<-|[<-|[]]]; [left|right]; rewrite Hd; by left.
  - intros ev. rewrite !in_app_iff.
    destruct (touches f ev) eqn:Ht; [|done]. intros [Hin|[Hin|Hin]].
    + apply (Hpre _ _ Hin) in Ht. subst f.
      by apply symbols_path_not_rules_file in Hf.
    + apply in_pass_events in Hin as (g & bp & Hg & Hin).
      rewrite Hr in Hin.
      assert (g = f) as ->.
      { apply in_file_events in Hin as [[line ->]|[->|[-> _]]];
          simpl in Ht; try discriminate; by apply String.eqb_eq in Ht. }
      rewrite Hd in Hin. destruct Hin as [<-|[]]. discriminate.
    + apply in_map_iff in Hin as (line & <- & _). discriminate.
  - destruct (operation_rules_lookup_any act w f) as [->| ->]; [done|].
    by rewrite Hd.
Qed.

Lemma missing_rules_file_is_skipped_witness :
  In (Print "Warning: Rules file not found, skipping: /usr/share/X11/xkb/rules/base.xml")
     (events_of remove Sample.bare_host)
  ∧ rules (after remove Sample.bare_host) !! base_xml = None.
Proof.
  destruct (missing_rules_file_is_skipped ActRemove Sample.bare_host base_xml)
    as (H1 & _ & H2); try reflexivity.
  - discriminate.
  - right; left; reflexivity.
  - split; [exact H1 | exact H2].
Defined.

(** ** A managed block that is closed *)

Lemma scan_inside_to_closer body closer post :
  Forall (λ l, is_closer l = false) body →
  is_closer closer = true →
  scan true (body ++ closer :: post) = scan false post.
Proof.
  intros Hbody Hc. induction Hbody as [|l body Hl _ IH]; simpl.
  - rewrite Hc. by destruct (is_header closer).
  - rewrite Hl. by destruct (is_header l).
Qed.

(** X22: a managed block is cut out from its header line up to and
    including the first line after it that starts with the closing
    brace; the lines before the header, when none of them is a managed
    header, are kept as they are, and the scan goes on after the block
    as from the start of a file. *)
Theorem managed_block_is_cut_out
    (pre body post : list str) (header closer : str) :
  Forall (λ l, is_header l = false) pre →
  is_header header = true →
  Forall (λ l, is_closer l = false) body →
  is_closer closer = true →
  scan false (pre ++ header :: body ++ closer :: post)
  = pre ++ scan false post.
Proof.
  intros Hpre Hh Hbody Hc.
  destruct (scan_outside_block pre Hpre) as [H1 H2].
  rewrite scan_app, H1, H2. f_equal.
  cbn [scan]. rewrite Hh, (header_is_not_closer _ Hh). cbn [andb negb].
  by apply scan_inside_to_closer.
Qed.

Lemma managed_block_is_cut_out_witness :
  scan false (Sample.fr_block
              ++ Sample.block "carbon" "<AD01> { [ q, Q ] };"
              ++ Sample.fr_block)
  = Sample.fr_block ++ Sample.fr_block.
Proof.
  rewrite <- (proj1 (scan_outside_block Sample.fr_block
                       ltac:(by repeat constructor))) at 3.
  apply (managed_block_is_cut_out Sample.fr_block
           [Sample.line "    key <AD01> { [ q, Q ] };"] Sample.fr_block
           (header_text "carbon" ++ Sample.line " {") (Sample.line "};")).
  - by repeat constructor.
  - reflexivity.
  - by repeat constructor.
  - reflexivity.
Defined.
